(** * news_bot: a shallow embedding of the TechNews auto-publisher

    The pipeline of [src/news_bot] (fetcher, generator, publisher, sitemap,
    indexer, main) as Rocq functions, and the properties its specification
    states about it.

    Conventions.
    - A Python [str] is a [string]; the text functions work on its characters
      ([list ascii]).  Titles are modelled as ASCII text: the character classes
      below are those of [str.lower], [str.strip] and of [re]'s [\w], [\s] and
      [\b] on code points below 128.  Codes 128..255 of [ascii] are in no
      class, so text with characters outside ASCII is outside the model: a
      property that depends on the class of a character is stated for
      [ascii_text] or for titles spelled with ASCII words.
    - A field the source reads with [.get] is an [option]: the key is absent
      or holds a value of the type the provider documents (a string, a
      list).  A JSON [null] in such a field is not modelled.
    - Every answer of the outside world (news providers, the model, the
      backend, the search engines, the clock) is a field of [Env]; the files
      the program owns and the requests it has sent are fields of [World],
      threaded through the stages. *)

From Stdlib Require Import Ascii String List ZArith Lia Bool.
From stdpp Require Import gmap strings list sorting.
Import ListNotations.

Local Open Scope char_scope.

(** ** Characters and the regular expressions of the source *)

Module Text.

Definition code (c : ascii) : N := N_of_ascii c.

Definition between (lo hi : N) (c : ascii) : bool :=
  ((lo <=? code c) && (code c <=? hi))%N.

Definition is_upper (c : ascii) : bool := between 65 90 c.
Definition is_lower (c : ascii) : bool := between 97 122 c.
Definition is_digit (c : ascii) : bool := between 48 57 c.
Definition is_alnum (c : ascii) : bool := is_upper c || is_lower c || is_digit c.

(** [\w]: letters, digits and the underscore. *)
Definition is_word (c : ascii) : bool := is_alnum c || Ascii.eqb c "_".

(** [\s], and what [str.strip()] removes: TAB, LF, VT, FF, CR, the four
    separators 0x1c..0x1f and the space. *)
Definition is_space (c : ascii) : bool :=
  between 9 13 c || between 28 31 c || Ascii.eqb c " ".

Definition is_hyphen (c : ascii) : bool := Ascii.eqb c "-".

Definition lower_char (c : ascii) : ascii :=
  if is_upper c then ascii_of_N (code c + 32) else c.

(** [s.lower()] *)
Definition lower (s : list ascii) : list ascii := map lower_char s.

Fixpoint lstrip (s : list ascii) : list ascii :=
  match s with
  | c :: r => if is_space c then lstrip r else s
  | [] => []
  end.

Definition rstrip (s : list ascii) : list ascii := rev (lstrip (rev s)).

(** [s.strip()] *)
Definition strip (s : list ascii) : list ascii := rstrip (lstrip s).

(** [re.sub(r"[^\w\s-]", "", s)] *)
Definition keep_slug_char (c : ascii) : bool :=
  is_word c || is_space c || is_hyphen c.

Definition sub_non_slug (s : list ascii) : list ascii := filter keep_slug_char s.

(** [re.sub(r"[\s_-]+", "-", s)]: every maximal run of separators becomes
    one hyphen.  [in_run] says that the previous character was a separator. *)
Definition is_sep (c : ascii) : bool :=
  is_space c || Ascii.eqb c "_" || is_hyphen c.

Fixpoint sub_seps_from (in_run : bool) (s : list ascii) : list ascii :=
  match s with
  | [] => []
  | c :: r =>
      if is_sep c
      then (if in_run then sub_seps_from true r else "-" :: sub_seps_from true r)
      else c :: sub_seps_from false r
  end.

Definition sub_seps (s : list ascii) : list ascii := sub_seps_from false s.

(** [re.sub(r"^-+|-+$", "", s)].  [^-+] can only match at position 0;
    [-+$] matches a run of hyphens that reaches [$], which is the end of the
    string or the position before a final line feed. *)
Fixpoint skip_hyphens (s : list ascii) : list ascii :=
  match s with
  | c :: r => if is_hyphen c then skip_hyphens r else s
  | [] => []
  end.

Definition at_dollar (s : list ascii) : bool :=
  match s with
  | [] => true
  | [c] => Ascii.eqb c "010"
  | _ => false
  end.

Fixpoint sub_trailing_hyphens (s : list ascii) : list ascii :=
  match s with
  | [] => []
  | c :: r =>
      if is_hyphen c && at_dollar (skip_hyphens r)
      then skip_hyphens r
      else c :: sub_trailing_hyphens r
  end.

Definition sub_edge_hyphens (s : list ascii) : list ascii :=
  sub_trailing_hyphens (skip_hyphens s).

End Text.

(** ** generator.py: slugify *)

Definition chars (s : string) : list ascii := list_ascii_of_string s.
Definition str (l : list ascii) : string := string_of_list_ascii l.

(** The slug before the final [text[:80]]. *)
Definition slugify_uncut (text : list ascii) : list ascii :=
  let text := Text.strip (Text.lower text) in
  let text := Text.sub_non_slug text in
  let text := Text.sub_seps text in
  Text.sub_edge_hyphens text.

Definition slugify (text : string) : string :=
  str (take 80 (slugify_uncut (chars text))).

(** ** More of the [str] and [re] operations the source uses *)

Module Str.

Import Text.

Local Open Scope string_scope.

(** A value is truthy when it is present and not empty ([if x:], [x or y]). *)
Definition truthy (o : option string) : bool :=
  match o with
  | Some s => negb (String.eqb s "")
  | None => false
  end.

(** [d.get(k, default)] on an optional field. *)
Definition get (o : option string) (default : string) : string :=
  from_option id default o.

Fixpoint is_prefix (p s : list ascii) : bool :=
  match p, s with
  | [], _ => true
  | a :: p', b :: s' => Ascii.eqb a b && is_prefix p' s'
  | _ :: _, [] => false
  end.

(** [needle in hay] on lists of characters. *)
Fixpoint contains_chars (needle hay : list ascii) : bool :=
  is_prefix needle hay ||
  match hay with
  | [] => false
  | _ :: hay' => contains_chars needle hay'
  end.

(** [needle in hay] *)
Definition contains (needle hay : string) : bool :=
  contains_chars (chars needle) (chars hay).

(** [s.rstrip("/")] *)
Fixpoint lstrip_slash (s : list ascii) : list ascii :=
  match s with
  | c :: r => if Ascii.eqb c "/" then lstrip_slash r else s
  | [] => []
  end.

Definition rstrip_slash (s : string) : string :=
  str (rev (lstrip_slash (rev (chars s)))).

(** [s[:n]] *)
Definition slice_to (n : nat) (s : string) : string := str (take n (chars s)).

(** [re.sub(r"\s+", " ", s)] *)
Fixpoint sub_spaces_from (in_run : bool) (s : list ascii) : list ascii :=
  match s with
  | [] => []
  | c :: r =>
      if is_space c
      then (if in_run then sub_spaces_from true r
            else " "%char :: sub_spaces_from true r)
      else c :: sub_spaces_from false r
  end.

Definition sub_spaces (s : list ascii) : list ascii := sub_spaces_from false s.

(** [re.sub(r"<[^>]+>", "", s)]: a tag is [<], one or more characters other
    than [>], and [>].  [closes s] says that [s] holds a [>]. *)
Definition is_gt (c : ascii) : bool := Ascii.eqb c ">".

Fixpoint closes (s : list ascii) : bool :=
  match s with
  | [] => false
  | c :: r => is_gt c || closes r
  end.

Definition opens_tag (s : list ascii) : bool :=
  match s with
  | c :: x :: r => Ascii.eqb c "<" && negb (is_gt x) && closes r
  | _ => false
  end.

Fixpoint sub_tags_from (in_tag : bool) (s : list ascii) : list ascii :=
  match s with
  | [] => []
  | c :: r =>
      if in_tag then sub_tags_from (negb (is_gt c)) r
      else if opens_tag s then sub_tags_from true r
      else c :: sub_tags_from false r
  end.

Definition sub_tags (s : list ascii) : list ascii := sub_tags_from false s.

(** [\b] between two neighbouring positions; the ends of the string count as
    non-word characters. *)
Definition word_at (o : option ascii) : bool :=
  match o with
  | Some c => is_word c
  | None => false
  end.

Definition boundary (prev next : option ascii) : bool :=
  xorb (word_at prev) (word_at next).

Definition stop_words : list string :=
  ["the"; "a"; "an"; "is"; "in"; "of"; "for"; "to"; "and"; "or"; "on"; "at";
   "with"].

(** The first alternative of [\b(the|a|...|with)\b] that matches at the head
    of [s], as the number of characters it takes. *)
Definition stop_word_at (prev : option ascii) (s : list ascii) : option nat :=
  if boundary prev (head s) then
    length <$>
      find (fun w => is_prefix w s &&
                     boundary (last w) (head (drop (length w) s)))
           (map chars stop_words)
  else None.

(** [re.sub(r"\b(the|a|an|is|in|of|for|to|and|or|on|at|with)\b", "", s)];
    [skip] counts the characters of the current match still to be dropped. *)
Fixpoint sub_stop_words_from (prev : option ascii) (skip : nat)
    (s : list ascii) : list ascii :=
  match s with
  | [] => []
  | c :: r =>
      match skip with
      | S k => sub_stop_words_from (Some c) k r
      | O =>
          match stop_word_at prev s with
          | Some n => sub_stop_words_from (Some c) (pred n) r
          | None => c :: sub_stop_words_from (Some c) 0 r
          end
      end
  end.

Definition sub_stop_words (s : list ascii) : list ascii :=
  sub_stop_words_from None 0 s.

End Str.

(** ** config.py *)

Local Open Scope string_scope.

Record Config := {
  site_base_url : string;
  api_base_url : string;
  login_endpoint : string;
  posts_endpoint : string;
  groq_api_key : string;
  newsapi_api_key : string;
  topics : list string;
  max_articles_per_topic : nat;
  rss_feeds : list string;
  rss_max_articles : nat;
  include_sources : bool;
  default_tags : list string
}.

(** [CONFIG], with the environment variables it reads through [os.getenv]. *)
Definition CONFIG (getenv : string -> option string) : Config := {|
  site_base_url := "https://saurabhjha.co.in";
  api_base_url :=
    Str.get (getenv "API_BASE_URL") "https://your-backend.onrender.com";
  login_endpoint := "/api/admin/login";
  posts_endpoint := "/api/posts";
  groq_api_key := Str.get (getenv "GROQ_API_KEY") "YOUR_GROQ_API_KEY_HERE";
  newsapi_api_key := Str.get (getenv "NEWSAPI_KEY") "YOUR_NEWSAPI_KEY_HERE";
  topics :=
    ["artificial intelligence"; "machine learning"; "tech automation";
     "science technology"; "robotics"; "generative AI"];
  max_articles_per_topic := 5;
  rss_feeds :=
    ["https://feeds.feedburner.com/TechCrunch";
     "https://www.wired.com/feed/rss";
     "https://feeds.arstechnica.com/arstechnica/technology-lab";
     "https://rss.cnn.com/rss/cnn_tech.rss";
     "https://www.theverge.com/rss/index.xml";
     "https://feeds.feedburner.com/venturebeat/SZYF";
     "https://www.sciencedaily.com/rss/computers_math/artificial_intelligence.xml"];
  rss_max_articles := 5;
  include_sources := true;
  default_tags := ["AI"; "Technology"; "Automation"; "Tech News"]
|}.

(** ** Dates and times, as [datetime] has them (UTC) *)

Module Clock.

Local Open Scope Z_scope.

Record datetime := {
  year : Z; month : Z; day : Z;
  hour : Z; minute : Z; second : Z; microsecond : Z
}.

(** [time.struct_time], of which the source reads the first six fields. *)
Record struct_time := {
  tm_year : Z; tm_mon : Z; tm_mday : Z;
  tm_hour : Z; tm_min : Z; tm_sec : Z
}.

(** The [datetime] built from the first six fields of [t], with
    [tzinfo=timezone.utc]. *)
Definition of_struct_time (t : struct_time) : datetime := {|
  year := tm_year t; month := tm_mon t; day := tm_mday t;
  hour := tm_hour t; minute := tm_min t; second := tm_sec t;
  microsecond := 0
|}.

Definition fields (d : datetime) : list Z :=
  [year d; month d; day d; hour d; minute d; second d; microsecond d].

Fixpoint lex_ltb (a b : list Z) : bool :=
  match a, b with
  | x :: a', y :: b' => (x <? y) || ((x =? y) && lex_ltb a' b')
  | _, _ => false
  end.

(** [a < b] on two datetimes of the same time zone. *)
Definition ltb (a b : datetime) : bool := lex_ltb (fields a) (fields b).

Definition is_leap (y : Z) : bool :=
  (y mod 4 =? 0) && (negb (y mod 100 =? 0) || (y mod 400 =? 0)).

Definition days_in_month (y m : Z) : Z :=
  if m =? 2 then (if is_leap y then 29 else 28)
  else if (m =? 4) || (m =? 6) || (m =? 9) || (m =? 11) then 30
  else 31.

(** [d - timedelta(days=1)] *)
Definition minus_one_day (d : datetime) : datetime :=
  let '(y, m, dd) :=
    if 1 <? day d then (year d, month d, day d - 1)
    else if 1 <? month d
         then (year d, month d - 1, days_in_month (year d) (month d - 1))
         else (year d - 1, 12, 31) in
  {| year := y; month := m; day := dd;
     hour := hour d; minute := minute d; second := second d;
     microsecond := microsecond d |}.

Definition digit (n : Z) : ascii := ascii_of_N (Z.to_N (48 + n mod 10)).

(** [n] in decimal on [width] digits, zero-padded ([%02d], [%04d]). *)
Fixpoint pad (width : nat) (n : Z) : list ascii :=
  match width with
  | O => []
  | S w => pad w (n / 10) ++ [digit n]
  end.

(** [d.strftime("%Y-%m-%d")] *)
Definition date_chars (d : datetime) : list ascii :=
  pad 4 (year d) ++ chars "-" ++ pad 2 (month d) ++ chars "-" ++ pad 2 (day d).

Definition strftime_date (d : datetime) : string := str (date_chars d).

Definition time_chars (d : datetime) : list ascii :=
  pad 2 (hour d) ++ chars ":" ++ pad 2 (minute d) ++ chars ":" ++
  pad 2 (second d) ++
  (if microsecond d =? 0 then [] else chars "." ++ pad 6 (microsecond d)).

(** [d.isoformat()]; [utc] says whether [d] carries [tzinfo=timezone.utc]. *)
Definition isoformat (utc : bool) (d : datetime) : string :=
  str (date_chars d ++ chars "T" ++ time_chars d ++
       (if utc then chars "+00:00" else [])).

End Clock.

(** ** fetcher.py *)

Module Fetcher.

(** The Article Record. *)
Record Article := {
  title : string;
  summary : string;
  url : string;
  source : string;
  published : string;
  content : string;
  from : string
}.

(** One element of NewsAPI's ["articles"]; the fields the source reads with
    [.get] may be absent. *)
Record NewsItem := {
  item_title : option string;
  item_description : option string;
  item_url : string;
  item_source_name : string;
  item_publishedAt : option string;
  item_content : option string
}.

(** What one NewsAPI request gives: an exception (transport, timeout, a body
    that is not JSON), or the decoded body. *)
Inductive NewsReply :=
| NewsRaised
| NewsJson (status : option string) (articles : list NewsItem).

Definition newsapi_article (art : NewsItem) : option Article :=
  if Str.truthy (item_title art) && Str.truthy (item_description art) then
    Some {| title := Str.get (item_title art) "";
            summary := Str.get (item_description art) "";
            url := item_url art;
            source := item_source_name art;
            published := Str.get (item_publishedAt art) "";
            content := if Str.truthy (item_content art)
                       then Str.get (item_content art) ""
                       else Str.get (item_description art) "";
            from := "newsapi" |}
  else None.

Definition fetch_from_newsapi (cfg : Config) (get : string -> NewsReply)
    : list Article :=
  if Str.contains "YOUR_" (newsapi_api_key cfg) then []
  else
    flat_map
      (fun topic =>
         match get topic with
         | NewsRaised => []
         | NewsJson status articles =>
             if decide (status = Some "ok")
             then omap newsapi_article articles
             else []
         end)
      (topics cfg).

(** An entry of a parsed feed, and the feed. *)
Record FeedEntry := {
  published_parsed : option Clock.struct_time;
  entry_title : option string;
  entry_summary : option string;
  entry_description : option string;
  entry_link : option string
}.

Record Feed := {
  feed_title : option string;
  entries : list FeedEntry
}.

Inductive FeedReply :=
| FeedRaised
| Parsed (feed : Feed).

(** The body of the loop over [feed.entries[:max_per_feed]]: [None] where the
    source [continue]s or appends nothing. *)
Definition rss_article (cutoff : Clock.datetime) (feed_url : string)
    (feed : Feed) (entry : FeedEntry) : option Article :=
  let pub := Clock.of_struct_time <$> published_parsed entry in
  if from_option (fun p => Clock.ltb p cutoff) false pub then None
  else
    let title := str (Text.strip (chars (Str.get (entry_title entry) ""))) in
    let summary :=
      if Str.truthy (entry_summary entry)
      then Str.get (entry_summary entry) ""
      else Str.get (entry_description entry) "" in
    let summary := str (Text.strip (Str.sub_tags (chars summary))) in
    if negb (String.eqb title "") && negb (String.eqb summary "") then
      Some {| title := title;
              summary := Str.slice_to 500 summary;
              url := Str.get (entry_link entry) "";
              source := Str.get (feed_title feed) feed_url;
              published := from_option (Clock.isoformat true) "" pub;
              content := summary;
              from := "rss" |}
    else None.

Definition fetch_from_rss (cfg : Config) (now : Clock.datetime)
    (parse : string -> FeedReply) : list Article :=
  let max_per_feed := rss_max_articles cfg in
  let cutoff := Clock.minus_one_day now in
  flat_map
    (fun feed_url =>
       match parse feed_url with
       | FeedRaised => []
       | Parsed feed =>
           omap (rss_article cutoff feed_url feed)
                (take max_per_feed (entries feed))
       end)
    (rss_feeds cfg).

(** The normalized key of [deduplicate]. *)
Definition dedup_key (art : Article) : string :=
  let key := take 60 (Text.strip (Text.lower (chars (title art)))) in
  let key := Str.sub_stop_words key in
  str (Text.strip (Str.sub_spaces key)).

Fixpoint deduplicate_from (seen_titles : gset string) (articles : list Article)
    : list Article :=
  match articles with
  | [] => []
  | art :: rest =>
      let key := dedup_key art in
      if decide (key ∈ seen_titles)
      then deduplicate_from seen_titles rest
      else art :: deduplicate_from ({[key]} ∪ seen_titles) rest
  end.

Definition deduplicate (articles : list Article) : list Article :=
  deduplicate_from ∅ articles.

Definition keywords : list string :=
  ["ai"; "artificial intelligence"; "machine learning"; "deep learning";
   "robot"; "automation"; "tech"; "technology"; "science"; "software";
   "hardware"; "cloud"; "data"; "algorithm"; "neural"; "gpt"; "llm";
   "chip"; "semiconductor"; "quantum"; "cybersecurity"; "space"; "biotech";
   "startup"; "innovation"; "research"; "computing"; "model"; "openai";
   "google"; "microsoft"; "meta"; "nvidia"; "apple"; "tesla"].

Definition is_relevant (art : Article) : bool :=
  let text := str (Text.lower (chars (title art ++ " " ++ summary art))) in
  existsb (fun kw => Str.contains kw text) keywords.

Definition filter_relevant (articles : list Article) : list Article :=
  filter (fun art => is_relevant art = true) articles.

(** [all_articles.sort(key=lambda x: x.get("published", ""), reverse=True)]:
    a stable sort, largest key first; records with equal keys keep their
    order. *)
Fixpoint insert_newest (x : Article) (sorted : list Article) : list Article :=
  match sorted with
  | [] => [x]
  | y :: rest =>
      if String.ltb (published x) (published y)
      then y :: insert_newest x rest
      else x :: sorted
  end.

Definition sort_newest_first (articles : list Article) : list Article :=
  foldr insert_newest [] articles.

Definition fetch_news (cfg : Config) (now : Clock.datetime)
    (get : string -> NewsReply) (parse : string -> FeedReply) : list Article :=
  let newsapi_articles := fetch_from_newsapi cfg get in
  let rss_articles := fetch_from_rss cfg now parse in
  let all_articles := (newsapi_articles ++ rss_articles)%list in
  let all_articles := deduplicate all_articles in
  let all_articles := filter_relevant all_articles in
  take 20 (sort_newest_first all_articles).

End Fetcher.

(** ** The Generated Post *)

Module Post.

(** The metadata block, a dict of which every key may be absent. *)
Record Meta := {
  date : option string;
  reading_time : option Z;
  meta_keywords : option string;
  canonical_url : option string
}.

(** The empty dict [{}]. *)
Definition no_meta : Meta := {|
  date := None; reading_time := None; meta_keywords := None;
  canonical_url := None
|}.

(** The dict [generate_article] builds: the PostSchema fields, and the
    ["_meta"] key, which [publish_article] pops and may put back. *)
Record Post := {
  title : string;
  slug : string;
  content : string;
  excerpt : string;
  featuredImage : string;
  status : string;
  author : string;
  tags : list string;
  _meta : option Meta
}.

(** [article.pop("_meta", {})], the dict that is left. *)
Definition pop_meta (article : Post) : Post := {|
  title := title article; slug := slug article; content := content article;
  excerpt := excerpt article; featuredImage := featuredImage article;
  status := status article; author := author article; tags := tags article;
  _meta := None
|}.

(** [article["_meta"] = meta] *)
Definition set_meta (article : Post) (meta : Meta) : Post := {|
  title := title article; slug := slug article; content := content article;
  excerpt := excerpt article; featuredImage := featuredImage article;
  status := status article; author := author article; tags := tags article;
  _meta := Some meta
|}.

End Post.

(** ** The world of one process *)

(** A request sent over the network, with what of its payload the
    properties below speak about. *)
Inductive Request :=
| GetNewsAPI (topic : string)
| ParseFeed (feed_url : string)
| PostGroq (prompt : list Fetcher.Article)
| PostLogin (login_url : string)
| PostCreate (post_url : string) (token : string) (json : Post.Post)
| GetPosts (page : nat)
| PostIndexNow (url : string) (key : string)
| GetGooglePing (sitemap_url : string)
| GetBingPing (sitemap_url : string).

(** The files the program reads and writes, the module-level token cache of
    publisher.py, and the requests sent so far (oldest first).  Local files
    are read and written without failure. *)
Record World := {
  published_json : option (list string);     (* data/published.json *)
  output_json : gmap string Post.Post;       (* output/<slug>.json *)
  sitemap_xml : option string;               (* output/sitemap.xml *)
  indexnow_key_txt : option string;          (* data/indexnow_key.txt *)
  _cached_token : option string;
  sent : list Request
}.

Definition send (r : Request) (w : World) : World := {|
  published_json := published_json w; output_json := output_json w;
  sitemap_xml := sitemap_xml w; indexnow_key_txt := indexnow_key_txt w;
  _cached_token := _cached_token w;
  sent := sent w ++ [r]
|}.

Definition set_published_json (l : list string) (w : World) : World := {|
  published_json := Some l; output_json := output_json w;
  sitemap_xml := sitemap_xml w; indexnow_key_txt := indexnow_key_txt w;
  _cached_token := _cached_token w; sent := sent w
|}.

Definition set_output_json (slug : string) (p : Post.Post) (w : World)
    : World := {|
  published_json := published_json w;
  output_json := <[slug := p]> (output_json w);
  sitemap_xml := sitemap_xml w; indexnow_key_txt := indexnow_key_txt w;
  _cached_token := _cached_token w; sent := sent w
|}.

Definition set_sitemap_xml (xml : string) (w : World) : World := {|
  published_json := published_json w; output_json := output_json w;
  sitemap_xml := Some xml; indexnow_key_txt := indexnow_key_txt w;
  _cached_token := _cached_token w; sent := sent w
|}.

Definition set_indexnow_key_txt (key : string) (w : World) : World := {|
  published_json := published_json w; output_json := output_json w;
  sitemap_xml := sitemap_xml w; indexnow_key_txt := Some key;
  _cached_token := _cached_token w; sent := sent w
|}.

Definition set_cached_token (token : string) (w : World) : World := {|
  published_json := published_json w; output_json := output_json w;
  sitemap_xml := sitemap_xml w; indexnow_key_txt := indexnow_key_txt w;
  _cached_token := Some token; sent := sent w
|}.

(** What an HTTP request gives: one of the exceptions of [requests], or a
    response with its status code and body. *)
Inductive Reply (Body : Type) :=
| ConnectionError
| Timeout
| OtherError
| Http (status_code : Z) (body : Body).

Arguments ConnectionError {Body}.
Arguments Timeout {Body}.
Arguments OtherError {Body}.
Arguments Http {Body} status_code body.

(** [resp.json()]: [None] when the body is not JSON of the expected shape
    (the call raises). *)
Definition Json (A : Type) : Type := option A.

(** ** generator.py *)

Module Generator.

Import Post.

(** A [{name, url}] pair of the model's ["sources"]. *)
Record Source := {
  name : string;
  url : string
}.

(** The JSON object the model returns, decoded; every key may be absent. *)
Record ModelData := {
  data_title : option string;
  data_content : option string;
  data_excerpt : option string;
  data_meta_keywords : option string;
  data_tags : option (list string);
  data_reading_time : option Z;
  data_sources : option (list Source)
}.

(** The generative-text service for one run: the text of its answer ([None]
    on a timeout, an HTTP error or any other exception), and [json.loads]
    ([None] where it raises [JSONDecodeError]). *)
Record Groq := {
  groq_answer : option string;
  json_loads : string -> option ModelData
}.

Definition nl : string := String "010"%char "".
Definition dq : string := String "034"%char "".

(** The articles [build_prompt] embeds in the prompt, each with its summary
    cut to 300 characters. *)
Definition build_prompt (articles : list Fetcher.Article)
    : list Fetcher.Article :=
  map (fun art =>
         {| Fetcher.title := Fetcher.title art;
            Fetcher.summary := Str.slice_to 300 (Fetcher.summary art);
            Fetcher.url := Fetcher.url art;
            Fetcher.source := Fetcher.source art;
            Fetcher.published := Fetcher.published art;
            Fetcher.content := Fetcher.content art;
            Fetcher.from := Fetcher.from art |})
      (take 15 articles).

Definition call_groq (cfg : Config) (groq : Groq)
    (prompt : list Fetcher.Article) (w : World) : option string * World :=
  if Str.contains "YOUR_" (groq_api_key cfg) then (None, w)
  else (groq_answer groq, send (PostGroq prompt) w).

(** [re.sub(r"^```json\s*", "", s)] and [re.sub(r"^```\s*", "", s)] *)
Definition sub_leading_fence (fence : string) (s : list ascii) : list ascii :=
  if Str.is_prefix (chars fence) s
  then Text.lstrip (drop (length (chars fence)) s)
  else s.

(** [re.sub(r"\s*```$", "", s)], read from the end of [s]: [$] is the end of
    the string or the position before a final line feed. *)
Definition sub_trailing_fence (s : list ascii) : list ascii :=
  let cut (r : list ascii) : option (list ascii) :=
    if Str.is_prefix (chars "```") r
    then Some (Text.lstrip (drop 3 r)) else None in
  match rev s with
  | c :: r =>
      match cut (c :: r) with
      | Some r' => rev r'
      | None =>
          if Ascii.eqb c "010"
          then match cut r with
               | Some r' => (rev r' ++ [c])%list
               | None => s
               end
          else s
      end
  | [] => []
  end.

Definition strip_fences (raw : string) : string :=
  let raw := sub_leading_fence "```json" (Text.strip (chars raw)) in
  let raw := sub_leading_fence "```" raw in
  let raw := sub_trailing_fence raw in
  str (Text.strip raw).

(** The loop over [articles[:8]]: the fetched articles appended to
    [sources]. *)
Fixpoint fetched_sources (seen : gset string) (articles : list Fetcher.Article)
    : list Source :=
  match articles with
  | [] => []
  | art :: rest =>
      let u := Fetcher.url art in
      if negb (String.eqb u "") && bool_decide (u ∉ seen)
      then {| name := Fetcher.source art; url := u |}
           :: fetched_sources ({[u]} ∪ seen) rest
      else fetched_sources seen rest
  end.

(** [sources] after the loop. *)
Definition all_sources (sources : list Source)
    (articles : list Fetcher.Article) : list Source :=
  let seen : gset string := list_to_set (map url sources) in
  (sources ++ fetched_sources seen (take 8 articles))%list.

(** The sources the section lists: [for s in sources if s.get("url")]. *)
Definition listed_sources (sources : list Source)
    (articles : list Fetcher.Article) : list Source :=
  filter (fun s => url s ≠ "") (all_sources sources articles).

Definition source_item (s : Source) : string :=
  "<li><a href=" ++ dq ++ url s ++ dq ++ " target=" ++ dq ++ "_blank" ++ dq ++
  " rel=" ++ dq ++ "noopener noreferrer" ++ dq ++ ">" ++ name s ++ "</a></li>".

(** [sep.join(items)] *)
Fixpoint join (sep : string) (items : list string) : string :=
  match items with
  | [] => ""
  | [x] => x
  | x :: rest => x ++ sep ++ join sep rest
  end.

Definition sources_section (listed : list Source) : string :=
  nl ++ "<hr/>" ++ nl ++ "<h3>📰 Sources &amp; References</h3>" ++ nl ++
  "<ul>" ++ nl ++ join nl (map source_item listed) ++ nl ++ "</ul>".

(** [data["content"]] after the sources block. *)
Definition content_with_sources (cfg : Config) (content : string)
    (sources : list Source) (articles : list Fetcher.Article) : string :=
  if include_sources cfg && negb (bool_decide (sources = []))
  then content ++ sources_section (listed_sources sources articles)
  else content.

(** [list(dict.fromkeys(l))]: the first occurrence of each element, in
    order. *)
Fixpoint fromkeys (l : list string) : list string :=
  match l with
  | [] => []
  | x :: rest => x :: filter (fun y => y ≠ x) (fromkeys rest)
  end.

Definition generate_article (cfg : Config) (now : Clock.datetime)
    (groq : Groq) (articles : list Fetcher.Article) (w : World)
    : option Post * World :=
  let prompt := build_prompt articles in
  let '(raw, w) := call_groq cfg groq prompt w in
  if negb (Str.truthy raw) then (None, w)
  else
    match json_loads groq (strip_fences (Str.get raw "")) with
    | None => (None, w)
    | Some data =>
        if forallb Str.truthy
             [data_title data; data_content data; data_excerpt data]
        then
          let sources := from_option id [] (data_sources data) in
          let content :=
            content_with_sources cfg (Str.get (data_content data) "")
              sources articles in
          let today := Clock.strftime_date now in
          let slug := slugify (Str.get (data_title data) "") in
          let tags := from_option id (default_tags cfg) (data_tags data) in
          let merged_tags := fromkeys (default_tags cfg ++ tags) in
          (Some {| title := Str.get (data_title data) "";
                   slug := slug;
                   content := content;
                   excerpt := Str.slice_to 300 (Str.get (data_excerpt data) "");
                   featuredImage := "";
                   status := "published";
                   author := "TechNews Bot";
                   tags := merged_tags;
                   _meta := Some {|
                     date := Some today;
                     reading_time :=
                       Some (from_option id 5%Z (data_reading_time data));
                     meta_keywords :=
                       Some (Str.get (data_meta_keywords data) "");
                     canonical_url :=
                       Some (site_base_url cfg ++ "/blog/" ++ slug) |} |}, w)
        else (None, w)
    end.

End Generator.

(** ** publisher.py *)

Module Publisher.

Import Post.

(** The backend's answers to the login and to the creation request.  The
    body of a login is its ["token"], the body of a creation its post id. *)
Record Backend := {
  login_reply : Reply (Json (option string));
  create_reply : Reply (Json (option string))
}.

Definition get_jwt_token (cfg : Config) (backend : Backend) (w : World)
    : option string * World :=
  if Str.truthy (_cached_token w) then (_cached_token w, w)
  else
    let login_url := Str.rstrip_slash (api_base_url cfg) ++ login_endpoint cfg in
    let w := send (PostLogin login_url) w in
    match login_reply backend with
    | Http status_code body =>
        if (status_code =? 200)%Z then
          match body with
          | Some token =>
              if Str.truthy token
              then (token, set_cached_token (Str.get token "") w)
              else (None, w)
          | None => (None, w)
          end
        else (None, w)
    | ConnectionError | Timeout | OtherError => (None, w)
    end.

(** [backup = {**article, "_meta": meta}], written to [output/<slug>.json]. *)
Definition _save_local_backup (article : Post) (meta : Meta) (slug : string)
    (w : World) : World :=
  set_output_json slug (set_meta article meta) w.

(** The canonical URL or [None], the caller's dict after the call, and the
    world after the call. *)
Definition publish_article (cfg : Config) (backend : Backend)
    (article : Post) (w : World) : option string * Post * World :=
  let '(token, w) := get_jwt_token cfg backend w in
  match token with
  | None => (None, article, w)
  | Some token =>
      let meta := from_option id no_meta (_meta article) in
      let article := pop_meta article in
      let post_url := Str.rstrip_slash (api_base_url cfg) ++ posts_endpoint cfg in
      let slug := slug article in
      let canonical :=
        Str.get (canonical_url meta) (site_base_url cfg ++ "/blog/" ++ slug) in
      let w := send (PostCreate post_url token article) w in
      match create_reply backend with
      | Http status_code body =>
          if (status_code =? 201)%Z then
            match body with
            | Some post_id =>
                let w := _save_local_backup article meta slug w in
                (Some canonical, set_meta article meta, w)
            | None => (None, article, w)
            end
          else (None, article, w)
      | ConnectionError | Timeout | OtherError => (None, article, w)
      end
  end.

End Publisher.

(** ** sitemap.py *)

Module Sitemap.

(** A record of the backend's listing; [post["slug"]] raises when the key is
    absent. *)
Record PostItem := {
  item_slug : option string;
  item_updatedAt : option string
}.

Record Page := {
  posts : list PostItem;
  totalPages : option nat
}.

(** An element of [slugs]. *)
Record Entry := {
  slug : string;
  updated : string
}.

(** The loop over the posts of one page: the entries appended, and whether
    the loop raised. *)
Fixpoint page_entries (now : Clock.datetime) (posts : list PostItem)
    : list Entry * bool :=
  match posts with
  | [] => ([], false)
  | post :: rest =>
      match item_slug post with
      | None => ([], true)
      | Some s =>
          let '(entries, raised) := page_entries now rest in
          ({| slug := s;
              updated := Str.slice_to 10
                (Str.get (item_updatedAt post) (Clock.isoformat false now)) |}
           :: entries, raised)
      end
  end.

(** The [while True] loop of [fetch_all_slugs].  [listing] holds the
    backend's answers to the successive requests; once they are used up the
    next request fails. *)
Fixpoint fetch_pages (now : Clock.datetime)
    (listing : list (Reply (Json Page))) (page : nat) (slugs : list Entry)
    (w : World) : list Entry * World :=
  let w := send (GetPosts page) w in
  match listing with
  | [] => (slugs, w)
  | Http status_code body :: later =>
      if negb (status_code =? 200)%Z then (slugs, w)
      else
        match body with
        | None => (slugs, w)
        | Some data =>
            if bool_decide (posts data = []) then (slugs, w)
            else
              let '(entries, raised) := page_entries now (posts data) in
              let slugs := (slugs ++ entries)%list in
              if raised then (slugs, w)
              else if (from_option id 1 (totalPages data) <=? page)%nat
              then (slugs, w)
              else fetch_pages now later (page + 1)%nat slugs w
        end
  | _ :: _ => (slugs, w)
  end.

Definition fetch_all_slugs (now : Clock.datetime)
    (listing : list (Reply (Json Page))) (w : World) : list Entry * World :=
  fetch_pages now listing 1 [] w.

(** A [<url>] element of the sitemap. *)
Record Url := {
  loc : string;
  lastmod : string;
  changefreq : string;
  priority : string
}.

Definition home_url (base_url today : string) : Url := {|
  loc := base_url ++ "/"; lastmod := today;
  changefreq := "daily"; priority := "1.0"
|}.

Definition post_url (base_url : string) (item : Entry) : Url := {|
  loc := base_url ++ "/blog/" ++ slug item; lastmod := updated item;
  changefreq := "monthly"; priority := "0.8"
|}.

(** [slugs] after the forced insertion of [new_slug]. *)
Definition with_new_slug (new_slug : option string) (today : string)
    (slugs : list Entry) : list Entry :=
  if Str.truthy new_slug &&
     negb (existsb (fun s => String.eqb (slug s) (Str.get new_slug "")) slugs)
  then {| slug := Str.get new_slug ""; updated := today |} :: slugs
  else slugs.

(** The [<url>] elements of the document, in order. *)
Definition sitemap_urls (base_url today : string) (slugs : list Entry)
    : list Url :=
  home_url base_url today :: map (post_url base_url) slugs.

Definition url_xml (u : Url) : string :=
  "  <url>" ++ Generator.nl ++
  "    <loc>" ++ loc u ++ "</loc>" ++ Generator.nl ++
  "    <lastmod>" ++ lastmod u ++ "</lastmod>" ++ Generator.nl ++
  "    <changefreq>" ++ changefreq u ++ "</changefreq>" ++ Generator.nl ++
  "    <priority>" ++ priority u ++ "</priority>" ++ Generator.nl ++
  "  </url>" ++ Generator.nl.

Definition sitemap_document (urls : list Url) : string :=
  let dq := Generator.dq in
  "<?xml version=" ++ dq ++ "1.0" ++ dq ++ " encoding=" ++ dq ++ "UTF-8" ++
  dq ++ "?>" ++ Generator.nl ++
  "<urlset xmlns=" ++ dq ++ "http://www.sitemaps.org/schemas/sitemap/0.9" ++
  dq ++ ">" ++ Generator.nl ++
  Generator.join "" (map url_xml urls) ++ "</urlset>".

Definition generate_sitemap (cfg : Config) (now : Clock.datetime)
    (listing : list (Reply (Json Page))) (new_slug : option string)
    (w : World) : string * World :=
  let base_url := Str.rstrip_slash (site_base_url cfg) in
  let today := Clock.strftime_date now in
  let '(slugs, w) := fetch_all_slugs now listing w in
  let slugs := with_new_slug new_slug today slugs in
  let xml := sitemap_document (sitemap_urls base_url today slugs) in
  ("output/sitemap.xml", set_sitemap_xml xml w).

End Sitemap.

(** ** indexer.py *)

Module Indexer.

(** The search engines' answers, and the two [uuid.uuid4().hex] values a new
    key is made of. *)
Record Engines := {
  uuid4_hex_1 : string;
  uuid4_hex_2 : string;
  indexnow_reply : Reply unit;
  google_reply : Reply unit;
  bing_reply : Reply unit
}.

Definition get_or_create_indexnow_key (engines : Engines) (w : World)
    : string * World :=
  let stored :=
    (fun text => str (Text.strip (chars text))) <$> indexnow_key_txt w in
  if Str.truthy stored then (Str.get stored "", w)
  else
    let key := uuid4_hex_1 engines ++ Str.slice_to 8 (uuid4_hex_2 engines) in
    (key, set_indexnow_key_txt key w).

Definition submit_indexnow (cfg : Config) (engines : Engines) (url : string)
    (w : World) : bool * World :=
  let '(key, w) := get_or_create_indexnow_key engines w in
  let w := send (PostIndexNow url key) w in
  match indexnow_reply engines with
  | Http status_code _ =>
      if (status_code =? 200)%Z || (status_code =? 202)%Z then (true, w)
      else if (status_code =? 403)%Z then (false, w)
      else if (status_code =? 422)%Z then (false, w)
      else (false, w)
  | ConnectionError | Timeout | OtherError => (false, w)
  end.

Definition ping_google_sitemap (cfg : Config) (engines : Engines) (w : World)
    : bool * World :=
  let sitemap_url := Str.rstrip_slash (site_base_url cfg) ++ "/sitemap.xml" in
  let w := send (GetGooglePing sitemap_url) w in
  match google_reply engines with
  | Http status_code _ => ((status_code =? 200)%Z, w)
  | ConnectionError | Timeout | OtherError => (false, w)
  end.

Definition ping_bing_sitemap (cfg : Config) (engines : Engines) (w : World)
    : bool * World :=
  let sitemap_url := Str.rstrip_slash (site_base_url cfg) ++ "/sitemap.xml" in
  let w := send (GetBingPing sitemap_url) w in
  match bing_reply engines with
  | Http status_code _ => ((status_code =? 200)%Z, w)
  | ConnectionError | Timeout | OtherError => (false, w)
  end.

(** The [results] dict of [submit_to_google]. *)
Record Results := {
  indexnow : bool;
  google_ping : bool;
  bing_ping : bool
}.

Definition run_submissions (cfg : Config) (engines : Engines) (url : string)
    (w : World) : Results * World :=
  let '(r1, w) := submit_indexnow cfg engines url w in
  let '(r2, w) := ping_google_sitemap cfg engines w in
  let '(r3, w) := ping_bing_sitemap cfg engines w in
  ({| indexnow := r1; google_ping := r2; bing_ping := r3 |}, w).

(** [sum(results.values())] *)
Definition success_count (results : Results) : nat :=
  (Nat.b2n (indexnow results) + Nat.b2n (google_ping results) +
   Nat.b2n (bing_ping results))%nat.

Definition submit_to_google (cfg : Config) (engines : Engines) (url : string)
    (w : World) : bool * World :=
  let '(results, w) := run_submissions cfg engines url w in
  ((0 <? success_count results)%nat, w).

End Indexer.

(** ** main.py *)

Module Main.

(** Everything outside the process for one run. *)
Record Env := {
  cfg : Config;
  now : Clock.datetime;                       (* datetime.now() *)
  now_utc : Clock.datetime;                   (* datetime.now(timezone.utc) *)
  newsapi : string -> Fetcher.NewsReply;
  feedparser : string -> Fetcher.FeedReply;
  groq : Generator.Groq;
  backend : Publisher.Backend;
  listing : list (Reply (Json Sitemap.Page));
  engines : Indexer.Engines
}.

Definition load_published_slugs (w : World) : gset string :=
  match published_json w with
  | Some slugs => list_to_set slugs
  | None => ∅
  end.

Definition save_published_slug (slug : string) (w : World) : World :=
  let slugs := load_published_slugs w in
  let slugs := {[slug]} ∪ slugs in
  set_published_json (elements slugs) w.

(** The requests of [fetch_news], in order. *)
Definition fetch_requests (cfg : Config) : list Request :=
  ((if Str.contains "YOUR_" (newsapi_api_key cfg) then []
    else map GetNewsAPI (topics cfg)) ++
   map ParseFeed (rss_feeds cfg))%list.

Definition fetch_news (env : Env) (w : World)
    : list Fetcher.Article * World :=
  (Fetcher.fetch_news (cfg env) (now_utc env) (newsapi env) (feedparser env),
   foldl (fun w r => send r w) w (fetch_requests (cfg env))).

(** How a run ended: the [return] that was taken. *)
Inductive Outcome :=
| NoArticles
| GenerationFailed
| AlreadyPublished (slug : string)
| PublishingFailed
| AllDone (published_url : string).

Definition run (env : Env) (w : World) : Outcome * World :=
  let published := load_published_slugs w in
  let '(articles, w) := fetch_news env w in
  if bool_decide (articles = []) then (NoArticles, w)
  else
    let '(result, w) :=
      Generator.generate_article (cfg env) (now env) (groq env) articles w in
    match result with
    | None => (GenerationFailed, w)
    | Some result =>
        let slug := Post.slug result in
        if bool_decide (slug ∈ published) then (AlreadyPublished slug, w)
        else
          let '(published_url, result, w) :=
            Publisher.publish_article (cfg env) (backend env) result w in
          if negb (Str.truthy published_url) then (PublishingFailed, w)
          else
            let published_url := Str.get published_url "" in
            let w := save_published_slug slug w in
            let '(sitemap_path, w) :=
              Sitemap.generate_sitemap (cfg env) (now env) (listing env)
                (Some slug) w in
            let '(_, w) :=
              Indexer.submit_to_google (cfg env) (engines env) published_url w in
            (AllDone published_url, w)
    end.

End Main.

(** ** Vocabulary of the properties about slugs and articles *)

(** ASCII text: every character has a code below 128. *)
Definition ascii_text (s : string) : Prop :=
  Forall (fun c => (Text.code c < 128)%N) (chars s).

(** The characters of a slug: lowercase letters, digits and the hyphen. *)
Definition slug_char (c : ascii) : bool :=
  Text.is_lower c || Text.is_digit c || Text.is_hyphen c.

(** A well-formed slug: slug characters only, no hyphen in front, and every
    hyphen followed by a character that is not a hyphen. *)
Definition char_follows (s : list ascii) : bool :=
  match s with
  | d :: _ => negb (Text.is_hyphen d)
  | [] => false
  end.

Fixpoint sluggy (s : list ascii) : bool :=
  match s with
  | [] => true
  | c :: r =>
      slug_char c && (if Text.is_hyphen c then char_follows r else true) && sluggy r
  end.

Definition no_hyphen_in_front (s : list ascii) : bool :=
  match s with
  | c :: _ => negb (Text.is_hyphen c)
  | [] => true
  end.

Definition is_slug (s : list ascii) : bool := no_hyphen_in_front s && sluggy s.

(** After [sub_seps], a hyphen is followed by a character or by the end. *)
Fixpoint spaced (s : list ascii) : bool :=
  match s with
  | [] => true
  | c :: r =>
      slug_char c && (if Text.is_hyphen c then no_hyphen_in_front r else true) &&
      spaced r
  end.


(** [a] is at least as recent as [b], by their [published] strings. *)
Definition not_older (a b : Fetcher.Article) : Prop :=
  String.leb (Fetcher.published b) (Fetcher.published a) = true.

(** The title and the summary [fetch_from_rss] reads from a feed entry: the
    title trimmed, and the summary or, without one, the description, with
    its markup tags removed and trimmed. *)
Definition entry_title_text (entry : Fetcher.FeedEntry) : string :=
  str (Text.strip (chars (Str.get (Fetcher.entry_title entry) ""))).

Definition entry_summary_text (entry : Fetcher.FeedEntry) : string :=
  let summary :=
    if Str.truthy (Fetcher.entry_summary entry)
    then Str.get (Fetcher.entry_summary entry) ""
    else Str.get (Fetcher.entry_description entry) "" in
  str (Text.strip (Str.sub_tags (chars summary))).

(** The ranges [datetime] accepts, for a value without microseconds. *)
Definition whole_second (d : Clock.datetime) : Prop :=
  (1 <= Clock.year d <= 9999 /\ 1 <= Clock.month d <= 12 /\
   1 <= Clock.day d <= 31 /\ 0 <= Clock.hour d <= 23 /\
   0 <= Clock.minute d <= 59 /\ 0 <= Clock.second d <= 59 /\
   Clock.microsecond d = 0)%Z.

(** The order of Python on [str], on lists of characters. *)
Fixpoint compare_chars (a b : list ascii) : comparison :=
  match a, b with
  | [], [] => Eq
  | [], _ :: _ => Lt
  | _ :: _, [] => Gt
  | c1 :: a', c2 :: b' =>
      match Ascii.compare c1 c2 with
      | Eq => compare_chars a' b'
      | ne => ne
      end
  end.

Definition is_Lt (c : comparison) : bool :=
  match c with
  | Lt => true
  | _ => false
  end.

(** ** Vocabulary of the properties about requests and files *)

(** Requests sent to the content backend by the Publisher. *)
Definition is_login (r : Request) : bool :=
  match r with
  | PostLogin _ => true
  | _ => false
  end.

Definition is_create (r : Request) : bool :=
  match r with
  | PostCreate _ _ _ => true
  | _ => false
  end.

Definition to_publisher (r : Request) : bool := is_login r || is_create r.

(** From [w] to [w'] no file and no cached token has changed, and the
    requests sent in between all satisfy [P]. *)
Definition only_sent (P : Request -> Prop) (w w' : World) : Prop :=
  published_json w' = published_json w /\
  output_json w' = output_json w /\
  sitemap_xml w' = sitemap_xml w /\
  indexnow_key_txt w' = indexnow_key_txt w /\
  _cached_token w' = _cached_token w /\
  exists requests, sent w' = (sent w ++ requests)%list /\ Forall P requests.

(** The login call fails: HTTP 401, a connection failure or a timeout. *)
Definition login_failed (r : Reply (Json (option string))) : Prop :=
  (exists body, r = Http 401 body) \/ r = ConnectionError \/ r = Timeout.

(** The creation call is answered with HTTP 201. *)
Definition created (r : Reply (Json (option string))) : Prop :=
  exists body, r = Http 201 body.

Definition not_to_publisher (r : Request) : Prop := to_publisher r = false.

Definition not_create (r : Request) : Prop := is_create r = false.

(** What each sub-method of the Index Notifier returns, read off the answer to
    its own request. *)
Definition answered (codes : list Z) (r : Reply unit) : bool :=
  match r with
  | Http status_code _ => bool_decide (status_code ∈ codes)
  | _ => false
  end.

(** ** Inputs used in the examples below *)

(** A title of 81 characters: 79 letters, a space and one more letter. *)
Definition long_title : string :=
  "aaaaaaaaaaaaaaaaaaaaaaaaaaaaaaaaaaaaaaaaaaaaaaaaaaaaaaaaaaaaaaaaaaaaaaaaaaaaaaa b".

Module Examples.

Import Fetcher.

Definition cfg : Config := CONFIG (fun _ => None).

(** A world with no file and no request sent. *)
Definition fresh : World := {|
  published_json := None; output_json := ∅; sitemap_xml := None;
  indexnow_key_txt := None; _cached_token := None; sent := []
|}.

Definition noon : Clock.datetime := {|
  Clock.year := 2024; Clock.month := 3; Clock.day := 1;
  Clock.hour := 12; Clock.minute := 0; Clock.second := 0;
  Clock.microsecond := 0
|}.

(** A feed entry without a publication date. *)
Definition undated_entry : FeedEntry := {|
  published_parsed := None;
  entry_title := Some "New AI chip";
  entry_summary := Some "<p>A faster chip.</p>";
  entry_description := None;
  entry_link := Some "https://example.com/chip"
|}.

(** A feed entry published at 09:30 on the day of [noon]. *)
Definition morning_entry : FeedEntry := {|
  published_parsed := Some {|
    Clock.tm_year := 2024; Clock.tm_mon := 3; Clock.tm_mday := 1;
    Clock.tm_hour := 9; Clock.tm_min := 30; Clock.tm_sec := 0 |};
  entry_title := Some "Robots at work";
  entry_summary := None;
  entry_description := Some "Automation news";
  entry_link := Some "https://example.com/robots"
|}.

(** The Article Record built from [morning_entry]. *)
Definition robots_article : Article := {|
  title := "Robots at work";
  summary := "Automation news";
  url := "https://example.com/robots";
  source := "TechCrunch";
  published := "2024-03-01T09:30:00+00:00";
  content := "Automation news";
  from := "rss"
|}.

(** Only the first configured feed answers, with the given entries. *)
Definition one_feed (entries : list FeedEntry) (feed_url : string)
    : FeedReply :=
  if String.eqb feed_url "https://feeds.feedburner.com/TechCrunch"
  then Parsed {| feed_title := Some "TechCrunch"; entries := entries |}
  else FeedRaised.

End Examples.

Module SourceExamples.

Import Generator.

(** A fetched article whose URL ends in [n]. *)
Definition fetched (n : string) : Fetcher.Article := {|
  Fetcher.title := "Story " ++ n;
  Fetcher.summary := "AI news";
  Fetcher.url := "https://example.com/" ++ n;
  Fetcher.source := "Example";
  Fetcher.published := "";
  Fetcher.content := "";
  Fetcher.from := "rss"
|}.




End SourceExamples.

Module SitemapExamples.

Import Sitemap.

Definition listed_post (s : string) : PostItem :=
  {| item_slug := Some s; item_updatedAt := Some "2024-02-20T08:00:00.000Z" |}.

(** One page of the listing, the only one. *)
Definition one_page (slugs : list string) : list (Reply (Json Page)) :=
  [Http 200 (Some {| posts := map listed_post slugs; totalPages := Some 1 |})].

End SitemapExamples.

(** ** A complete run, used in the examples below *)

Module RunExamples.

Definition getenv (name : string) : option string :=
  if String.eqb name "GROQ_API_KEY" then Some "gsk_example" else None.

Definition cfg : Config := CONFIG getenv.

Definition quoted (s : string) : string := Generator.dq ++ s ++ Generator.dq.

(** The model's answer: the JSON object with title X, content
    [<h2>..</h2>] and excerpt Y. *)
Definition answer : string :=
  "{" ++ quoted "title" ++ ":" ++ quoted "X" ++ "," ++
  quoted "content" ++ ":" ++ quoted "<h2>..</h2>" ++ "," ++
  quoted "excerpt" ++ ":" ++ quoted "Y" ++ "}".

Definition answer_data : Generator.ModelData := {|
  Generator.data_title := Some "X";
  Generator.data_content := Some "<h2>..</h2>";
  Generator.data_excerpt := Some "Y";
  Generator.data_meta_keywords := None;
  Generator.data_tags := None;
  Generator.data_reading_time := None;
  Generator.data_sources := None
|}.

Definition groq : Generator.Groq := {|
  Generator.groq_answer := Some answer;
  Generator.json_loads :=
    fun text => if String.eqb text answer then Some answer_data else None
|}.

Definition engines (indexnow_status : Z) : Indexer.Engines := {|
  Indexer.uuid4_hex_1 := "0123456789abcdef0123456789abcdef";
  Indexer.uuid4_hex_2 := "fedcba9876543210fedcba9876543210";
  Indexer.indexnow_reply := Http indexnow_status ();
  Indexer.google_reply := Http 200 ();
  Indexer.bing_reply := Timeout
|}.

(** The backend accepts the login and creates the post. *)
Definition accepting : Publisher.Backend := {|
  Publisher.login_reply := Http 200 (Some (Some "jwt-token"));
  Publisher.create_reply := Http 201 (Some (Some "65f0c0ffee"))
|}.

(** The backend rejects the credentials. *)
Definition rejecting : Publisher.Backend := {|
  Publisher.login_reply := Http 401 None;
  Publisher.create_reply := Http 201 (Some (Some "65f0c0ffee"))
|}.

(** The backend accepts the login and reports a slug conflict. *)
Definition conflicting : Publisher.Backend := {|
  Publisher.login_reply := Http 200 (Some (Some "jwt-token"));
  Publisher.create_reply := Http 409 (Some None)
|}.

Definition env (backend : Publisher.Backend) : Main.Env := {|
  Main.cfg := cfg;
  Main.now := Examples.noon;
  Main.now_utc := Examples.noon;
  Main.newsapi := fun _ => Fetcher.NewsRaised;
  Main.feedparser := Examples.one_feed [Examples.morning_entry];
  Main.groq := groq;
  Main.backend := backend;
  Main.listing := SitemapExamples.one_page ["older-post"];
  Main.engines := engines 403
|}.

(** A world whose ledger already holds the slug [x]. *)
Definition already_published : World := {|
  published_json := Some ["x"]; output_json := ∅; sitemap_xml := None;
  indexnow_key_txt := None; _cached_token := None; sent := []
|}.

(** The post generated in these runs. *)
Definition post_x : Post.Post := {|
  Post.title := "X";
  Post.slug := "x";
  Post.content := "<h2>..</h2>";
  Post.excerpt := "Y";
  Post.featuredImage := "";
  Post.status := "published";
  Post.author := "TechNews Bot";
  Post.tags := ["AI"; "Technology"; "Automation"; "Tech News"];
  Post._meta := Some {|
    Post.date := Some "2024-03-01";
    Post.reading_time := Some 5%Z;
    Post.meta_keywords := Some "";
    Post.canonical_url := Some "https://saurabhjha.co.in/blog/x" |}
|}.





End RunExamples.

(** ** scheduler.py *)

Module Scheduler.

(** [CONFIG["schedule"]["run_time"]] *)
Definition run_time : string := "08:00".

(** [s.split(":")] *)
Fixpoint split_colon (s : list ascii) : list (list ascii) :=
  match s with
  | [] => [[]]
  | c :: r =>
      if Ascii.eqb c ":" then [] :: split_colon r
      else match split_colon r with
           | part :: parts => (c :: part) :: parts
           | [] => [[c]]
           end
  end.

Definition digit_value (c : ascii) : Z := Z.of_N (Text.code c) - 48.

(** The digits of [int(s)]: decimal digits, with single underscores allowed
    between two digits.  [after_digit] says that the previous character was a
    digit. *)
Fixpoint int_digits (acc : Z) (after_digit : bool) (s : list ascii)
    : option Z :=
  match s with
  | [] => if after_digit then Some acc else None
  | c :: r =>
      if Text.is_digit c
      then int_digits (10 * acc + digit_value c) true r
      else if Ascii.eqb c "_" && after_digit
      then int_digits acc false r
      else None
  end.

(** The whitespace [int()] skips around the number in an ASCII string: TAB,
    LF, VT, FF, CR and the space, and not the separators 0x1c..0x1f that
    [str.strip()] removes. *)
Definition is_int_space (c : ascii) : bool :=
  Text.between 9 13 c || Ascii.eqb c " ".

Fixpoint skip_int_space (s : list ascii) : list ascii :=
  match s with
  | c :: r => if is_int_space c then skip_int_space r else s
  | [] => []
  end.

(** [int(s)] on a string: surrounding whitespace, an optional sign, the
    digits; [None] where it raises [ValueError]. *)
Definition int (s : list ascii) : option Z :=
  match rev (skip_int_space (rev (skip_int_space s))) with
  | c :: r =>
      if Ascii.eqb c "-" then Z.opp <$> int_digits 0 false r
      else if Ascii.eqb c "+" then int_digits 0 false r
      else int_digits 0 false (c :: r)
  | [] => None
  end.

(** [run_hour, run_minute = map(int, run_time_str.split(":"))]; [None] where
    the line raises [ValueError]. *)
Definition parse_run_time (run_time_str : string) : option (Z * Z) :=
  match split_colon (chars run_time_str) with
  | [h; m] =>
      match int h, int m with
      | Some run_hour, Some run_minute => Some (run_hour, run_minute)
      | _, _ => None
      end
  | _ => None
  end.

(** [now.date()] *)
Definition date (now : Clock.datetime) : Z * Z * Z :=
  (Clock.year now, Clock.month now, Clock.day now).

(** The [while True] loop of [run_daily], for the successive values of
    [datetime.utcnow()]: the readings at which [run_once] is called. *)
Fixpoint poll (run_hour run_minute : Z) (last_run_date : option (Z * Z * Z))
    (clock : list Clock.datetime) : list Clock.datetime :=
  match clock with
  | [] => []
  | now :: later =>
      let today := date now in
      if (Clock.hour now =? run_hour)%Z && (Clock.minute now =? run_minute)%Z &&
         negb (bool_decide (last_run_date = Some today))
      then now :: poll run_hour run_minute (Some today) later
      else poll run_hour run_minute last_run_date later
  end.

Definition run_daily (run_time_str : string) (clock : list Clock.datetime)
    : option (list Clock.datetime) :=
  match parse_run_time run_time_str with
  | Some (run_hour, run_minute) => Some (poll run_hour run_minute None clock)
  | None => None
  end.

End Scheduler.

(** ** Vocabulary of the further properties *)

(** The date of [a] is not after the date of [b]. *)
Definition date_le (a b : Clock.datetime) : Prop :=
  (Clock.year a < Clock.year b \/
   (Clock.year a = Clock.year b /\
    (Clock.month a < Clock.month b \/
     (Clock.month a = Clock.month b /\ Clock.day a <= Clock.day b))))%Z.

(** Readings of the clock at 07:59, 08:00 and 08:00 again on 1 March 2024,
    and at 08:00 on 2 March. *)
Definition clock_reading (day hour minute second : Z) : Clock.datetime := {|
  Clock.year := 2024; Clock.month := 3; Clock.day := day;
  Clock.hour := hour; Clock.minute := minute; Clock.second := second;
  Clock.microsecond := 0
|}.

Definition two_mornings : list Clock.datetime :=
  [clock_reading 1 7 59 20; clock_reading 1 8 0 10; clock_reading 1 8 0 59;
   clock_reading 2 8 0 30].

(** No position of [s] starts a markup tag: the regular expression
    [<[^>]+>] of [fetch_from_rss] matches nowhere in [s]. *)
Fixpoint tag_free (s : list ascii) : bool :=
  negb (Str.opens_tag s) &&
  match s with
  | [] => true
  | _ :: r => tag_free r
  end.

(** [s] has no whitespace at either end: [s.strip() == s]. *)
Definition trimmed (s : string) : Prop := Text.strip (chars s) = chars s.

(** A feed entry published at 18:00 on the day before [Examples.noon]. *)
Definition evening_entry : Fetcher.FeedEntry := {|
  Fetcher.published_parsed := Some {|
    Clock.tm_year := 2024; Clock.tm_mon := 2; Clock.tm_mday := 29;
    Clock.tm_hour := 18; Clock.tm_min := 0; Clock.tm_sec := 0 |};
  Fetcher.entry_title := Some "Quantum chips";
  Fetcher.entry_summary := Some "Research news";
  Fetcher.entry_description := None;
  Fetcher.entry_link := Some "https://example.com/quantum"
|}.

(** Requests of the Source Aggregator. *)
Definition is_fetch (r : Request) : Prop :=
  match r with
  | GetNewsAPI _ | ParseFeed _ => True
  | _ => False
  end.

(** Requests of the stages up to the Publisher: the aggregator, the model
    and the backend's login and creation endpoints. *)
Definition before_sitemap (r : Request) : Prop :=
  match r with
  | GetNewsAPI _ | ParseFeed _ | PostGroq _ | PostLogin _ | PostCreate _ _ _ =>
      True
  | _ => False
  end.

(** From [w] to [w'] the ledger, the sitemap and the IndexNow key file have
    not changed, and the requests sent in between all satisfy [P]. *)
Definition kept_site_files (P : Request -> Prop) (w w' : World) : Prop :=
  published_json w' = published_json w /\
  sitemap_xml w' = sitemap_xml w /\
  indexnow_key_txt w' = indexnow_key_txt w /\
  exists requests, sent w' = (sent w ++ requests)%list /\ Forall P requests.

(** No feed answers and NewsAPI is not configured. *)
Definition silent_env : Main.Env := {|
  Main.cfg := RunExamples.cfg;
  Main.now := Examples.noon;
  Main.now_utc := Examples.noon;
  Main.newsapi := fun _ => Fetcher.NewsRaised;
  Main.feedparser := fun _ => Fetcher.FeedRaised;
  Main.groq := RunExamples.groq;
  Main.backend := RunExamples.accepting;
  Main.listing := SitemapExamples.one_page ["older-post"];
  Main.engines := RunExamples.engines 200
|}.

(** A JSON object as text: an opening brace, anything, a closing brace. *)
Definition json_object (inner : list ascii) : list ascii :=
  ("{"%char :: inner ++ ["}"%char])%list.

(** [s] is made of whitespace only. *)
Definition blank (s : list ascii) : Prop :=
  Forall (fun c => Text.is_space c = true) s.


(** No environment variable is set: config.py keeps its placeholders. *)
Definition unconfigured_env : Main.Env := {|
  Main.cfg := CONFIG (fun _ => None);
  Main.now := Examples.noon;
  Main.now_utc := Examples.noon;
  Main.newsapi := fun _ => Fetcher.NewsRaised;
  Main.feedparser := Examples.one_feed [Examples.morning_entry];
  Main.groq := RunExamples.groq;
  Main.backend := RunExamples.accepting;
  Main.listing := SitemapExamples.one_page ["older-post"];
  Main.engines := RunExamples.engines 200
|}.

(** A page of the backend's listing, answered with HTTP 200. *)
Definition listed_page (total : nat) (posts : list Sitemap.PostItem)
    : Reply (Json Sitemap.Page) :=
  Http 200 (Some {| Sitemap.posts := posts; Sitemap.totalPages := Some total |}).

(** The page holds a post, and each of its posts has a slug. *)
Definition full_page (posts : list Sitemap.PostItem) : Prop :=
  posts <> [] /\ Forall (fun p => Sitemap.item_slug p <> None) posts.

(** What [uuid.uuid4().hex] returns: 32 lowercase hexadecimal digits. *)
Definition is_hex (c : ascii) : bool := Text.is_digit c || Text.between 97 102 c.

Definition uuid_hex (s : string) : Prop :=
  String.length s = 32 /\ Forall (fun c => is_hex c = true) (chars s).

(** No hyphen is followed by a hyphen. *)
Fixpoint no_double_hyphen (s : list ascii) : bool :=
  match s with
  | [] => true
  | c :: r =>
      negb (Text.is_hyphen c && negb (no_hyphen_in_front r)) &&
      no_double_hyphen r
  end.

Definition ends_with_hyphen (s : list ascii) : bool :=
  match last s with
  | Some c => Text.is_hyphen c
  | None => false
  end.

(** ** Vocabulary of the normalized title key *)

(** A word is one or more letters, digits or underscores ([\w+]); a gap is
    one or more whitespace characters ([\s+]). *)
Definition word (w : list ascii) : Prop :=
  w <> [] /\ Forall (fun c => Text.is_word c = true) w.

Definition gap (g : list ascii) : Prop :=
  g <> [] /\ Forall (fun c => Text.is_space c = true) g.

(** A title spelled word by word: the first word, then every further word
    after the gap in front of it. *)
Definition spell (first : list ascii) (more : list (list ascii * list ascii))
    : list ascii :=
  (first ++ concat (map (fun gw => gw.1 ++ gw.2) more))%list.

Definition is_stop_word (w : list ascii) : bool :=
  bool_decide (w ∈ map chars Str.stop_words).

(** A word after the removal of the stop words. *)
Definition erase (w : list ascii) : list ascii :=
  if is_stop_word w then [] else w.

(** Words joined by single spaces. *)
Fixpoint unwords (ws : list (list ascii)) : list ascii :=
  match ws with
  | [] => []
  | [w] => w
  | w :: rest => (w ++ " "%char :: unwords rest)%list
  end.

(** The character in front of the position that follows [u], when [p] is
    the character in front of [u]. *)
Definition prev_after (p : option ascii) (u : list ascii) : option ascii :=
  match last u with
  | Some c => Some c
  | None => p
  end.

(** * Properties *)

(** ** Strings and their characters *)

Lemma chars_str (l : list ascii) : chars (str l) = l.
Proof. apply list_ascii_of_string_of_list_ascii. Qed.

Lemma str_chars (s : string) : str (chars s) = s.
Proof. apply string_of_list_ascii_of_string. Qed.

Lemma length_str (l : list ascii) : String.length (str l) = length l.
Proof. induction l as [|c l IH]; simpl; [reflexivity | now rewrite IH]. Qed.

(** ** slugify *)

Section Slugify.

Import Text.


Ltac by_cases c :=
  destruct c as [[] [] [] [] [] [] [] []]; vm_compute; try reflexivity;
  try discriminate; auto.

Lemma lower_char_slug c :
  keep_slug_char (lower_char c) = true -> is_sep (lower_char c) = false ->
  slug_char (lower_char c) = true.
Proof. by_cases c. Qed.

Lemma slug_char_not_space c : slug_char c = true -> is_space c = false.
Proof. by_cases c. Qed.

Lemma Forall_lstrip (P : ascii -> Prop) s : Forall P s -> Forall P (lstrip s).
Proof.
  induction 1 as [|c s Hc Hs IH]; simpl; [constructor|].
  destruct (is_space c); [exact IH | now constructor].
Qed.

Lemma Forall_strip (P : ascii -> Prop) s : Forall P s -> Forall P (strip s).
Proof.
  intros H. unfold strip, rstrip.
  apply Forall_rev, Forall_lstrip, Forall_rev, Forall_lstrip, H.
Qed.

Lemma Forall_sub_seps (P : ascii -> Prop) b s :
  P "-"%char -> Forall (fun c => is_sep c = false -> P c) s ->
  Forall P (sub_seps_from b s).
Proof.
  intros Hh H. revert b.
  induction H as [|c s Hc Hs IH]; intros b; simpl; [constructor|].
  destruct (is_sep c) eqn:E.
  - destruct b; [apply IH | constructor; [exact Hh | apply IH]].
  - constructor; [now apply Hc | apply IH].
Qed.

Lemma Forall_skip_hyphens (P : ascii -> Prop) s :
  Forall P s -> Forall P (skip_hyphens s).
Proof.
  induction 1 as [|c s Hc Hs IH]; simpl; [constructor|].
  destruct (is_hyphen c); [exact IH | now constructor].
Qed.

Lemma Forall_sub_trailing_hyphens (P : ascii -> Prop) s :
  Forall P s -> Forall P (sub_trailing_hyphens s).
Proof.
  induction 1 as [|c s Hc Hs IH]; simpl; [constructor|].
  destruct (is_hyphen c && at_dollar (skip_hyphens s)).
  - now apply Forall_skip_hyphens.
  - now constructor.
Qed.



Lemma slug_char_sep c : slug_char c = true -> is_sep c = is_hyphen c.
Proof. by_cases c. Qed.

Lemma slug_char_lower c : slug_char c = true -> lower_char c = c.
Proof. by_cases c. Qed.

Lemma slug_char_keep c : slug_char c = true -> keep_slug_char c = true.
Proof. by_cases c. Qed.

Lemma slug_char_not_lf c : slug_char c = true -> Ascii.eqb c "010" = false.
Proof. by_cases c. Qed.

Lemma hyphen_sep c : is_hyphen c = true -> is_sep c = true.
Proof. by_cases c. Qed.

Lemma sub_seps_in_run s : no_hyphen_in_front (sub_seps_from true s) = true.
Proof.
  induction s as [|c s IH]; simpl; [reflexivity|].
  destruct (is_sep c) eqn:E; [exact IH|]. simpl.
  destruct (is_hyphen c) eqn:H; [|reflexivity].
  now rewrite (hyphen_sep c H) in E.
Qed.

Lemma sub_seps_spaced b s :
  Forall (fun c => is_sep c = false -> slug_char c = true) s ->
  spaced (sub_seps_from b s) = true.
Proof.
  intros H. revert b.
  induction H as [|c s Hc Hs IH]; intros b; simpl; [reflexivity|].
  destruct (is_sep c) eqn:E.
  - destruct b; [apply IH|]. simpl. now rewrite sub_seps_in_run, IH.
  - simpl. rewrite (Hc eq_refl), IH. simpl.
    destruct (is_hyphen c) eqn:H; [|reflexivity].
    now rewrite (hyphen_sep c H) in E.
Qed.

Lemma skip_hyphens_spaced s : spaced s = true -> spaced (skip_hyphens s) = true.
Proof.
  induction s as [|c s IH]; simpl; [reflexivity|]. intros H.
  destruct (is_hyphen c) eqn:E.
  - apply IH. now apply andb_prop in H as [_ H].
  - simpl. now rewrite E in *.
Qed.

Lemma skip_hyphens_front s : no_hyphen_in_front (skip_hyphens s) = true.
Proof.
  induction s as [|c s IH]; simpl; [reflexivity|].
  destruct (is_hyphen c) eqn:E; [exact IH|]. simpl. now rewrite E.
Qed.

Lemma skip_hyphens_id s : no_hyphen_in_front s = true -> skip_hyphens s = s.
Proof.
  destruct s as [|c s]; simpl; [reflexivity|].
  now destruct (is_hyphen c).
Qed.

Lemma spaced_at_dollar s : spaced s = true -> at_dollar s = true -> s = [].
Proof.
  destruct s as [|c [|d s]]; simpl; try discriminate; [reflexivity|].
  intros H E. apply andb_prop in H as [H _]. apply andb_prop in H as [H _].
  now rewrite (slug_char_not_lf c H) in E.
Qed.

Lemma sub_trailing_hyphens_front s :
  no_hyphen_in_front s = true ->
  no_hyphen_in_front (sub_trailing_hyphens s) = true.
Proof.
  destruct s as [|c s]; simpl; [reflexivity|].
  destruct (is_hyphen c) eqn:E; [discriminate|]. simpl. now rewrite E.
Qed.

Lemma sub_trailing_hyphens_char_follows s :
  no_hyphen_in_front s = true -> s <> [] ->
  char_follows (sub_trailing_hyphens s) = true.
Proof.
  destruct s as [|c s]; simpl; [congruence|].
  destruct (is_hyphen c) eqn:E; [discriminate|]. simpl. now rewrite E.
Qed.

Lemma sub_trailing_hyphens_sluggy s :
  spaced s = true -> sluggy (sub_trailing_hyphens s) = true.
Proof.
  induction s as [|c s IH]; simpl; [reflexivity|]. intros H.
  apply andb_prop in H as [H Hs]. apply andb_prop in H as [Hc Hf].
  destruct (is_hyphen c) eqn:E; simpl.
  - rewrite (skip_hyphens_id s Hf).
    destruct (at_dollar s) eqn:D.
    + now rewrite (spaced_at_dollar s Hs D).
    + simpl. rewrite Hc, E, (IH Hs). simpl.
      rewrite sub_trailing_hyphens_char_follows; [reflexivity | exact Hf |].
      intros ->. discriminate.
  - now rewrite Hc, E, (IH Hs).
Qed.

Lemma sluggy_chars s : sluggy s = true -> Forall (fun c => slug_char c = true) s.
Proof.
  induction s as [|c s IH]; simpl; [constructor|]. intros H.
  apply andb_prop in H as [H Hs]. apply andb_prop in H as [Hc _].
  constructor; [exact Hc | exact (IH Hs)].
Qed.

(** What [slugify] computes before it cuts is a well-formed slug. *)
Lemma slugify_uncut_is_slug text : is_slug (slugify_uncut text) = true.
Proof.
  unfold is_slug, slugify_uncut, sub_edge_hyphens.
  apply andb_true_intro. split.
  - apply sub_trailing_hyphens_front, skip_hyphens_front.
  - apply sub_trailing_hyphens_sluggy, skip_hyphens_spaced, sub_seps_spaced.
    apply Forall_forall. intros c Hc Hsep.
    apply list_elem_of_filter in Hc as [Hk Hc].
    assert (Hl : Forall (fun c => exists c0, c = lower_char c0)
                   (strip (lower text))).
    { apply Forall_strip. unfold lower. apply Forall_forall.
      intros x Hx. rewrite list_elem_of_In in Hx.
      apply in_map_iff in Hx as [c0 [<- _]]. now exists c0. }
    rewrite Forall_forall in Hl.
    destruct (Hl c Hc) as [c0 ->].
    apply lower_char_slug; [|exact Hsep].
    now apply Is_true_true.
Qed.

Lemma slugify_uncut_chars text :
  Forall (fun c => slug_char c = true) (slugify_uncut text).
Proof.
  apply sluggy_chars.
  pose proof (slugify_uncut_is_slug text) as H.
  now apply andb_prop in H as [_ H].
Qed.

(** ... and a well-formed slug goes through every step unchanged. *)
Lemma lower_id s : Forall (fun c => slug_char c = true) s -> lower s = s.
Proof.
  induction 1 as [|c s Hc Hs IH]; simpl; [reflexivity|].
  now rewrite (slug_char_lower c Hc), IH.
Qed.

Lemma lstrip_id s :
  Forall (fun c => slug_char c = true) s -> lstrip s = s.
Proof.
  destruct 1 as [|c s Hc Hs]; simpl; [reflexivity|].
  now rewrite (slug_char_not_space c Hc).
Qed.

Lemma strip_id s : Forall (fun c => slug_char c = true) s -> strip s = s.
Proof.
  intros H. unfold strip, rstrip. rewrite (lstrip_id s H).
  rewrite lstrip_id; [apply rev_involutive | now apply Forall_rev].
Qed.

Lemma sub_non_slug_id s :
  Forall (fun c => slug_char c = true) s -> sub_non_slug s = s.
Proof.
  unfold sub_non_slug.
  induction 1 as [|c s Hc Hs IH]; [reflexivity|].
  rewrite filter_cons_True; [now rewrite IH|].
  apply Is_true_true, slug_char_keep, Hc.
Qed.

Lemma sub_seps_id b s :
  sluggy s = true -> (b = true -> no_hyphen_in_front s = true) ->
  sub_seps_from b s = s.
Proof.
  revert b. induction s as [|c s IH]; intros b H Hb; simpl; [reflexivity|].
  simpl in H. apply andb_prop in H as [H Hs]. apply andb_prop in H as [Hc Hf].
  rewrite (slug_char_sep c Hc).
  destruct (is_hyphen c) eqn:E.
  - destruct b.
    + specialize (Hb eq_refl). simpl in Hb. now rewrite E in Hb.
    + f_equal; [now apply Ascii.eqb_eq in E|].
      apply IH; [exact Hs|]. intros _.
      destruct s as [|d s]; [discriminate | exact Hf].
  - f_equal. apply IH; [exact Hs | discriminate].
Qed.

Lemma sub_trailing_hyphens_id s : sluggy s = true -> sub_trailing_hyphens s = s.
Proof.
  induction s as [|c s IH]; simpl; [reflexivity|]. intros H.
  apply andb_prop in H as [H Hs]. apply andb_prop in H as [Hc Hf].
  rewrite (IH Hs).
  destruct (is_hyphen c) eqn:E; [|reflexivity]. simpl.
  destruct s as [|d s]; [discriminate|].
  simpl in Hf |- *. apply negb_true_iff in Hf. rewrite Hf.
  simpl in Hs. apply andb_prop in Hs as [Hs _]. apply andb_prop in Hs as [Hd _].
  destruct s; [|reflexivity]. simpl. now rewrite (slug_char_not_lf d Hd).
Qed.

Lemma slugify_uncut_id s : is_slug s = true -> slugify_uncut s = s.
Proof.
  intros H. apply andb_prop in H as [Hf Hs].
  pose proof (sluggy_chars s Hs) as Hc.
  unfold slugify_uncut, sub_edge_hyphens, sub_seps.
  rewrite (lower_id s Hc), (strip_id s Hc), (sub_non_slug_id s Hc).
  rewrite (sub_seps_id false s Hs); [|discriminate].
  rewrite (skip_hyphens_id s Hf). now apply sub_trailing_hyphens_id.
Qed.

Lemma slugify_uncut_idempotent text :
  slugify_uncut (slugify_uncut text) = slugify_uncut text.
Proof. apply slugify_uncut_id, slugify_uncut_is_slug. Qed.

(** [slugify] returns a well-formed slug of at most 80 characters
    unchanged. *)
Lemma slugify_slug_unchanged s :
  is_slug (chars s) = true -> String.length s <= 80 -> slugify s = s.
Proof.
  intros H Hlen. unfold slugify. rewrite (slugify_uncut_id _ H).
  rewrite take_ge; [apply str_chars|].
  now rewrite <- length_str, str_chars.
Qed.

(** The length cap of [slugify] holds for every title. *)
Lemma slugify_length text : String.length (slugify text) <= 80.
Proof. unfold slugify. rewrite length_str, length_take. lia. Qed.

(** A slug holds lowercase letters, digits and hyphens only: no whitespace and
    no other punctuation. *)
Lemma slugify_chars text :
  Forall (fun c => is_lower c || is_digit c || is_hyphen c = true)
         (chars (slugify text)).
Proof.
  unfold slugify. rewrite chars_str.
  apply Forall_take, slugify_uncut_chars.
Qed.

(** Where the cut removes nothing, [slugify] returns its own output
    unchanged. *)
Lemma slugify_idempotent_below_cap text :
  length (slugify_uncut (chars text)) <= 80 ->
  slugify (slugify text) = slugify text.
Proof.
  intros H. unfold slugify. rewrite chars_str.
  rewrite (take_ge (slugify_uncut (chars text))) by exact H.
  now rewrite slugify_uncut_idempotent, take_ge.
Qed.

End Slugify.

(** C1, the code breaks the claim. [slugify] is not idempotent on its own
    outputs: the final cut to 80 characters comes after the hyphens at the
    ends are removed, so the slug of [long_title] ends in a hyphen, and
    slugifying that slug removes the hyphen. *)
Theorem slugify_cut_leaves_trailing_hyphen :
  String.length long_title = 81 /\
  slugify long_title =
    "aaaaaaaaaaaaaaaaaaaaaaaaaaaaaaaaaaaaaaaaaaaaaaaaaaaaaaaaaaaaaaaaaaaaaaaaaaaaaaa-" /\
  slugify (slugify long_title) =
    "aaaaaaaaaaaaaaaaaaaaaaaaaaaaaaaaaaaaaaaaaaaaaaaaaaaaaaaaaaaaaaaaaaaaaaaaaaaaaaa" /\
  slugify (slugify long_title) <> slugify long_title.
Proof.
  split; [reflexivity|]. split; [reflexivity|]. split; [reflexivity|].
  vm_compute. discriminate.
Qed.

(** ** deduplicate *)

Section Deduplicate.

Import Fetcher.


Lemma deduplicate_from_sublist seen articles :
  sublist (deduplicate_from seen articles) articles.
Proof.
  revert seen. induction articles as [|art rest IH]; intros seen; simpl.
  - constructor.
  - destruct (decide (dedup_key art ∈ seen)).
    + apply sublist_cons, IH.
    + apply sublist_skip, IH.
Qed.

Lemma deduplicate_from_keys seen articles art :
  art ∈ deduplicate_from seen articles -> dedup_key art ∉ seen.
Proof.
  revert seen. induction articles as [|a rest IH]; intros seen; simpl.
  - intros H. inversion H.
  - destruct (decide (dedup_key a ∈ seen)) as [Hin|Hout].
    + apply IH.
    + intros H. apply elem_of_cons in H as [-> | H]; [exact Hout|].
      apply IH in H. now apply not_elem_of_union in H as [_ H].
Qed.

Lemma deduplicate_from_NoDup seen articles :
  NoDup (map dedup_key (deduplicate_from seen articles)).
Proof.
  revert seen. induction articles as [|a rest IH]; intros seen; simpl.
  - constructor.
  - destruct (decide (dedup_key a ∈ seen)) as [Hin|Hout]; [apply IH|].
    simpl. constructor; [|apply IH].
    intros H. rewrite list_elem_of_In in H.
    apply in_map_iff in H as [b [Hk Hb]].
    rewrite <- list_elem_of_In in Hb.
    apply deduplicate_from_keys in Hb.
    apply not_elem_of_union in Hb as [Hb _].
    now apply not_elem_of_singleton in Hb.
Qed.


End Deduplicate.

(** ** fetch_news: ordering and size of the batch *)

Section Batch.

Import Fetcher.


Lemma ltb_leb s1 s2 : String.ltb s1 s2 = true -> String.leb s1 s2 = true.
Proof.
  unfold String.ltb, String.leb.
  destruct (String.compare s1 s2); intros H; (reflexivity || discriminate H).
Qed.

Lemma not_ltb_leb s1 s2 : String.ltb s1 s2 = false -> String.leb s2 s1 = true.
Proof.
  unfold String.ltb, String.leb. rewrite (String.compare_antisym s2 s1).
  destruct (String.compare s1 s2); intros H; (reflexivity || discriminate H).
Qed.

Lemma leb_trans s1 s2 s3 :
  String.leb s1 s2 = true -> String.leb s2 s3 = true -> String.leb s1 s3 = true.
Proof.
  intros H12 H23. apply Is_true_true.
  change (String.le s1 s3). transitivity s2; apply Is_true_true; assumption.
Qed.

Lemma leb_empty s : String.leb s "" = true -> s = "".
Proof. destruct s; [reflexivity | discriminate]. Qed.

Lemma insert_newest_perm x l : Permutation (insert_newest x l) (x :: l).
Proof.
  induction l as [|y l IH]; simpl; [reflexivity|].
  destruct (String.ltb (published x) (published y)); [|reflexivity].
  rewrite IH. apply perm_swap.
Qed.

Lemma sort_newest_first_perm l : Permutation (sort_newest_first l) l.
Proof.
  induction l as [|x l IH]; simpl; [reflexivity|].
  rewrite insert_newest_perm. now constructor.
Qed.

Lemma insert_newest_sorted x l :
  StronglySorted not_older l -> StronglySorted not_older (insert_newest x l).
Proof.
  induction 1 as [|y l Hl IH Hy]; simpl.
  - repeat constructor.
  - destruct (String.ltb (published x) (published y)) eqn:E.
    + constructor; [exact IH|].
      rewrite insert_newest_perm. constructor; [|exact Hy].
      apply ltb_leb, E.
    + apply not_ltb_leb in E.
      constructor; [now constructor|].
      constructor; [exact E|].
      eapply Forall_impl; [exact Hy|]. intros z Hz.
      unfold not_older in *. eapply leb_trans; eassumption.
Qed.

Lemma ltb_neq s1 s2 : String.ltb s1 s2 = true -> s1 <> s2.
Proof.
  unfold String.ltb. intros H ->.
  pose proof (String.compare_antisym s2 s2) as A.
  destruct (String.compare s2 s2); discriminate.
Qed.

(** The sort is stable: records with the same timestamp keep their order. *)
Lemma insert_newest_stable k x l :
  filter (fun a => published a = k) (insert_newest x l) =
  filter (fun a => published a = k) (x :: l).
Proof.
  induction l as [|y l IH]; simpl; [reflexivity|].
  destruct (String.ltb (published x) (published y)) eqn:E; [|reflexivity].
  apply ltb_neq in E.
  rewrite (filter_cons _ y), IH, !(filter_cons _ x), (filter_cons _ y).
  destruct (decide (published y = k)) as [Hy | Hy]; [|reflexivity].
  destruct (decide (published x = k)) as [Hx | Hx]; [congruence | reflexivity].
Qed.

Lemma sort_newest_first_stable k l :
  filter (fun a => published a = k) (sort_newest_first l) =
  filter (fun a => published a = k) l.
Proof.
  induction l as [|x l IH]; simpl; [reflexivity|].
  now rewrite insert_newest_stable, !filter_cons, IH.
Qed.

Lemma sort_newest_first_sorted l : StronglySorted not_older (sort_newest_first l).
Proof.
  induction l as [|x l IH]; simpl; [constructor|].
  now apply insert_newest_sorted.
Qed.

(** C8. The batch [fetch_news] returns holds at most 20 records, is sorted by
    the published timestamp in descending order, and a record with an empty
    timestamp is followed by records with an empty timestamp only.  The batch
    is made of records that passed the filters, and none that is left out is
    newer than one in the batch. *)
Theorem fetch_news_newest_first_at_most_20 cfg now get parse :
  let candidates :=
    filter_relevant
      (deduplicate (fetch_from_newsapi cfg get ++ fetch_from_rss cfg now parse))
  in
  let batch := fetch_news cfg now get parse in
  length batch <= 20 /\
  StronglySorted not_older batch /\
  (forall i j a b,
     batch !! i = Some a -> batch !! j = Some b -> i < j ->
     published a = "" -> published b = "") /\
  exists left_out,
    Permutation (batch ++ left_out) candidates /\
    forall a b, a ∈ batch -> b ∈ left_out -> not_older a b.
Proof.
  intros candidates batch.
  assert (Hrest : exists left_out,
            Permutation (batch ++ left_out) candidates /\
            forall a b, a ∈ batch -> b ∈ left_out -> not_older a b).
  { exists (drop 20 (sort_newest_first candidates)).
    unfold batch, fetch_news. fold candidates. split.
    - rewrite take_drop. apply sort_newest_first_perm.
    - intros a b Ha Hb.
      eapply (StronglySorted_app_1_elem_of not_older); [|exact Ha|exact Hb].
      rewrite take_drop. apply sort_newest_first_sorted. }
  assert (Hs : StronglySorted not_older batch).
  { unfold batch, fetch_news.
    set (l := sort_newest_first _).
    apply (StronglySorted_app_1_l not_older (take 20 l) (drop 20 l)).
    rewrite take_drop. apply sort_newest_first_sorted. }
  split; [unfold batch, fetch_news; rewrite length_take; lia|].
  split; [exact Hs|].
  split; [|exact Hrest].
  intros i j a b Hi Hj Hij Ha.
  apply leb_empty. rewrite <- Ha.
  pose proof (take_drop_middle batch i a Hi) as Hsplit.
  rewrite <- Hsplit in Hs, Hj.
  apply StronglySorted_app_1_r in Hs.
  apply StronglySorted_cons in Hs as [Hall _].
  rewrite Forall_forall in Hall. apply Hall.
  rewrite lookup_app_r in Hj by (rewrite length_take; lia).
  rewrite length_take in Hj.
  assert (Hlt : i < length batch) by (eapply lookup_lt_Some; eassumption).
  replace (j - i `min` length batch) with (S (j - S i)) in Hj by lia.
  simpl in Hj. eapply list_elem_of_lookup_2; eassumption.
Qed.

End Batch.

(** ** Timestamps of feed records: the order of the strings is the order in
    time *)

Section Timestamps.

Local Open Scope Z_scope.

Lemma compare_str a b : String.compare (str a) (str b) = compare_chars a b.
Proof.
  revert b. induction a as [|c a IH]; intros [|d b]; simpl; try reflexivity.
  now rewrite IH.
Qed.

Lemma compare_chars_refl a : compare_chars a a = Eq.
Proof.
  induction a as [|c a IH]; simpl; [reflexivity|].
  unfold Ascii.compare. now rewrite N.compare_refl.
Qed.

Lemma compare_chars_app a a' b b' :
  length a = length a' ->
  compare_chars (a ++ b) (a' ++ b') =
  match compare_chars a a' with
  | Eq => compare_chars b b'
  | c => c
  end.
Proof.
  revert a'. induction a as [|c a IH]; intros [|c' a'] H; simpl in *;
    try discriminate; [reflexivity|].
  destruct (Ascii.compare c c'); try reflexivity.
  apply IH. now injection H.
Qed.

Lemma compare_chars_same s a b :
  compare_chars (s ++ a) (s ++ b) = compare_chars a b.
Proof.
  rewrite compare_chars_app by reflexivity. now rewrite compare_chars_refl.
Qed.

Lemma length_pad w n : length (Clock.pad w n) = w.
Proof.
  revert n. induction w as [|w IH]; intros n; simpl; [reflexivity|].
  rewrite length_app, IH. simpl. lia.
Qed.

Lemma compare_digit n m :
  Ascii.compare (Clock.digit n) (Clock.digit m) = (n mod 10 ?= m mod 10).
Proof.
  unfold Ascii.compare, Clock.digit.
  pose proof (Z.mod_pos_bound n 10 eq_refl) as Hn.
  pose proof (Z.mod_pos_bound m 10 eq_refl) as Hm.
  rewrite !N_ascii_embedding by lia.
  rewrite Z2N.inj_compare by lia.
  apply Z.add_compare_mono_l.
Qed.

Lemma compare_pad w n m :
  0 <= n < 10 ^ Z.of_nat w -> 0 <= m < 10 ^ Z.of_nat w ->
  compare_chars (Clock.pad w n) (Clock.pad w m) = (n ?= m).
Proof.
  revert n m. induction w as [|w IH]; intros n m Hn Hm.
  - simpl in *. replace n with 0 by lia. now replace m with 0 by lia.
  - rewrite Nat2Z.inj_succ, Z.pow_succ_r in Hn, Hm by lia.
    simpl. rewrite compare_chars_app by now rewrite !length_pad.
    rewrite IH by (split; [apply Z.div_pos; lia
                          | apply Z.div_lt_upper_bound; lia]).
    simpl. rewrite compare_digit.
    pose proof (Z.div_mod n 10 ltac:(lia)) as En.
    pose proof (Z.div_mod m 10 ltac:(lia)) as Em.
    pose proof (Z.mod_pos_bound n 10 eq_refl) as Bn.
    pose proof (Z.mod_pos_bound m 10 eq_refl) as Bm.
    destruct (Z.compare_spec (n / 10) (m / 10)) as [E | L | G].
    + rewrite E in En.
      destruct (Z.compare_spec (n mod 10) (m mod 10));
        symmetry; [apply Z.compare_eq_iff | apply Z.compare_lt_iff
                  | apply Z.compare_gt_iff]; lia.
    + symmetry. apply Z.compare_lt_iff. lia.
    + symmetry. apply Z.compare_gt_iff. lia.
Qed.

Lemma is_Lt_step (x y : Z) (rest : comparison) :
  is_Lt match x ?= y with Eq => rest | c => c end =
  (x <? y) || ((x =? y) && is_Lt rest).
Proof.
  destruct (Z.compare_spec x y) as [-> | H | H].
  - now rewrite Z.ltb_irrefl, Z.eqb_refl.
  - now rewrite (proj2 (Z.ltb_lt x y) H).
  - rewrite (proj2 (Z.ltb_ge x y)) by lia.
    now rewrite (proj2 (Z.eqb_neq x y)) by lia.
Qed.

(** For two timestamps of feed records, [a.isoformat() < b.isoformat()]
    exactly when [a < b]. *)
Lemma isoformat_order a b :
  whole_second a -> whole_second b ->
  String.ltb (Clock.isoformat true a) (Clock.isoformat true b) = Clock.ltb a b.
Proof.
  intros (Ya & Ma & Da & Ha & Ia & Sa & Ua) (Yb & Mb & Db & Hb & Ib & Sb & Ub).
  unfold String.ltb. fold (is_Lt (String.compare (Clock.isoformat true a)
                                    (Clock.isoformat true b))).
  unfold Clock.isoformat, Clock.date_chars, Clock.time_chars.
  rewrite compare_str, Ua, Ub. cbn [Z.eqb].
  rewrite <- !app_assoc.
  do 6 (rewrite compare_chars_app by (now rewrite !length_pad);
        rewrite compare_pad by (simpl; lia);
        rewrite ?compare_chars_same).
  rewrite compare_chars_refl, !is_Lt_step.
  unfold Clock.ltb, Clock.fields. simpl. rewrite Ua, Ub. simpl.
  now rewrite !andb_false_r, !orb_false_r.
Qed.

End Timestamps.

(** ** fetch_from_rss: the recency window *)

Section Recency.

Import Fetcher.

(** C3, as amended. Every item the feed branch emits is built from an entry
    of a configured feed whose published timestamp is absent, in which case
    the item has an empty timestamp, or is not earlier than 24 hours before
    the current time.  An entry with a timestamp earlier than that yields no
    item; an entry without a timestamp that has a title and a summary yields
    an item with an empty timestamp; and an item yielded by one of the
    entries read from a configured feed is in the output. *)
Theorem rss_items_recent_or_undated cfg now parse :
  let cutoff := Clock.minus_one_day now in
  (forall art, art ∈ fetch_from_rss cfg now parse ->
     exists feed_url feed entry,
       feed_url ∈ rss_feeds cfg /\ parse feed_url = Parsed feed /\
       entry ∈ take (rss_max_articles cfg) (entries feed) /\
       rss_article cutoff feed_url feed entry = Some art /\
       match published_parsed entry with
       | Some t =>
           Clock.ltb (Clock.of_struct_time t) cutoff = false /\
           published art = Clock.isoformat true (Clock.of_struct_time t)
       | None => published art = ""
       end) /\
  (forall feed_url feed entry t,
     published_parsed entry = Some t ->
     Clock.ltb (Clock.of_struct_time t) cutoff = true ->
     rss_article cutoff feed_url feed entry = None) /\
  (forall feed_url feed entry,
     published_parsed entry = None ->
     entry_title_text entry <> "" -> entry_summary_text entry <> "" ->
     exists art,
       rss_article cutoff feed_url feed entry = Some art /\
       published art = "" /\
       title art = entry_title_text entry /\
       content art = entry_summary_text entry) /\
  (forall feed_url feed entry art,
     feed_url ∈ rss_feeds cfg -> parse feed_url = Parsed feed ->
     entry ∈ take (rss_max_articles cfg) (entries feed) ->
     rss_article cutoff feed_url feed entry = Some art ->
     art ∈ fetch_from_rss cfg now parse).
Proof.
  intros cutoff. split; [|split; [|split]].
  - intros art Hart.
    unfold fetch_from_rss in Hart. rewrite list_elem_of_In in Hart.
    apply in_flat_map in Hart as [feed_url [Hfeed Hart]].
    cbv beta in Hart. rewrite <- list_elem_of_In in Hfeed.
    rewrite <- list_elem_of_In in Hart.
    destruct (parse feed_url) as [|feed] eqn:Hparse; [inversion Hart|].
    apply list_elem_of_omap in Hart as [entry [Hentry Hsome]].
    exists feed_url, feed, entry. repeat split; try assumption.
    unfold rss_article in Hsome. fold cutoff in Hsome.
    destruct (published_parsed entry) as [t|]; simpl in Hsome |- *.
    + destruct (Clock.ltb (Clock.of_struct_time t) cutoff); [discriminate|].
      split; [reflexivity|].
      destruct (negb _ && negb _); [|discriminate].
      now injection Hsome as <-.
    + destruct (negb _ && negb _); [|discriminate].
      now injection Hsome as <-.
  - intros feed_url feed entry t Ht Hold. unfold rss_article.
    rewrite Ht. simpl. now rewrite Hold.
  - intros feed_url feed entry Hnone Ht Hs.
    unfold entry_title_text in Ht. unfold entry_summary_text in Hs.
    cbv zeta in Hs.
    unfold rss_article. rewrite Hnone. cbn [fmap option_fmap option_map from_option].
    cbv zeta.
    apply String.eqb_neq in Ht. apply String.eqb_neq in Hs.
    rewrite Ht, Hs. cbn [negb andb].
    eexists. split; [reflexivity|]. now repeat split.
  - intros feed_url feed entry art Hfeed Hparse Hentry Hsome.
    unfold fetch_from_rss. rewrite list_elem_of_In. apply in_flat_map.
    exists feed_url. rewrite <- !list_elem_of_In. split; [exact Hfeed|].
    rewrite Hparse. apply list_elem_of_omap. now exists entry.
Qed.

End Recency.

(** C3, the claim as stated fails: an entry without a published timestamp is
    emitted, with an empty timestamp. *)
Lemma rss_undated_entry_is_emitted :
  Fetcher.published_parsed Examples.undated_entry = None /\
  Fetcher.fetch_from_rss Examples.cfg Examples.noon
    (Examples.one_feed [Examples.undated_entry]) =
  [ {| Fetcher.title := "New AI chip";
       Fetcher.summary := "A faster chip.";
       Fetcher.url := "https://example.com/chip";
       Fetcher.source := "TechCrunch";
       Fetcher.published := "";
       Fetcher.content := "A faster chip.";
       Fetcher.from := "rss" |} ].
Proof. split; reflexivity. Qed.

(** ** generate_article: the Sources section *)

Section Sources.

Import Generator.




Lemma filter_all {A} (P : A -> Prop) `{forall x, Decision (P x)} (l : list A) :
  Forall P l -> filter P l = l.
Proof.
  induction 1 as [|x l Hx Hl IH]; [reflexivity|].
  now rewrite filter_cons_True, IH.
Qed.




End Sources.



(** ** generate_sitemap *)

Section SitemapEntries.

Import Sitemap.





End SitemapEntries.


(** ** The stages before the Publisher send it nothing and write no file *)

Section Frames.

Lemma only_sent_refl P w : only_sent P w w.
Proof.
  repeat split. exists []. split; [now rewrite app_nil_r | constructor].
Qed.

Lemma only_sent_trans P w1 w2 w3 :
  only_sent P w1 w2 -> only_sent P w2 w3 -> only_sent P w1 w3.
Proof.
  intros (A1 & A2 & A3 & A4 & A5 & l1 & A6 & A7)
         (B1 & B2 & B3 & B4 & B5 & l2 & B6 & B7).
  repeat split; try congruence.
  exists (l1 ++ l2)%list. split.
  - now rewrite B6, A6, app_assoc.
  - now apply Forall_app.
Qed.

Lemma only_sent_send (P : Request -> Prop) r w : P r -> only_sent P w (send r w).
Proof.
  intros H. repeat split. exists [r]. split; [reflexivity | now constructor].
Qed.

Lemma only_sent_impl (P Q : Request -> Prop) w w' :
  (forall r, P r -> Q r) -> only_sent P w w' -> only_sent Q w w'.
Proof.
  intros H (A1 & A2 & A3 & A4 & A5 & l & A6 & A7).
  repeat split; try assumption.
  exists l. split; [exact A6 | eapply Forall_impl; eassumption].
Qed.

Lemma only_sent_foldl (P : Request -> Prop) l w :
  Forall P l -> only_sent P w (foldl (fun w r => send r w) w l).
Proof.
  intros H. revert w. induction H as [|r l Hr Hl IH]; intros w; simpl.
  - apply only_sent_refl.
  - eapply only_sent_trans; [apply only_sent_send, Hr | apply IH].
Qed.

Lemma fetch_news_quiet env w :
  only_sent not_to_publisher w (Main.fetch_news env w).2.
Proof.
  unfold Main.fetch_news. simpl. apply only_sent_foldl.
  unfold Main.fetch_requests. apply Forall_app. split.
  - destruct (Str.contains _ _); [constructor|].
    apply Forall_forall. intros r Hr. rewrite list_elem_of_In in Hr.
    apply in_map_iff in Hr as [t [<- _]]. reflexivity.
  - apply Forall_forall. intros r Hr. rewrite list_elem_of_In in Hr.
    apply in_map_iff in Hr as [t [<- _]]. reflexivity.
Qed.

Lemma call_groq_quiet cfg groq prompt w :
  only_sent not_to_publisher w (Generator.call_groq cfg groq prompt w).2.
Proof.
  unfold Generator.call_groq. destruct (Str.contains _ _); simpl.
  - apply only_sent_refl.
  - now apply only_sent_send.
Qed.

Lemma generate_article_quiet cfg now groq articles w :
  only_sent not_to_publisher w
    (Generator.generate_article cfg now groq articles w).2.
Proof.
  unfold Generator.generate_article.
  pose proof (call_groq_quiet cfg groq (Generator.build_prompt articles) w) as H.
  destruct (Generator.call_groq _ _ _ _) as [raw w1]. simpl in H.
  destruct (negb (Str.truthy raw)); [exact H|].
  destruct (Generator.json_loads _ _) as [data|]; [|exact H].
  destruct (forallb _ _); exact H.
Qed.

End Frames.

(** ** run: the ledger guard *)

(** C2. When the slug of the generated article is in the ledger loaded at the
    start of the run, the run ends at the ledger check: between its start and
    its end no request goes to the Publisher's backend (no login, no
    creation), no file changes, the ledger included, and no canonical URL is
    produced. *)
Theorem run_aborts_on_published_slug env w post :
  let fetched := Main.fetch_news env w in
  let generated :=
    Generator.generate_article (Main.cfg env) (Main.now env) (Main.groq env)
      fetched.1 fetched.2 in
  fetched.1 <> [] -> generated.1 = Some post ->
  Post.slug post ∈ Main.load_published_slugs w ->
  Main.run env w = (Main.AlreadyPublished (Post.slug post), generated.2) /\
  only_sent not_to_publisher w generated.2.
Proof.
  intros fetched generated Hne Hgen Hin. split.
  - unfold Main.run. fold fetched.
    destruct fetched as [articles w0] eqn:Hf. simpl in Hne.
    rewrite bool_decide_eq_false_2 by exact Hne.
    unfold generated in *. simpl in *.
    destruct (Generator.generate_article _ _ _ articles w0) as [result w1].
    simpl in Hgen. subst result. simpl.
    now rewrite bool_decide_eq_true_2.
  - eapply only_sent_trans; [apply fetch_news_quiet|].
    apply generate_article_quiet.
Qed.

Lemma run_aborts_on_published_slug_witness :
  let env := RunExamples.env RunExamples.accepting in
  let w := RunExamples.already_published in
  let fetched := Main.fetch_news env w in
  let generated :=
    Generator.generate_article (Main.cfg env) (Main.now env) (Main.groq env)
      fetched.1 fetched.2 in
  fetched.1 <> [] /\ generated.1 = Some RunExamples.post_x /\
  Post.slug RunExamples.post_x ∈ Main.load_published_slugs w /\
  Main.run env w =
    (Main.AlreadyPublished (Post.slug RunExamples.post_x), generated.2) /\
  only_sent not_to_publisher w generated.2.
Proof.
  assert (H1 : (Main.fetch_news (RunExamples.env RunExamples.accepting)
                  RunExamples.already_published).1 <> [])
    by (vm_compute; discriminate).
  assert (H2 : (Generator.generate_article RunExamples.cfg Examples.noon
                  RunExamples.groq
                  (Main.fetch_news (RunExamples.env RunExamples.accepting)
                     RunExamples.already_published).1
                  (Main.fetch_news (RunExamples.env RunExamples.accepting)
                     RunExamples.already_published).2).1 =
               Some RunExamples.post_x)
    by (vm_compute; reflexivity).
  assert (H3 : Post.slug RunExamples.post_x ∈
               Main.load_published_slugs RunExamples.already_published)
    by (apply elem_of_list_to_set; apply list_elem_of_here).
  split; [exact H1|]. split; [exact H2|]. split; [exact H3|].
  exact (run_aborts_on_published_slug (RunExamples.env RunExamples.accepting)
           RunExamples.already_published RunExamples.post_x H1 H2 H3).
Defined.

(** ** publish_article: a failed login *)

Lemma get_jwt_token_login_failed cfg backend w :
  Str.truthy (_cached_token w) = false ->
  login_failed (Publisher.login_reply backend) ->
  Publisher.get_jwt_token cfg backend w =
    (None,
     send (PostLogin (Str.rstrip_slash (api_base_url cfg) ++ login_endpoint cfg))
          w).
Proof.
  intros Hc Hf. unfold Publisher.get_jwt_token. rewrite Hc.
  destruct Hf as [[body ->] | [-> | ->]]; reflexivity.
Qed.

(** C4. When no token is cached and the login call fails with HTTP 401,
    a connection failure or a timeout, [publish_article] returns no URL,
    leaves the post as it was passed in, sends the login request and nothing
    else and changes no file; a run in such an environment never ends with a
    published URL, sends no creation request and changes no file, the ledger
    included. *)
Theorem login_failure_aborts_run env article w :
  Str.truthy (_cached_token w) = false ->
  login_failed (Publisher.login_reply (Main.backend env)) ->
  Publisher.publish_article (Main.cfg env) (Main.backend env) article w =
    (None, article,
     send (PostLogin (Str.rstrip_slash (api_base_url (Main.cfg env)) ++
                      login_endpoint (Main.cfg env))) w) /\
  (forall url, (Main.run env w).1 <> Main.AllDone url) /\
  only_sent not_create w (Main.run env w).2.
Proof.
  intros Hc Hf.
  assert (Hpub : forall a w0, Str.truthy (_cached_token w0) = false ->
            Publisher.publish_article (Main.cfg env) (Main.backend env) a w0 =
            (None, a,
             send (PostLogin (Str.rstrip_slash (api_base_url (Main.cfg env)) ++
                              login_endpoint (Main.cfg env))) w0)).
  { intros a w0 H0. unfold Publisher.publish_article.
    now rewrite (get_jwt_token_login_failed _ _ _ H0 Hf). }
  split; [now apply Hpub|].
  assert (Hq : forall w0 w1, only_sent not_to_publisher w0 w1 ->
                             only_sent not_create w0 w1).
  { intros w0 w1. apply only_sent_impl. intros r Hr.
    unfold not_to_publisher, to_publisher in Hr.
    now apply orb_false_elim in Hr as [_ Hr]. }
  unfold Main.run.
  pose proof (fetch_news_quiet env w) as H1.
  destruct (Main.fetch_news env w) as [articles w0]. simpl in H1.
  case_bool_decide; [split; [discriminate | now apply Hq]|].
  pose proof (generate_article_quiet (Main.cfg env) (Main.now env)
                (Main.groq env) articles w0) as H2.
  destruct (Generator.generate_article _ _ _ articles w0) as [result w1].
  simpl in H2.
  pose proof (only_sent_trans _ _ _ _ H1 H2) as H12.
  destruct result as [result|]; [|split; [discriminate | now apply Hq]].
  case_bool_decide; [split; [discriminate | now apply Hq]|].
  rewrite Hpub.
  - simpl. split; [discriminate|].
    eapply only_sent_trans; [apply Hq, H12|].
    now apply only_sent_send.
  - destruct H12 as (_ & _ & _ & _ & -> & _). exact Hc.
Qed.

Lemma login_failure_aborts_run_witness :
  let env := RunExamples.env RunExamples.rejecting in
  let w := Examples.fresh in
  let article := RunExamples.post_x in
  Str.truthy (_cached_token w) = false /\
  login_failed (Publisher.login_reply (Main.backend env)) /\
  Publisher.publish_article (Main.cfg env) (Main.backend env) article w =
    (None, article,
     send (PostLogin (Str.rstrip_slash (api_base_url (Main.cfg env)) ++
                      login_endpoint (Main.cfg env))) w) /\
  (forall url, (Main.run env w).1 <> Main.AllDone url) /\
  only_sent not_create w (Main.run env w).2.
Proof.
  assert (H1 : Str.truthy (_cached_token Examples.fresh) = false)
    by reflexivity.
  assert (H2 : login_failed
                 (Publisher.login_reply
                    (Main.backend (RunExamples.env RunExamples.rejecting))))
    by (left; exists None; reflexivity).
  split; [exact H1|]. split; [exact H2|].
  exact (login_failure_aborts_run (RunExamples.env RunExamples.rejecting)
           RunExamples.post_x Examples.fresh H1 H2).
Defined.

(** ** submit_to_google: three independent notifications *)

Section Notifier.

Import Indexer.

Lemma indexnow_status (status_code : Z) :
  (status_code =? 200)%Z || (status_code =? 202)%Z =
  bool_decide (status_code ∈ [200; 202]%Z).
Proof.
  destruct (status_code =? 200)%Z eqn:E1.
  { apply Z.eqb_eq in E1. subst. reflexivity. }
  destruct (status_code =? 202)%Z eqn:E2.
  { apply Z.eqb_eq in E2. subst. reflexivity. }
  apply Z.eqb_neq in E1, E2. simpl.
  rewrite bool_decide_eq_false_2; [reflexivity|].
  rewrite !elem_of_cons. intros [? | [? | H]]; [congruence..|].
  inversion H.
Qed.

Lemma ping_status (status_code : Z) :
  (status_code =? 200)%Z = bool_decide (status_code ∈ [200%Z]).
Proof.
  destruct (status_code =? 200)%Z eqn:E.
  - apply Z.eqb_eq in E. subst. reflexivity.
  - apply Z.eqb_neq in E. rewrite bool_decide_eq_false_2; [reflexivity|].
    rewrite elem_of_cons. intros [? | H]; [congruence | inversion H].
Qed.

Lemma get_or_create_indexnow_key_sent engines w :
  sent (get_or_create_indexnow_key engines w).2 = sent w.
Proof.
  unfold get_or_create_indexnow_key. now destruct (Str.truthy _).
Qed.

Lemma submit_indexnow_eq cfg engines url w :
  submit_indexnow cfg engines url w =
  (answered [200; 202]%Z (indexnow_reply engines),
   send (PostIndexNow url (get_or_create_indexnow_key engines w).1)
        (get_or_create_indexnow_key engines w).2).
Proof.
  unfold submit_indexnow.
  destruct (get_or_create_indexnow_key engines w) as [key w1]. simpl.
  destruct (indexnow_reply engines) as [| | |status_code b]; try reflexivity.
  simpl. rewrite <- indexnow_status.
  destruct (_ || _); [reflexivity|].
  now destruct (status_code =? 403)%Z, (status_code =? 422)%Z.
Qed.

Lemma ping_google_sitemap_eq cfg engines w :
  ping_google_sitemap cfg engines w =
  (answered [200]%Z (google_reply engines),
   send (GetGooglePing (Str.rstrip_slash (site_base_url cfg) ++ "/sitemap.xml"))
        w).
Proof.
  unfold ping_google_sitemap.
  destruct (google_reply engines); try reflexivity.
  simpl. now rewrite ping_status.
Qed.

Lemma ping_bing_sitemap_eq cfg engines w :
  ping_bing_sitemap cfg engines w =
  (answered [200]%Z (bing_reply engines),
   send (GetBingPing (Str.rstrip_slash (site_base_url cfg) ++ "/sitemap.xml"))
        w).
Proof.
  unfold ping_bing_sitemap.
  destruct (bing_reply engines); try reflexivity.
  simpl. now rewrite ping_status.
Qed.

(** C9. [submit_to_google] sends the IndexNow submission, the Google ping and
    the Bing ping, in this order, whatever the answer to each of them; each
    sub-method succeeds or fails by the answer to its own request alone, so
    that an HTTP 403 to the IndexNow submission fails that sub-method only;
    and the stage succeeds exactly when at least one sub-method does. *)
Theorem submit_to_google_attempts_all cfg engines url w :
  let sitemap_url := Str.rstrip_slash (site_base_url cfg) ++ "/sitemap.xml" in
  let results := (run_submissions cfg engines url w).1 in
  let done := submit_to_google cfg engines url w in
  sent done.2 =
    (sent w ++
     [PostIndexNow url (get_or_create_indexnow_key engines w).1;
      GetGooglePing sitemap_url; GetBingPing sitemap_url])%list /\
  indexnow results = answered [200; 202]%Z (indexnow_reply engines) /\
  google_ping results = answered [200]%Z (google_reply engines) /\
  bing_ping results = answered [200]%Z (bing_reply engines) /\
  (forall body, indexnow_reply engines = Http 403 body ->
     indexnow results = false) /\
  (done.1 = true <->
   indexnow results = true \/ google_ping results = true \/
   bing_ping results = true).
Proof.
  intros sitemap_url results done.
  unfold done, results, submit_to_google, run_submissions.
  rewrite submit_indexnow_eq, ping_google_sitemap_eq, ping_bing_sitemap_eq.
  fold sitemap_url. simpl.
  split.
  { now rewrite get_or_create_indexnow_key_sent, <- !app_assoc. }
  split; [reflexivity|]. split; [reflexivity|]. split; [reflexivity|].
  split.
  - intros body ->. reflexivity.
  - unfold success_count. simpl.
    destruct (answered [200; 202]%Z (indexnow_reply engines)),
      (answered [200]%Z (google_reply engines)),
      (answered [200]%Z (bing_reply engines)); simpl;
      split; intros H; auto; try discriminate;
      destruct H as [H | [H | H]]; discriminate.
Qed.

End Notifier.

(** The scenario of the specification: IndexNow answers 403, Google 200 and
    Bing times out; all three requests are sent and the stage succeeds. *)
Example submit_to_google_indexnow_403 :
  let done :=
    Indexer.submit_to_google Examples.cfg (RunExamples.engines 403)
      "https://saurabhjha.co.in/blog/x" Examples.fresh in
  (Indexer.submit_indexnow Examples.cfg (RunExamples.engines 403)
     "https://saurabhjha.co.in/blog/x" Examples.fresh).1 = false /\
  done.1 = true /\
  sent done.2 =
    [PostIndexNow "https://saurabhjha.co.in/blog/x"
       "0123456789abcdef0123456789abcdeffedcba98";
     GetGooglePing "https://saurabhjha.co.in/sitemap.xml";
     GetBingPing "https://saurabhjha.co.in/sitemap.xml"].
Proof. repeat split. Qed.

(** ** publish_article: the metadata block of the caller's dict *)

Section Metadata.

Import Publisher.

(** C10. Once a bearer token is obtained, [publish_article] sends the post
    without its ["_meta"] key, and the caller's dict gets the key back only
    when the creation call is answered with HTTP 201: on every other status
    and on every exception the dict is left without ["_meta"] and no URL is
    returned, while a 201 whose body decodes puts the popped metadata back
    and returns the canonical URL. *)
Theorem publish_article_pops_meta cfg backend article w token w1 :
  get_jwt_token cfg backend w = (Some token, w1) ->
  let meta := from_option id Post.no_meta (Post._meta article) in
  let post_url := Str.rstrip_slash (api_base_url cfg) ++ posts_endpoint cfg in
  let canonical :=
    Str.get (Post.canonical_url meta)
      (site_base_url cfg ++ "/blog/" ++ Post.slug article) in
  let result := publish_article cfg backend article w in
  sent result.2 =
    (sent w1 ++ [PostCreate post_url token (Post.pop_meta article)])%list /\
  (~ created (create_reply backend) ->
   result.1 = (None, Post.pop_meta article) /\
   Post._meta result.1.2 = None) /\
  (Post._meta result.1.2 <> None -> created (create_reply backend)) /\
  (forall post_id, create_reply backend = Http 201 (Some post_id) ->
   result.1 = (Some canonical, Post.set_meta (Post.pop_meta article) meta) /\
   Post._meta result.1.2 = Some meta).
Proof.
  intros Htoken meta post_url canonical result.
  unfold result, publish_article. rewrite Htoken.
  fold meta post_url. simpl Post.slug. fold canonical.
  destruct (create_reply backend) as [| | |status_code body] eqn:Hreply;
    simpl.
  1-3: (split; [reflexivity|]; split; [now intros _|];
        split; [intros H; now contradict H | intros post_id H; discriminate H]).
  destruct (status_code =? 201)%Z eqn:E.
  - apply Z.eqb_eq in E. subst status_code.
    destruct body as [post_id|]; simpl.
    + split; [reflexivity|]. split.
      { intros H. contradict H. now exists (Some post_id). }
      split; [intros _; now exists (Some post_id)|].
      intros post_id' _. now split.
    + split; [reflexivity|]. split; [now intros _|].
      split; [intros _; now exists None|].
      intros post_id H. discriminate H.
  - apply Z.eqb_neq in E. simpl.
    split; [reflexivity|]. split; [now intros _|].
    split; [intros H; now contradict H|].
    intros post_id H. injection H as H _. contradiction.
Qed.

End Metadata.

Lemma publish_article_pops_meta_witness :
  let cfg := RunExamples.cfg in
  let backend := RunExamples.conflicting in
  let article := RunExamples.post_x in
  let w := Examples.fresh in
  let token := "jwt-token" in
  let w1 := (Publisher.get_jwt_token cfg backend w).2 in
  Publisher.get_jwt_token cfg backend w = (Some token, w1) /\
  let meta := from_option id Post.no_meta (Post._meta article) in
  let post_url := Str.rstrip_slash (api_base_url cfg) ++ posts_endpoint cfg in
  let canonical :=
    Str.get (Post.canonical_url meta)
      (site_base_url cfg ++ "/blog/" ++ Post.slug article) in
  let result := Publisher.publish_article cfg backend article w in
  sent result.2 =
    (sent w1 ++ [PostCreate post_url token (Post.pop_meta article)])%list /\
  (~ created (Publisher.create_reply backend) ->
   result.1 = (None, Post.pop_meta article) /\
   Post._meta result.1.2 = None) /\
  (Post._meta result.1.2 <> None -> created (Publisher.create_reply backend)) /\
  (forall post_id,
     Publisher.create_reply backend = Http 201 (Some post_id) ->
     result.1 = (Some canonical, Post.set_meta (Post.pop_meta article) meta) /\
     Post._meta result.1.2 = Some meta).
Proof.
  assert (H : Publisher.get_jwt_token RunExamples.cfg RunExamples.conflicting
                Examples.fresh =
              (Some "jwt-token",
               (Publisher.get_jwt_token RunExamples.cfg RunExamples.conflicting
                  Examples.fresh).2)) by reflexivity.
  split; [exact H|].
  exact (publish_article_pops_meta RunExamples.cfg RunExamples.conflicting
           RunExamples.post_x Examples.fresh "jwt-token" _ H).
Defined.

(** A slug conflict (HTTP 409) leaves the caller's post without its
    metadata. *)
Example publish_article_conflict_loses_meta :
  let result :=
    Publisher.publish_article RunExamples.cfg RunExamples.conflicting
      RunExamples.post_x Examples.fresh in
  Post._meta RunExamples.post_x <> None /\
  result.1 = (None, Post.pop_meta RunExamples.post_x) /\
  Post._meta result.1.2 = None.
Proof. repeat split. discriminate. Qed.

(** * Further properties of the code *)

(** ** scheduler.py: the polling loop *)

Section Polling.

Import Scheduler.

Lemma poll_sublist h m last clock : sublist (poll h m last clock) clock.
Proof.
  revert last. induction clock as [|now later IH]; intros last; simpl.
  - constructor.
  - destruct (_ && _); [apply sublist_skip | apply sublist_cons]; apply IH.
Qed.

Lemma poll_on_time h m last clock :
  Forall (fun now => Clock.hour now = h /\ Clock.minute now = m)
         (poll h m last clock).
Proof.
  revert last. induction clock as [|now later IH]; intros last; simpl.
  - constructor.
  - destruct (_ && _) eqn:E; [|apply IH].
    constructor; [|apply IH].
    apply andb_prop in E as [E _]. apply andb_prop in E as [E1 E2].
    split; [now apply Z.eqb_eq in E1 | now apply Z.eqb_eq in E2].
Qed.

Lemma date_le_antisym a b : date_le a b -> date_le b a -> date a = date b.
Proof. unfold date_le, date. intros H1 H2. f_equal; [f_equal|]; lia. Qed.

Lemma date_sandwich a b c :
  date a = date c -> date_le a b -> date_le b c -> date b = date a.
Proof.
  unfold date_le, date. intros H H1 H2. injection H as ? ? ?.
  f_equal; [f_equal|]; lia.
Qed.

Lemma poll_not_again h m d clock :
  StronglySorted date_le clock ->
  Forall (fun now => exists r, date r = d /\ date_le r now) clock ->
  d ∉ map date (poll h m (Some d) clock).
Proof.
  intros Hs. induction Hs as [|now later Hl IH Hnow]; intros Hd; simpl.
  - intros H. inversion H.
  - apply Forall_cons in Hd as [[r [Hr Hle]] Hd].
    destruct (_ && _) eqn:E; [|now apply IH].
    apply andb_prop in E as [_ E]. apply negb_true_iff in E.
    apply bool_decide_eq_false in E.
    simpl. intros H. apply elem_of_cons in H. destruct H as [H | H].
    + apply E. now rewrite H.
    + rewrite list_elem_of_In in H. apply in_map_iff in H as [x [Hx Hin]].
      rewrite <- list_elem_of_In in Hin.
      assert (Hin' : x ∈ later).
      { eapply elem_of_sublist; [exact Hin | apply poll_sublist]. }
      rewrite Forall_forall in Hnow. specialize (Hnow x Hin').
      rewrite Forall_forall in Hd. destruct (Hd x Hin') as [r' [Hr' Hle']].
      apply E. f_equal. rewrite <- Hr. symmetry.
      apply (date_sandwich r now x); [congruence | exact Hle | exact Hnow].
Qed.

Lemma poll_NoDup h m last clock :
  StronglySorted date_le clock -> NoDup (map date (poll h m last clock)).
Proof.
  intros Hs. revert last.
  induction Hs as [|now later Hl IH Hnow]; intros last; simpl.
  - constructor.
  - destruct (_ && _); [|apply IH].
    simpl. constructor; [|apply IH].
    apply poll_not_again; [exact Hl|].
    eapply Forall_impl; [exact Hnow|].
    intros x Hx. now exists now.
Qed.

(** X1. [run_daily] calls [run_once] only at readings of the clock whose hour
    and minute are those of the configured run time, and, when the dates of
    the readings never go back, at most once for each calendar day. *)
Theorem run_daily_at_most_once_a_day run_time_str clock runs :
  StronglySorted date_le clock ->
  run_daily run_time_str clock = Some runs ->
  sublist runs clock /\
  (exists run_hour run_minute,
     parse_run_time run_time_str = Some (run_hour, run_minute) /\
     Forall (fun now => Clock.hour now = run_hour /\
                        Clock.minute now = run_minute) runs) /\
  NoDup (map date runs).
Proof.
  intros Hs. unfold run_daily.
  destruct (parse_run_time run_time_str) as [[h m]|]; [|discriminate].
  intros H. injection H as <-.
  split; [apply poll_sublist|]. split; [|now apply poll_NoDup].
  exists h, m. split; [reflexivity | apply poll_on_time].
Qed.

Lemma poll_covers h m last clock now :
  now ∈ clock -> Clock.hour now = h -> Clock.minute now = m ->
  last = Some (date now) \/ date now ∈ map date (poll h m last clock).
Proof.
  intros Hin Hh Hm. revert last.
  induction clock as [|r later IH]; intros last; [inversion Hin|].
  simpl. apply elem_of_cons in Hin. destruct Hin as [<- | Hin].
  - rewrite Hh, Hm, !Z.eqb_refl. simpl.
    case_bool_decide as E; simpl; [now left|].
    right. left.
  - destruct (_ && _) eqn:E.
    + right. simpl. destruct (IH Hin (Some (date r))) as [H | H].
      * replace (date r) with (date now) by congruence. left.
      * now right.
    + now apply IH.
Qed.

(** X2. Every calendar day on which the clock is read during the configured
    minute gets a run: [run_daily] calls [run_once] at a reading of that
    day. *)
Theorem run_daily_runs_every_due_day run_time_str clock run_hour run_minute now :
  parse_run_time run_time_str = Some (run_hour, run_minute) ->
  now ∈ clock ->
  Clock.hour now = run_hour -> Clock.minute now = run_minute ->
  exists runs,
    run_daily run_time_str clock = Some runs /\ date now ∈ map date runs.
Proof.
  intros Hp Hin Hh Hm. unfold run_daily. rewrite Hp.
  eexists. split; [reflexivity|].
  destruct (poll_covers run_hour run_minute None clock now Hin Hh Hm)
    as [H | H]; [discriminate | exact H].
Qed.

End Polling.

Lemma run_daily_at_most_once_a_day_witness :
  let runs := [clock_reading 1 8 0 10; clock_reading 2 8 0 30] in
  StronglySorted date_le two_mornings /\
  Scheduler.run_daily Scheduler.run_time two_mornings = Some runs /\
  sublist runs two_mornings /\
  (exists run_hour run_minute,
     Scheduler.parse_run_time Scheduler.run_time =
       Some (run_hour, run_minute) /\
     Forall (fun now => Clock.hour now = run_hour /\
                        Clock.minute now = run_minute) runs) /\
  NoDup (map Scheduler.date runs).
Proof.
  assert (H1 : StronglySorted date_le two_mornings).
  { unfold two_mornings, date_le.
    repeat (constructor; [|repeat constructor; simpl; lia]). constructor. }
  assert (H2 : Scheduler.run_daily Scheduler.run_time two_mornings =
               Some [clock_reading 1 8 0 10; clock_reading 2 8 0 30])
    by reflexivity.
  split; [exact H1|]. split; [exact H2|].
  exact (run_daily_at_most_once_a_day Scheduler.run_time two_mornings _ H1 H2).
Defined.

Lemma run_daily_runs_every_due_day_witness :
  let now := clock_reading 1 8 0 59 in
  Scheduler.parse_run_time Scheduler.run_time = Some (8, 0)%Z /\
  now ∈ two_mornings /\
  Clock.hour now = 8%Z /\ Clock.minute now = 0%Z /\
  exists runs,
    Scheduler.run_daily Scheduler.run_time two_mornings = Some runs /\
    Scheduler.date now ∈ map Scheduler.date runs.
Proof.
  assert (H1 : Scheduler.parse_run_time Scheduler.run_time = Some (8, 0)%Z)
    by reflexivity.
  assert (H2 : clock_reading 1 8 0 59 ∈ two_mornings)
    by (apply list_elem_of_In; simpl; tauto).
  split; [exact H1|]. split; [exact H2|].
  split; [reflexivity|]. split; [reflexivity|].
  exact (run_daily_runs_every_due_day Scheduler.run_time two_mornings 8 0
           (clock_reading 1 8 0 59) H1 H2 eq_refl eq_refl).
Defined.

(** ** fetcher.py: the relevance filter *)

Section Relevance.

Import Fetcher.

Lemma chars_app (a b : string) : chars (a ++ b) = (chars a ++ chars b)%list.
Proof. induction a as [|c a IH]; simpl; [reflexivity | now rewrite IH]. Qed.

Lemma is_prefix_spec p s :
  Str.is_prefix p s = true <-> exists post, s = (p ++ post)%list.
Proof.
  revert s. induction p as [|a p IH]; intros s; simpl.
  - split; [intros _; now exists s | reflexivity].
  - destruct s as [|b s].
    + split; [discriminate | intros [post H]; discriminate H].
    + rewrite andb_true_iff, Ascii.eqb_eq, IH. split.
      * intros [-> [post ->]]. now exists post.
      * intros [post H]. injection H as -> ->. split; [reflexivity|].
        now exists post.
Qed.

Lemma contains_chars_spec needle hay :
  Str.contains_chars needle hay = true <->
  exists pre post, hay = (pre ++ needle ++ post)%list.
Proof.
  induction hay as [|c hay IH]; simpl.
  - rewrite orb_false_r, is_prefix_spec. split.
    + intros [post H]. now exists [], post.
    + intros [pre [post H]]. destruct pre; [now exists post|discriminate H].
  - rewrite orb_true_iff, is_prefix_spec, IH. split.
    + intros [[post H] | [pre [post H]]].
      * now exists [], post.
      * exists (c :: pre), post. now rewrite H.
    + intros [[|c' pre] [post H]].
      * left. now exists post.
      * right. injection H as _ H. now exists pre, post.
Qed.

(** X3. [filter_relevant] keeps, in their order, exactly the records whose
    title and summary, joined by a space and lowercased, contain one of the
    keywords as a substring; a record with none of them is dropped. *)
Theorem filter_relevant_keeps_keyword_matches (articles : list Article) :
  sublist (filter_relevant articles) articles /\
  forall art,
    art ∈ filter_relevant articles <->
    art ∈ articles /\
    exists kw pre post,
      kw ∈ keywords /\
      Text.lower (chars (title art) ++ " "%char :: chars (summary art)) =
        (pre ++ chars kw ++ post)%list.
Proof.
  split; [apply sublist_filter|].
  intros art. unfold filter_relevant. rewrite list_elem_of_filter.
  assert (Hrel : is_relevant art = true <->
            exists kw pre post,
              kw ∈ keywords /\
              Text.lower (chars (title art) ++ " "%char :: chars (summary art)) =
                (pre ++ chars kw ++ post)%list).
  { unfold is_relevant. rewrite existsb_exists. unfold Str.contains.
    rewrite chars_str, !chars_app. simpl chars at 2.
    split.
    - intros [kw [Hkw H]]. apply contains_chars_spec in H as [pre [post H]].
      exists kw, pre, post. split; [now apply list_elem_of_In | exact H].
    - intros [kw [pre [post [Hkw H]]]]. exists kw.
      split; [now apply list_elem_of_In|].
      apply contains_chars_spec. now exists pre, post. }
  rewrite Hrel. tauto.
Qed.

End Relevance.

(** ** fetcher.py: the records of the two branches *)

Section Records.

Import Fetcher.

Lemma truthy_Some (o : option string) :
  Str.truthy o = true -> exists s, o = Some s /\ s <> "".
Proof.
  destruct o as [s|]; simpl; [|discriminate].
  intros H. exists s. split; [reflexivity|].
  now apply negb_true_iff, String.eqb_neq in H.
Qed.

(** X4. [fetch_from_newsapi] returns nothing when the API key is the
    placeholder of config.py, and otherwise only records built from an item
    of a topic whose answer has status ["ok"], with the item's non-empty
    title as title, its non-empty description as summary, a non-empty
    content and the origin tag ["newsapi"]. *)
Theorem fetch_from_newsapi_records cfg get :
  (Str.contains "YOUR_" (newsapi_api_key cfg) = true ->
   fetch_from_newsapi cfg get = []) /\
  forall art,
    art ∈ fetch_from_newsapi cfg get ->
    Str.contains "YOUR_" (newsapi_api_key cfg) = false /\
    (exists topic items item,
       topic ∈ topics cfg /\ get topic = NewsJson (Some "ok") items /\
       item ∈ items /\
       item_title item = Some (title art) /\
       item_description item = Some (summary art) /\
       url art = item_url item /\ source art = item_source_name item) /\
    title art <> "" /\ summary art <> "" /\ content art <> "" /\
    from art = "newsapi".
Proof.
  unfold fetch_from_newsapi. split.
  { now intros ->. }
  intros art Hart.
  destruct (Str.contains "YOUR_" (newsapi_api_key cfg)); [inversion Hart|].
  split; [reflexivity|].
  rewrite list_elem_of_In in Hart.
  apply in_flat_map in Hart as [topic [Htopic Hart]]. cbv beta in Hart.
  rewrite <- list_elem_of_In in Htopic. rewrite <- list_elem_of_In in Hart.
  destruct (get topic) as [|status items] eqn:Hget; [inversion Hart|].
  destruct (decide (status = Some "ok")) as [-> | _]; [|inversion Hart].
  apply list_elem_of_omap in Hart as [item [Hitem Hsome]].
  unfold newsapi_article in Hsome.
  destruct (Str.truthy (item_title item)) eqn:Ht; [|discriminate].
  destruct (Str.truthy (item_description item)) eqn:Hd; [|discriminate].
  apply truthy_Some in Ht as [t [Ht Htne]].
  apply truthy_Some in Hd as [d [Hd Hdne]].
  simpl in Hsome. injection Hsome as <-. rewrite Ht, Hd. simpl.
  split.
  { exists topic, items, item. now rewrite Ht, Hd. }
  split; [exact Htne|]. split; [exact Hdne|]. split; [|reflexivity].
  destruct (Str.truthy (item_content item)) eqn:Hc; [|exact Hdne].
  apply truthy_Some in Hc as [c [-> Hcne]]. exact Hcne.
Qed.

Lemma lstrip_head s : Text.lstrip (Text.lstrip s) = Text.lstrip s.
Proof.
  induction s as [|c s IH]; simpl; [reflexivity|].
  destruct (Text.is_space c) eqn:E; [exact IH|]. simpl. now rewrite E.
Qed.

Lemma lstrip_snoc l c :
  Text.lstrip (l ++ [c]) =
  if forallb Text.is_space l && Text.is_space c then []
  else (Text.lstrip l ++ [c])%list.
Proof.
  induction l as [|a l IH]; simpl.
  - now destruct (Text.is_space c).
  - destruct (Text.is_space a); simpl; [exact IH | reflexivity].
Qed.

Lemma rstrip_cons c r :
  Text.rstrip (c :: r) =
  if forallb Text.is_space (rev r) && Text.is_space c then []
  else c :: Text.rstrip r.
Proof.
  unfold Text.rstrip. simpl rev. rewrite lstrip_snoc.
  destruct (_ && _); [reflexivity|].
  now rewrite rev_app_distr.
Qed.

Lemma rstrip_prefix s : exists q, s = (Text.rstrip s ++ q)%list.
Proof.
  induction s as [|c r [q IH]]; [now exists []|].
  rewrite rstrip_cons. destruct (_ && _).
  - now exists (c :: r).
  - exists q. simpl. now rewrite <- IH.
Qed.

Lemma rstrip_rstrip s : Text.rstrip (Text.rstrip s) = Text.rstrip s.
Proof.
  unfold Text.rstrip. now rewrite rev_involutive, lstrip_head.
Qed.

Lemma strip_strip s : Text.strip (Text.strip s) = Text.strip s.
Proof.
  unfold Text.strip.
  assert (H : Text.lstrip (Text.rstrip (Text.lstrip s)) =
              Text.rstrip (Text.lstrip s)).
  { pose proof (lstrip_head s) as Hh.
    destruct (Text.lstrip s) as [|c r]; [reflexivity|].
    simpl in Hh. destruct (Text.is_space c) eqn:E.
    - exfalso. assert (Hlen : length (Text.lstrip r) = length (c :: r))
        by now rewrite Hh.
      clear -Hlen. assert (length (Text.lstrip r) <= length r).
      { clear. induction r as [|a r IH]; simpl; [lia|].
        destruct (Text.is_space a); simpl; lia. }
      simpl in Hlen. lia.
    - rewrite rstrip_cons, E, andb_false_r. simpl. now rewrite E. }
  now rewrite H, rstrip_rstrip.
Qed.

Lemma closes_app_l s q : Str.closes s = true -> Str.closes (s ++ q) = true.
Proof.
  induction s as [|c s IH]; simpl; [discriminate|].
  intros H. apply orb_true_iff in H as [H | H].
  - now rewrite H.
  - rewrite (IH H). apply orb_true_r.
Qed.

Lemma tag_free_app_l p q : tag_free (p ++ q) = true -> tag_free p = true.
Proof.
  induction p as [|c p IH]; [reflexivity|].
  cbn [tag_free app]. intros H. apply andb_prop in H as [H1 H2].
  rewrite (IH H2), andb_true_r.
  apply negb_true_iff. apply negb_true_iff in H1.
  destruct p as [|x t]; [reflexivity|].
  simpl in H1 |- *.
  destruct (Ascii.eqb c "<" && negb (Str.is_gt x)); [|reflexivity].
  simpl in H1 |- *. destruct (Str.closes t) eqn:E; [|reflexivity].
  now rewrite (closes_app_l t q E) in H1.
Qed.

Lemma tag_free_lstrip s : tag_free s = true -> tag_free (Text.lstrip s) = true.
Proof.
  induction s as [|c s IH]; [reflexivity|]. intros H. simpl Text.lstrip.
  destruct (Text.is_space c); [|exact H].
  apply IH. cbn [tag_free] in H. now apply andb_prop in H as [_ H].
Qed.

Lemma tag_free_strip s : tag_free s = true -> tag_free (Text.strip s) = true.
Proof.
  intros H. unfold Text.strip.
  destruct (rstrip_prefix (Text.lstrip s)) as [q Hq].
  apply (tag_free_app_l _ q). rewrite <- Hq. now apply tag_free_lstrip.
Qed.

Lemma tag_free_take n s : tag_free s = true -> tag_free (take n s) = true.
Proof.
  intros H. apply (tag_free_app_l _ (drop n s)). now rewrite take_drop.
Qed.

Lemma closes_sub_tags b s :
  Str.closes (Str.sub_tags_from b s) = true -> Str.closes s = true.
Proof.
  revert b. induction s as [|c s IH]; intros b; [now destruct b|].
  cbn [Str.sub_tags_from Str.closes]. destruct b.
  - intros H. rewrite (IH _ H). apply orb_true_r.
  - destruct (Str.opens_tag (c :: s)).
    + intros H. rewrite (IH _ H). apply orb_true_r.
    + cbn [Str.closes]. intros H. apply orb_true_iff in H as [H | H].
      * now rewrite H.
      * rewrite (IH _ H). apply orb_true_r.
Qed.

Lemma sub_tags_tag_free b s : tag_free (Str.sub_tags_from b s) = true.
Proof.
  revert b. induction s as [|c s IH]; intros b; [now destruct b|].
  cbn [Str.sub_tags_from]. destruct b; [apply IH|].
  destruct (Str.opens_tag (c :: s)) eqn:E; [apply IH|].
  cbn [tag_free]. rewrite IH, andb_true_r. apply negb_true_iff.
  destruct (Str.sub_tags_from false s) as [|x t] eqn:Hout; [reflexivity|].
  cbn [Str.opens_tag].
  destruct (Ascii.eqb c "<") eqn:Ec; [|reflexivity].
  destruct (Str.is_gt x) eqn:Ex; [reflexivity|].
  destruct (Str.closes t) eqn:Et; [|reflexivity]. exfalso.
  destruct s as [|y s']; [discriminate Hout|].
  cbn [Str.opens_tag] in E. rewrite Ec in E.
  cbn [Str.sub_tags_from] in Hout.
  destruct (Str.opens_tag (y :: s')) eqn:Ey.
  - destruct s' as [|z s'']; [discriminate Ey|].
    cbn [Str.opens_tag] in Ey.
    apply andb_prop in Ey as [Ey Hc']. apply andb_prop in Ey as [Ey1 _].
    apply Ascii.eqb_eq in Ey1. subst y.
    cbn [Str.closes] in E. rewrite Hc', orb_true_r in E. discriminate E.
  - injection Hout as -> Ht. rewrite Ex in E.
    assert (Hc : Str.closes (Str.sub_tags_from false s') = true)
      by now rewrite Ht.
    apply closes_sub_tags in Hc. rewrite Hc in E. discriminate E.
Qed.

Lemma str_nil_inv l : str l = "" -> l = [].
Proof. destruct l; [reflexivity | discriminate]. Qed.

Lemma slice_to_nonempty n s : s <> "" -> Str.slice_to (S n) s <> "".
Proof.
  intros Hs H. apply Hs. unfold Str.slice_to in H. apply str_nil_inv in H.
  rewrite <- (str_chars s). destruct (chars s); [reflexivity | discriminate H].
Qed.

Lemma length_omap {A B} (f : A -> option B) (l : list A) :
  length (omap f l) <= length l.
Proof.
  induction l as [|x l IH]; csimpl; [lia|]. destruct (f x); simpl; lia.
Qed.

(** X5. Every record [fetch_from_rss] returns has a non-empty title without
    whitespace at its ends, the origin tag ["rss"], and as content the
    entry's summary with the markup tags removed, non-empty and trimmed; its
    summary is that content cut to 500 characters. *)
Theorem fetch_from_rss_records cfg now parse art :
  art ∈ fetch_from_rss cfg now parse ->
  title art <> "" /\ trimmed (title art) /\
  content art <> "" /\ trimmed (content art) /\
  tag_free (chars (content art)) = true /\
  summary art = Str.slice_to 500 (content art) /\
  summary art <> "" /\ String.length (summary art) <= 500 /\
  tag_free (chars (summary art)) = true /\
  from art = "rss".
Proof.
  intros Hart. unfold fetch_from_rss in Hart. rewrite list_elem_of_In in Hart.
  apply in_flat_map in Hart as [feed_url [_ Hart]]. cbv beta in Hart.
  rewrite <- list_elem_of_In in Hart.
  destruct (parse feed_url) as [|feed]; [inversion Hart|].
  apply list_elem_of_omap in Hart as [entry [_ Hsome]].
  unfold rss_article in Hsome.
  destruct (from_option _ false _); [discriminate|].
  set (t := str (Text.strip (chars (Str.get (entry_title entry) "")))) in *.
  set (raw := if Str.truthy (entry_summary entry)
              then Str.get (entry_summary entry) ""
              else Str.get (entry_description entry) "") in *.
  set (c := str (Text.strip (Str.sub_tags (chars raw)))) in *.
  destruct (negb (String.eqb t "")) eqn:Ht; [|discriminate].
  destruct (negb (String.eqb c "")) eqn:Hc; [|discriminate].
  simpl in Hsome. injection Hsome as <-. simpl.
  apply negb_true_iff, String.eqb_neq in Ht, Hc.
  assert (Hfree : tag_free (chars c) = true).
  { unfold c. rewrite chars_str. apply tag_free_strip, sub_tags_tag_free. }
  split; [exact Ht|].
  split; [unfold trimmed, t; now rewrite chars_str, strip_strip|].
  split; [exact Hc|].
  split; [unfold trimmed, c; now rewrite chars_str, strip_strip|].
  split; [exact Hfree|]. split; [reflexivity|].
  split; [now apply slice_to_nonempty|].
  split; [unfold Str.slice_to; rewrite length_str, length_take; lia|].
  split; [|reflexivity].
  unfold Str.slice_to. rewrite chars_str. now apply tag_free_take.
Qed.

(** X6. The output of [fetch_from_rss] is made of one block per configured
    feed, in the order of the feeds: each block holds at most
    [rss_max_articles] records, all of them built from one of the first
    [rss_max_articles] entries of that feed, and the block of a feed that
    fails to parse is empty. *)
Theorem fetch_from_rss_per_feed_cap cfg now parse :
  exists blocks,
    fetch_from_rss cfg now parse = concat blocks /\
    Forall2
      (fun feed_url block =>
         length block <= rss_max_articles cfg /\
         (parse feed_url = FeedRaised -> block = []) /\
         forall art, art ∈ block ->
           exists feed entry,
             parse feed_url = Parsed feed /\
             entry ∈ take (rss_max_articles cfg) (entries feed) /\
             rss_article (Clock.minus_one_day now) feed_url feed entry =
               Some art)
      (rss_feeds cfg) blocks.
Proof.
  unfold fetch_from_rss. cbv zeta.
  set (block := fun feed_url =>
         match parse feed_url with
         | FeedRaised => []
         | Parsed feed =>
             omap (rss_article (Clock.minus_one_day now) feed_url feed)
                  (take (rss_max_articles cfg) (entries feed))
         end).
  exists (map block (rss_feeds cfg)). split; [apply flat_map_concat_map|].
  induction (rss_feeds cfg) as [|feed_url feeds IH]; simpl; constructor;
    [|exact IH].
  unfold block. destruct (parse feed_url) as [|feed].
  - split; [simpl; lia|]. split; [reflexivity|].
    intros art Hart. inversion Hart.
  - split; [|split; [discriminate|]].
    + etransitivity; [apply length_omap|]. rewrite length_take. lia.
    + intros art Hart. apply list_elem_of_omap in Hart as [entry [He Hs]].
      now exists feed, entry.
Qed.

End Records.

Lemma fetch_from_rss_records_witness :
  let art := Examples.robots_article in
  art ∈ Fetcher.fetch_from_rss Examples.cfg Examples.noon
          (Examples.one_feed [Examples.morning_entry]) /\
  (Fetcher.title art <> "" /\ trimmed (Fetcher.title art) /\
   Fetcher.content art <> "" /\ trimmed (Fetcher.content art) /\
   tag_free (chars (Fetcher.content art)) = true /\
   Fetcher.summary art = Str.slice_to 500 (Fetcher.content art) /\
   Fetcher.summary art <> "" /\ String.length (Fetcher.summary art) <= 500 /\
   tag_free (chars (Fetcher.summary art)) = true /\
   Fetcher.from art = "rss").
Proof.
  assert (H : Examples.robots_article ∈
              Fetcher.fetch_from_rss Examples.cfg Examples.noon
                (Examples.one_feed [Examples.morning_entry]))
    by (vm_compute; apply list_elem_of_here).
  split; [exact H|].
  exact (fetch_from_rss_records Examples.cfg Examples.noon
           (Examples.one_feed [Examples.morning_entry])
           Examples.robots_article H).
Defined.

(** ** fetcher.py: deduplication and the batch *)

Section Batches.

Import Fetcher.

Lemma deduplicate_from_fresh seen articles :
  NoDup (map dedup_key articles) ->
  (forall art, art ∈ articles -> dedup_key art ∉ seen) ->
  deduplicate_from seen articles = articles.
Proof.
  revert seen. induction articles as [|a rest IH]; intros seen Hnd Hseen;
    [reflexivity|].
  simpl in Hnd |- *. apply NoDup_cons in Hnd as [Ha Hrest].
  rewrite decide_False by (apply Hseen; left).
  f_equal. apply IH; [exact Hrest|].
  intros b Hb. apply not_elem_of_union. split; [|apply Hseen; now right].
  apply not_elem_of_singleton. intros E. apply Ha. rewrite <- E.
  rewrite list_elem_of_In. apply in_map. now rewrite <- list_elem_of_In.
Qed.

Lemma sublist_map {A B} (f : A -> B) (l1 l2 : list A) :
  sublist l1 l2 -> sublist (map f l1) (map f l2).
Proof.
  induction 1 as [|x l1 l2 H IH|x l1 l2 H IH]; simpl.
  - constructor.
  - now apply sublist_skip.
  - now apply sublist_cons.
Qed.

(** X7. [deduplicate] returns a list whose normalized keys are pairwise
    distinct unchanged, so that deduplicating twice is the same as once; it
    never returns more records than it is given, and it returns the empty
    list for the empty list only. *)
Theorem deduplicate_idempotent (articles : list Article) :
  (NoDup (map dedup_key articles) -> deduplicate articles = articles) /\
  deduplicate (deduplicate articles) = deduplicate articles /\
  length (deduplicate articles) <= length articles /\
  (deduplicate articles = [] <-> articles = []).
Proof.
  assert (Hfix : forall l, NoDup (map dedup_key l) -> deduplicate l = l).
  { intros l H. apply deduplicate_from_fresh; [exact H|].
    intros art _. apply not_elem_of_empty. }
  split; [apply Hfix|].
  split; [apply Hfix, deduplicate_from_NoDup|].
  split; [apply sublist_length, deduplicate_from_sublist|].
  split; [|now intros ->].
  destruct articles as [|a rest]; [reflexivity|].
  unfold deduplicate. simpl.
  rewrite decide_False by apply not_elem_of_empty. discriminate.
Qed.

(** X8. Every record of the batch [fetch_news] returns was fetched by one of
    the two branches and passes the relevance test, and no two records of the
    batch have the same normalized title key. *)
Theorem fetch_news_batch_is_clean cfg now get parse :
  let batch := fetch_news cfg now get parse in
  (forall art, art ∈ batch ->
     is_relevant art = true /\
     (art ∈ fetch_from_newsapi cfg get \/ art ∈ fetch_from_rss cfg now parse)) /\
  NoDup (map dedup_key batch).
Proof.
  intros batch. unfold batch, fetch_news.
  set (fetched := (fetch_from_newsapi cfg get ++ fetch_from_rss cfg now parse)%list).
  set (candidates := filter_relevant (deduplicate fetched)).
  assert (Hsub : forall art, art ∈ take 20 (sort_newest_first candidates) ->
                             art ∈ candidates).
  { intros art H. rewrite <- (sort_newest_first_perm candidates).
    eapply elem_of_sublist; [exact H | apply sublist_take]. }
  split.
  - intros art H. apply Hsub in H. unfold candidates, filter_relevant in H.
    apply list_elem_of_filter in H as [Hrel H]. split; [exact Hrel|].
    apply elem_of_app. eapply elem_of_sublist; [exact H|].
    apply deduplicate_from_sublist.
  - assert (Hc : NoDup (map dedup_key candidates)).
    { eapply sublist_NoDup; [apply (deduplicate_from_NoDup ∅ fetched)|].
      apply (sublist_map dedup_key). unfold candidates, filter_relevant.
      apply sublist_filter. }
    assert (Hs : NoDup (map dedup_key (sort_newest_first candidates))).
    { assert (P : Permutation (map dedup_key (sort_newest_first candidates))
                    (map dedup_key candidates))
        by apply Permutation_map, sort_newest_first_perm.
      now rewrite P. }
    eapply sublist_NoDup; [exact Hs|].
    apply (sublist_map dedup_key), sublist_take.
Qed.

(** X9. For two feed entries that both pass the recency window, the
    [published] strings of their records, which are the sort keys of
    [fetch_news], are ordered as their publication times are. *)
Theorem rss_sort_key_is_chronological cutoff url1 feed1 e1 url2 feed2 e2
    t1 t2 a1 a2 :
  published_parsed e1 = Some t1 -> published_parsed e2 = Some t2 ->
  whole_second (Clock.of_struct_time t1) ->
  whole_second (Clock.of_struct_time t2) ->
  rss_article cutoff url1 feed1 e1 = Some a1 ->
  rss_article cutoff url2 feed2 e2 = Some a2 ->
  String.ltb (published a1) (published a2) =
  Clock.ltb (Clock.of_struct_time t1) (Clock.of_struct_time t2).
Proof.
  intros H1 H2 V1 V2 A1 A2.
  assert (P : forall url feed e t a,
            published_parsed e = Some t ->
            rss_article cutoff url feed e = Some a ->
            published a = Clock.isoformat true (Clock.of_struct_time t)).
  { intros url feed e t a Ht Ha. unfold rss_article in Ha. rewrite Ht in Ha.
    simpl in Ha. destruct (Clock.ltb _ cutoff); [discriminate|].
    destruct (negb _ && negb _); [|discriminate].
    now injection Ha as <-. }
  rewrite (P _ _ _ _ _ H1 A1), (P _ _ _ _ _ H2 A2).
  now apply isoformat_order.
Qed.

End Batches.

Lemma rss_sort_key_is_chronological_witness :
  let cutoff := Clock.minus_one_day Examples.noon in
  let url := "https://feeds.feedburner.com/TechCrunch" in
  let feed := {| Fetcher.feed_title := Some "TechCrunch";
                 Fetcher.entries := [evening_entry; Examples.morning_entry] |} in
  let t1 := {| Clock.tm_year := 2024; Clock.tm_mon := 2; Clock.tm_mday := 29;
               Clock.tm_hour := 18; Clock.tm_min := 0; Clock.tm_sec := 0 |} in
  let t2 := {| Clock.tm_year := 2024; Clock.tm_mon := 3; Clock.tm_mday := 1;
               Clock.tm_hour := 9; Clock.tm_min := 30; Clock.tm_sec := 0 |} in
  let a1 := {| Fetcher.title := "Quantum chips";
               Fetcher.summary := "Research news";
               Fetcher.url := "https://example.com/quantum";
               Fetcher.source := "TechCrunch";
               Fetcher.published := "2024-02-29T18:00:00+00:00";
               Fetcher.content := "Research news";
               Fetcher.from := "rss" |} in
  let a2 := Examples.robots_article in
  Fetcher.published_parsed evening_entry = Some t1 /\
  Fetcher.published_parsed Examples.morning_entry = Some t2 /\
  whole_second (Clock.of_struct_time t1) /\
  whole_second (Clock.of_struct_time t2) /\
  Fetcher.rss_article cutoff url feed evening_entry = Some a1 /\
  Fetcher.rss_article cutoff url feed Examples.morning_entry = Some a2 /\
  String.ltb (Fetcher.published a1) (Fetcher.published a2) =
  Clock.ltb (Clock.of_struct_time t1) (Clock.of_struct_time t2).
Proof.
  intros cutoff url feed t1 t2 a1 a2.
  assert (V1 : whole_second (Clock.of_struct_time t1))
    by (unfold whole_second; simpl; lia).
  assert (V2 : whole_second (Clock.of_struct_time t2))
    by (unfold whole_second; simpl; lia).
  assert (A1 : Fetcher.rss_article cutoff url feed evening_entry = Some a1)
    by reflexivity.
  assert (A2 : Fetcher.rss_article cutoff url feed Examples.morning_entry =
               Some a2) by reflexivity.
  split; [reflexivity|]. split; [reflexivity|].
  split; [exact V1|]. split; [exact V2|].
  split; [exact A1|]. split; [exact A2|].
  exact (rss_sort_key_is_chronological cutoff url feed evening_entry url feed
           Examples.morning_entry t1 t2 a1 a2 eq_refl eq_refl V1 V2 A1 A2).
Defined.

(** ** main.py: how a run ends *)

Section Runs.

Lemma kept_site_files_refl P w : kept_site_files P w w.
Proof.
  repeat split. exists []. split; [now rewrite app_nil_r | constructor].
Qed.

Lemma kept_site_files_trans P w1 w2 w3 :
  kept_site_files P w1 w2 -> kept_site_files P w2 w3 ->
  kept_site_files P w1 w3.
Proof.
  intros (A1 & A2 & A3 & l1 & A4 & A5) (B1 & B2 & B3 & l2 & B4 & B5).
  repeat split; try congruence.
  exists (l1 ++ l2)%list. split.
  - now rewrite B4, A4, app_assoc.
  - now apply Forall_app.
Qed.

Lemma only_sent_kept (P Q : Request -> Prop) w w' :
  (forall r, P r -> Q r) -> only_sent P w w' -> kept_site_files Q w w'.
Proof.
  intros H (A1 & _ & A3 & A4 & _ & l & A6 & A7).
  repeat split; try assumption.
  exists l. split; [exact A6 | eapply Forall_impl; eassumption].
Qed.

Lemma fetch_news_only_fetches env w :
  only_sent is_fetch w (Main.fetch_news env w).2.
Proof.
  unfold Main.fetch_news. simpl. apply only_sent_foldl.
  unfold Main.fetch_requests. apply Forall_app. split.
  - destruct (Str.contains _ _); [constructor|].
    apply Forall_forall. intros r Hr. rewrite list_elem_of_In in Hr.
    apply in_map_iff in Hr as [t [<- _]]. exact I.
  - apply Forall_forall. intros r Hr. rewrite list_elem_of_In in Hr.
    apply in_map_iff in Hr as [t [<- _]]. exact I.
Qed.

(** X10. When the aggregator returns no article, [run] ends there: it has
    sent the aggregator's requests only, none to the model, the backend or
    the search engines, and it has changed no file. *)
Theorem run_stops_without_articles env w :
  (Main.fetch_news env w).1 = [] ->
  Main.run env w = (Main.NoArticles, (Main.fetch_news env w).2) /\
  only_sent is_fetch w (Main.run env w).2.
Proof.
  intros H. assert (E : Main.run env w =
                        (Main.NoArticles, (Main.fetch_news env w).2)).
  { unfold Main.run. destruct (Main.fetch_news env w) as [articles w0].
    simpl in H. subst articles. reflexivity. }
  split; [exact E|]. rewrite E. apply fetch_news_only_fetches.
Qed.

Lemma generate_article_inv cfg now groq articles w post w' :
  Generator.generate_article cfg now groq articles w = (Some post, w') ->
  exists raw data,
    Str.contains "YOUR_" (groq_api_key cfg) = false /\
    Generator.groq_answer groq = Some raw /\
    Generator.json_loads groq (Generator.strip_fences raw) = Some data /\
    Str.truthy (Generator.data_title data) = true /\
    Str.truthy (Generator.data_content data) = true /\
    Str.truthy (Generator.data_excerpt data) = true /\
    w' = send (PostGroq (Generator.build_prompt articles)) w /\
    let slug := slugify (Str.get (Generator.data_title data) "") in
    post = {|
      Post.title := Str.get (Generator.data_title data) "";
      Post.slug := slug;
      Post.content :=
        Generator.content_with_sources cfg
          (Str.get (Generator.data_content data) "")
          (from_option id [] (Generator.data_sources data)) articles;
      Post.excerpt :=
        Str.slice_to 300 (Str.get (Generator.data_excerpt data) "");
      Post.featuredImage := "";
      Post.status := "published";
      Post.author := "TechNews Bot";
      Post.tags :=
        Generator.fromkeys
          (default_tags cfg ++
           from_option id (default_tags cfg) (Generator.data_tags data));
      Post._meta := Some {|
        Post.date := Some (Clock.strftime_date now);
        Post.reading_time :=
          Some (from_option id 5%Z (Generator.data_reading_time data));
        Post.meta_keywords :=
          Some (Str.get (Generator.data_meta_keywords data) "");
        Post.canonical_url := Some (site_base_url cfg ++ "/blog/" ++ slug) |}
    |}.
Proof.
  unfold Generator.generate_article, Generator.call_groq.
  destruct (Str.contains _ _); [discriminate|].
  destruct (Generator.groq_answer groq) as [raw|]; [|discriminate].
  cbn [Str.truthy Str.get from_option id].
  destruct (negb _); [discriminate|].
  destruct (Generator.json_loads groq (Generator.strip_fences raw))
    as [data|] eqn:E; [|discriminate].
  destruct (forallb _ _) eqn:F; [|discriminate].
  intros H. injection H as <- <-. exists raw, data.
  cbn [forallb] in F.
  apply andb_prop in F as [F1 F]. apply andb_prop in F as [F2 F].
  apply andb_prop in F as [F3 _].
  repeat split; assumption.
Qed.

Lemma get_jwt_token_world cfg backend w :
  let w' := (Publisher.get_jwt_token cfg backend w).2 in
  published_json w' = published_json w /\ output_json w' = output_json w /\
  sitemap_xml w' = sitemap_xml w /\
  indexnow_key_txt w' = indexnow_key_txt w /\
  (sent w' = sent w \/ exists login_url, sent w' = (sent w ++ [PostLogin login_url])%list).
Proof.
  unfold Publisher.get_jwt_token.
  destruct (Str.truthy (_cached_token w)); simpl; [repeat split; now left|].
  destruct (Publisher.login_reply backend) as [| | |status_code [token|]];
    simpl; try (repeat split; right; eexists; reflexivity).
  - destruct (status_code =? 200)%Z; simpl;
      [|repeat split; right; eexists; reflexivity].
    destruct (Str.truthy token); simpl;
      repeat split; right; eexists; reflexivity.
  - destruct (status_code =? 200)%Z; simpl;
      repeat split; right; eexists; reflexivity.
Qed.

Lemma publish_article_kept cfg backend article w :
  kept_site_files before_sitemap w
    (Publisher.publish_article cfg backend article w).2.
Proof.
  unfold Publisher.publish_article.
  pose proof (get_jwt_token_world cfg backend w) as H.
  destruct (Publisher.get_jwt_token cfg backend w) as [token w1].
  simpl in H. destruct H as (H1 & _ & H3 & H4 & H5).
  assert (K : kept_site_files before_sitemap w w1).
  { repeat split; try assumption.
    destruct H5 as [H5 | [u H5]].
    - exists []. split; [now rewrite app_nil_r | constructor].
    - exists [PostLogin u]. split; [exact H5 | now repeat constructor]. }
  destruct token as [token|]; [|exact K].
  eapply kept_site_files_trans; [exact K|].
  destruct (Publisher.create_reply backend) as [| | |status_code [post_id|]];
    try destruct (status_code =? 201)%Z;
    (repeat split; eexists; split; [reflexivity | now repeat constructor]).
Qed.

Lemma fetch_news_early env w :
  only_sent before_sitemap w (Main.fetch_news env w).2.
Proof.
  eapply only_sent_impl; [|apply fetch_news_only_fetches].
  intros r Hr. now destruct r.
Qed.

Lemma generate_article_early cfg now groq articles w :
  only_sent before_sitemap w
    (Generator.generate_article cfg now groq articles w).2.
Proof.
  unfold Generator.generate_article.
  assert (H : only_sent before_sitemap w
                (Generator.call_groq cfg groq
                   (Generator.build_prompt articles) w).2).
  { unfold Generator.call_groq. destruct (Str.contains _ _); simpl.
    - apply only_sent_refl.
    - now apply only_sent_send. }
  destruct (Generator.call_groq _ _ _ _) as [raw w1]. simpl in H.
  destruct (negb (Str.truthy raw)); [exact H|].
  destruct (Generator.json_loads _ _) as [data|]; [|exact H].
  destruct (forallb _ _); exact H.
Qed.

(** X11. A run that does not end with a published URL has not touched the
    later stages: the ledger, the sitemap and the IndexNow key file are as
    before, and no request went to the backend's listing or to a search
    engine. *)
Theorem run_abort_skips_later_stages env w :
  (forall url, (Main.run env w).1 <> Main.AllDone url) ->
  kept_site_files before_sitemap w (Main.run env w).2.
Proof.
  assert (Q : forall w0 w1, only_sent before_sitemap w0 w1 ->
                            kept_site_files before_sitemap w0 w1).
  { intros w0 w1. now apply only_sent_kept. }
  unfold Main.run.
  pose proof (fetch_news_early env w) as H1.
  destruct (Main.fetch_news env w) as [articles w0]. simpl in H1.
  case_bool_decide; [intros _; now apply Q|].
  pose proof (generate_article_early (Main.cfg env) (Main.now env)
                (Main.groq env) articles w0) as H2.
  destruct (Generator.generate_article _ _ _ articles w0) as [result w1].
  simpl in H2.
  pose proof (only_sent_trans _ _ _ _ H1 H2) as H12.
  destruct result as [result|]; [|intros _; now apply Q].
  case_bool_decide; [intros _; now apply Q|].
  pose proof (publish_article_kept (Main.cfg env) (Main.backend env)
                result w1) as H3.
  destruct (Publisher.publish_article _ _ result w1) as [[url result'] w2].
  simpl in H3.
  destruct (negb (Str.truthy url)).
  - intros _. simpl. eapply kept_site_files_trans; [apply Q, H12 | exact H3].
  - destruct (Sitemap.generate_sitemap _ _ _ _ _) as [path w3].
    destruct (Indexer.submit_to_google _ _ _ w3) as [ok w4].
    simpl. intros Hd. exfalso. now apply (Hd (Str.get url "")).
Qed.

End Runs.

Lemma run_stops_without_articles_witness :
  (Main.fetch_news silent_env Examples.fresh).1 = [] /\
  Main.run silent_env Examples.fresh =
    (Main.NoArticles, (Main.fetch_news silent_env Examples.fresh).2) /\
  only_sent is_fetch Examples.fresh (Main.run silent_env Examples.fresh).2.
Proof.
  assert (H : (Main.fetch_news silent_env Examples.fresh).1 = [])
    by reflexivity.
  split; [exact H|].
  exact (run_stops_without_articles silent_env Examples.fresh H).
Defined.

Lemma run_abort_skips_later_stages_witness :
  let env := RunExamples.env RunExamples.conflicting in
  let w := Examples.fresh in
  (forall url, (Main.run env w).1 <> Main.AllDone url) /\
  kept_site_files before_sitemap w (Main.run env w).2.
Proof.
  assert (H : forall url,
            (Main.run (RunExamples.env RunExamples.conflicting)
               Examples.fresh).1 <> Main.AllDone url)
    by (intros url; vm_compute; discriminate).
  split; [exact H|].
  exact (run_abort_skips_later_stages
           (RunExamples.env RunExamples.conflicting) Examples.fresh H).
Defined.

(** ** main.py: the ledger, and a run that publishes *)

Section Ledger.

Lemma load_save slug w :
  Main.load_published_slugs (Main.save_published_slug slug w) =
  {[slug]} ∪ Main.load_published_slugs w.
Proof.
  unfold Main.save_published_slug, Main.load_published_slugs at 1. simpl.
  apply list_to_set_elements_L.
Qed.

(** X12. After [save_published_slug slug], the ledger read back is the
    ledger as it was with [slug] added: no slug is lost, saving a slug twice
    is the same as saving it once, the file lists every slug once, and no
    other file changes. *)
Theorem save_then_load_published_slugs slug w :
  let w' := Main.save_published_slug slug w in
  Main.load_published_slugs w' = {[slug]} ∪ Main.load_published_slugs w /\
  Main.load_published_slugs (Main.save_published_slug slug w') =
    Main.load_published_slugs w' /\
  (exists slugs, published_json w' = Some slugs /\ NoDup slugs) /\
  output_json w' = output_json w /\ sitemap_xml w' = sitemap_xml w /\
  indexnow_key_txt w' = indexnow_key_txt w /\ sent w' = sent w.
Proof.
  intros w'. unfold w'. split; [apply load_save|].
  split.
  { rewrite !load_save. apply set_eq. intros x.
    rewrite !elem_of_union. tauto. }
  split; [|repeat split].
  eexists. split; [reflexivity|]. apply NoDup_elements.
Qed.

Lemma fetch_pages_only_get_posts now listing page slugs w :
  only_sent (fun r => exists p, r = GetPosts p) w
    (Sitemap.fetch_pages now listing page slugs w).2.
Proof.
  revert page slugs w.
  assert (S : forall page w, only_sent (fun r => exists p, r = GetPosts p) w
                               (send (GetPosts page) w)).
  { intros page w. apply only_sent_send. now exists page. }
  induction listing as [|r later IH]; intros page slugs w;
    cbn [Sitemap.fetch_pages]; [apply S|].
  destruct r as [| | |status_code [data|]]; try apply S.
  - destruct (negb (status_code =? 200)%Z); [apply S|].
    case_bool_decide; [apply S|].
    destruct (Sitemap.page_entries now (Sitemap.posts data)) as [entries raised].
    destruct raised; [apply S|].
    destruct (_ <=? _)%nat; [apply S|].
    eapply only_sent_trans; [apply S | apply IH].
  - destruct (negb (status_code =? 200)%Z); apply S.
Qed.

Lemma generate_sitemap_world cfg now listing new_slug w :
  let w' := (Sitemap.generate_sitemap cfg now listing new_slug w).2 in
  published_json w' = published_json w /\ output_json w' = output_json w /\
  indexnow_key_txt w' = indexnow_key_txt w /\
  (exists xml, sitemap_xml w' = Some xml) /\
  exists pages, sent w' = (sent w ++ pages)%list /\
                Forall (fun r => exists p, r = GetPosts p) pages.
Proof.
  unfold Sitemap.generate_sitemap, Sitemap.fetch_all_slugs.
  pose proof (fetch_pages_only_get_posts now listing 1 [] w) as H.
  destruct (Sitemap.fetch_pages now listing 1 [] w) as [slugs w1].
  simpl in H |- *. destruct H as (H1 & H2 & _ & H4 & _ & H6).
  repeat split; try assumption. eexists. reflexivity.
Qed.

Lemma submit_to_google_world cfg engines url w :
  let w' := (Indexer.submit_to_google cfg engines url w).2 in
  published_json w' = published_json w /\ output_json w' = output_json w /\
  sitemap_xml w' = sitemap_xml w.
Proof.
  unfold Indexer.submit_to_google, Indexer.run_submissions.
  rewrite submit_indexnow_eq, ping_google_sitemap_eq, ping_bing_sitemap_eq.
  simpl. unfold Indexer.get_or_create_indexnow_key.
  destruct (Str.truthy _); repeat split.
Qed.

Lemma publish_article_published cfg backend article w url article' w' :
  Publisher.publish_article cfg backend article w = (Some url, article', w') ->
  let meta := from_option id Post.no_meta (Post._meta article) in
  created (Publisher.create_reply backend) /\
  url = Str.get (Post.canonical_url meta)
          (site_base_url cfg ++ "/blog/" ++ Post.slug article) /\
  article' = Post.set_meta (Post.pop_meta article) meta /\
  output_json w' =
    <[Post.slug article := Post.set_meta (Post.pop_meta article) meta]>
      (output_json w) /\
  published_json w' = published_json w.
Proof.
  unfold Publisher.publish_article.
  pose proof (get_jwt_token_world cfg backend w) as H.
  destruct (Publisher.get_jwt_token cfg backend w) as [token w1].
  simpl in H. destruct H as (H1 & H2 & _).
  destruct token as [token|]; [|discriminate].
  destruct (Publisher.create_reply backend) as [| | |status_code [post_id|]]
    eqn:E; try discriminate.
  - destruct (status_code =? 201)%Z eqn:E1; [|discriminate].
    apply Z.eqb_eq in E1. subst status_code.
    intros H. injection H as <- <- <-. simpl.
    rewrite H1, H2. repeat split. now exists (Some post_id).
  - destruct (status_code =? 201)%Z; discriminate.
Qed.

Lemma submit_to_google_attempts_sent cfg engines url w :
  exists key,
    sent (Indexer.submit_to_google cfg engines url w).2 =
    (sent w ++
     [PostIndexNow url key;
      GetGooglePing (Str.rstrip_slash (site_base_url cfg) ++ "/sitemap.xml");
      GetBingPing (Str.rstrip_slash (site_base_url cfg) ++ "/sitemap.xml")])%list.
Proof.
  unfold Indexer.submit_to_google, Indexer.run_submissions.
  rewrite submit_indexnow_eq, ping_google_sitemap_eq, ping_bing_sitemap_eq.
  simpl. rewrite get_or_create_indexnow_key_sent. eexists.
  now rewrite <- !app_assoc.
Qed.

(** X13. A run that ends with a published URL has generated a post whose
    slug was not in the ledger and which the backend created (HTTP 201); the
    URL is the site's base URL, [/blog/] and the slug; afterwards the ledger
    is the former ledger plus that slug, the backup file of the slug holds
    the post with its metadata, a sitemap is written, and the last three
    requests are the three index notifications for that URL. *)
Theorem run_all_done env w url w' :
  Main.run env w = (Main.AllDone url, w') ->
  let fetched := Main.fetch_news env w in
  let sitemap_url :=
    Str.rstrip_slash (site_base_url (Main.cfg env)) ++ "/sitemap.xml" in
  exists post,
    (Generator.generate_article (Main.cfg env) (Main.now env) (Main.groq env)
       fetched.1 fetched.2).1 = Some post /\
    (Post.slug post ∉ Main.load_published_slugs w) /\
    created (Publisher.create_reply (Main.backend env)) /\
    url = site_base_url (Main.cfg env) ++ "/blog/" ++ Post.slug post /\
    Main.load_published_slugs w' =
      {[Post.slug post]} ∪ Main.load_published_slugs w /\
    output_json w' !! Post.slug post = Some post /\
    (exists xml, sitemap_xml w' = Some xml) /\
    exists earlier key,
      sent w' =
        (earlier ++ [PostIndexNow url key; GetGooglePing sitemap_url;
                     GetBingPing sitemap_url])%list.
Proof.
  unfold Main.run.
  pose proof (fetch_news_quiet env w) as H1.
  destruct (Main.fetch_news env w) as [articles w0]. simpl in H1.
  case_bool_decide; [discriminate|].
  pose proof (generate_article_quiet (Main.cfg env) (Main.now env)
                (Main.groq env) articles w0) as H2.
  destruct (Generator.generate_article _ _ _ articles w0) as [result w1] eqn:G.
  simpl in H2. destruct result as [post|]; [|discriminate].
  case_bool_decide as Hin; [discriminate|].
  destruct (Publisher.publish_article _ _ post w1) as [[purl post'] w2] eqn:P.
  destruct purl as [purl|]; [|discriminate].
  destruct (negb (Str.truthy (Some purl))); [discriminate|].
  apply publish_article_published in P as (Hc & Hurl & _ & Hout & Hpub).
  pose proof G as G0.
  apply generate_article_inv in G as (raw & data & _ & _ & _ & _ & _ & _ & _ & G).
  cbv zeta in G, Hurl, Hout. subst post.
  cbn [Post.slug Post._meta from_option id Post.canonical_url Str.get] in *.
  set (slug := slugify (Str.get (Generator.data_title data) "")) in *.
  set (post := {| Post.title := Str.get (Generator.data_title data) "" |}) in *.
  set (w3 := Main.save_published_slug slug w2) in *.
  pose proof (generate_sitemap_world (Main.cfg env) (Main.now env)
                (Main.listing env) (Some slug) w3) as H4.
  destruct (Sitemap.generate_sitemap _ _ _ _ w3) as [path w4].
  pose proof (submit_to_google_world (Main.cfg env) (Main.engines env)
                purl w4) as H5.
  pose proof (submit_to_google_attempts_sent (Main.cfg env) (Main.engines env)
                purl w4) as H6.
  destruct (Indexer.submit_to_google _ _ purl w4) as [ok w5].
  simpl in H4, H5, H6. intros Hrun. injection Hrun as <- <-.
  destruct H4 as (A1 & A2 & _ & A4 & _). destruct H5 as (B1 & B2 & B3).
  exists post. split; [simpl; now rewrite G0|]. split; [exact Hin|].
  split; [exact Hc|]. split; [exact Hurl|].
  destruct H1 as (F1 & _). destruct H2 as (F2 & _).
  split.
  { unfold Main.load_published_slugs at 1. rewrite B1, A1.
    change (Main.load_published_slugs w3 =
            {[slug]} ∪ Main.load_published_slugs w).
    unfold w3. rewrite load_save. f_equal.
    unfold Main.load_published_slugs. now rewrite Hpub, F2, F1. }
  split.
  { rewrite B2, A2. unfold w3. simpl. rewrite Hout.
    now rewrite lookup_insert_eq. }
  split; [now rewrite B3|].
  destruct H6 as [key H6]. exists (sent w4), key. exact H6.
Qed.

End Ledger.

Lemma run_all_done_witness :
  let env := RunExamples.env RunExamples.accepting in
  let w := Examples.fresh in
  let url := "https://saurabhjha.co.in/blog/x" in
  let w' := (Main.run env w).2 in
  Main.run env w = (Main.AllDone url, w') /\
  let fetched := Main.fetch_news env w in
  let sitemap_url :=
    Str.rstrip_slash (site_base_url (Main.cfg env)) ++ "/sitemap.xml" in
  exists post,
    (Generator.generate_article (Main.cfg env) (Main.now env) (Main.groq env)
       fetched.1 fetched.2).1 = Some post /\
    (Post.slug post ∉ Main.load_published_slugs w) /\
    created (Publisher.create_reply (Main.backend env)) /\
    url = site_base_url (Main.cfg env) ++ "/blog/" ++ Post.slug post /\
    Main.load_published_slugs w' =
      {[Post.slug post]} ∪ Main.load_published_slugs w /\
    output_json w' !! Post.slug post = Some post /\
    (exists xml, sitemap_xml w' = Some xml) /\
    exists earlier key,
      sent w' =
        (earlier ++ [PostIndexNow url key; GetGooglePing sitemap_url;
                     GetBingPing sitemap_url])%list.
Proof.
  assert (H : Main.run (RunExamples.env RunExamples.accepting) Examples.fresh =
              (Main.AllDone "https://saurabhjha.co.in/blog/x",
               (Main.run (RunExamples.env RunExamples.accepting)
                  Examples.fresh).2))
    by (vm_compute; reflexivity).
  split; [exact H|].
  exact (run_all_done (RunExamples.env RunExamples.accepting) Examples.fresh
           _ _ H).
Defined.

(** ** publisher.py: the token cache and a successful submission *)

Section Publishing.

Import Publisher.

Lemma get_jwt_token_cached cfg backend w token :
  _cached_token w = Some token -> token <> "" ->
  get_jwt_token cfg backend w = (Some token, w).
Proof.
  intros Hc Hne. unfold get_jwt_token. rewrite Hc. simpl.
  apply String.eqb_neq in Hne. now rewrite Hne.
Qed.

(** X14. A token obtained by [get_jwt_token] is not empty and is cached:
    every later call in the same process returns it without sending a
    request, whatever the backend would answer. *)
Theorem get_jwt_token_logs_in_once cfg backend w token w1 :
  get_jwt_token cfg backend w = (Some token, w1) ->
  token <> "" /\ _cached_token w1 = Some token /\
  forall cfg' backend', get_jwt_token cfg' backend' w1 = (Some token, w1).
Proof.
  intros H.
  assert (R : token <> "" /\ _cached_token w1 = Some token).
  { unfold get_jwt_token in H.
    destruct (Str.truthy (_cached_token w)) eqn:T.
    - injection H as Hc <-.
      apply truthy_Some in T as [s [Hs Hne]].
      rewrite Hs in Hc. injection Hc as ->. now split.
    - destruct (login_reply backend) as [| | |status_code [body|]];
        try discriminate; simpl in H.
      + destruct (status_code =? 200)%Z; [|discriminate].
        destruct (Str.truthy body) eqn:Tb; [|discriminate].
        injection H as -> <-.
        apply truthy_Some in Tb as [s [Hs Hne]]. injection Hs as ->.
        now split.
      + destruct (status_code =? 200)%Z; discriminate. }
  destruct R as [Hne Hc]. split; [exact Hne|]. split; [exact Hc|].
  intros cfg' backend'. now apply get_jwt_token_cached.
Qed.

Lemma set_meta_pop_meta article meta :
  Post._meta article = Some meta ->
  Post.set_meta (Post.pop_meta article) meta = article.
Proof. destruct article. simpl. now intros ->. Qed.

(** X15. When a token is obtained and the creation call is answered with
    HTTP 201 and a body that decodes, [publish_article] returns the canonical
    URL of the metadata block, hands the caller's post back exactly as it was
    passed in, and writes that post, metadata included, to the backup file
    of its slug; the request it sent carried the post without metadata. *)
Theorem publish_article_success cfg backend article w token w1 meta url post_id :
  get_jwt_token cfg backend w = (Some token, w1) ->
  Post._meta article = Some meta ->
  Post.canonical_url meta = Some url ->
  create_reply backend = Http 201 (Some post_id) ->
  publish_article cfg backend article w =
    (Some url, article,
     set_output_json (Post.slug article) article
       (send (PostCreate (Str.rstrip_slash (api_base_url cfg) ++
                          posts_endpoint cfg)
                token (Post.pop_meta article)) w1)).
Proof.
  intros Ht Hm Hu Hr. unfold publish_article. rewrite Ht, Hr, Hm. simpl.
  rewrite Hu. simpl. unfold _save_local_backup.
  now rewrite (set_meta_pop_meta article meta Hm).
Qed.

End Publishing.

Lemma get_jwt_token_logs_in_once_witness :
  let w1 := (Publisher.get_jwt_token RunExamples.cfg RunExamples.accepting
               Examples.fresh).2 in
  Publisher.get_jwt_token RunExamples.cfg RunExamples.accepting Examples.fresh =
    (Some "jwt-token", w1) /\
  "jwt-token" <> "" /\ _cached_token w1 = Some "jwt-token" /\
  forall cfg' backend',
    Publisher.get_jwt_token cfg' backend' w1 = (Some "jwt-token", w1).
Proof.
  assert (H : Publisher.get_jwt_token RunExamples.cfg RunExamples.accepting
                Examples.fresh =
              (Some "jwt-token",
               (Publisher.get_jwt_token RunExamples.cfg RunExamples.accepting
                  Examples.fresh).2)) by reflexivity.
  split; [exact H|].
  exact (get_jwt_token_logs_in_once RunExamples.cfg RunExamples.accepting
           Examples.fresh "jwt-token" _ H).
Defined.

Lemma publish_article_success_witness :
  let cfg := RunExamples.cfg in
  let backend := RunExamples.accepting in
  let article := RunExamples.post_x in
  let w := Examples.fresh in
  let w1 := (Publisher.get_jwt_token cfg backend w).2 in
  let meta := {|
    Post.date := Some "2024-03-01";
    Post.reading_time := Some 5%Z;
    Post.meta_keywords := Some "";
    Post.canonical_url := Some "https://saurabhjha.co.in/blog/x" |} in
  Publisher.get_jwt_token cfg backend w = (Some "jwt-token", w1) /\
  Post._meta article = Some meta /\
  Post.canonical_url meta = Some "https://saurabhjha.co.in/blog/x" /\
  Publisher.create_reply backend = Http 201 (Some (Some "65f0c0ffee")) /\
  Publisher.publish_article cfg backend article w =
    (Some "https://saurabhjha.co.in/blog/x", article,
     set_output_json (Post.slug article) article
       (send (PostCreate (Str.rstrip_slash (api_base_url cfg) ++
                          posts_endpoint cfg)
                "jwt-token" (Post.pop_meta article)) w1)).
Proof.
  intros cfg backend article w w1 meta.
  assert (H1 : Publisher.get_jwt_token cfg backend w = (Some "jwt-token", w1))
    by reflexivity.
  assert (H2 : Post._meta article = Some meta) by reflexivity.
  assert (H3 : Post.canonical_url meta =
               Some "https://saurabhjha.co.in/blog/x") by reflexivity.
  assert (H4 : Publisher.create_reply backend =
               Http 201 (Some (Some "65f0c0ffee"))) by reflexivity.
  split; [exact H1|]. split; [exact H2|]. split; [exact H3|].
  split; [exact H4|].
  exact (publish_article_success cfg backend article w "jwt-token" w1 meta
           "https://saurabhjha.co.in/blog/x" (Some "65f0c0ffee") H1 H2 H3 H4).
Defined.

(** ** generator.py: the generated post *)

Section GeneratedPost.

Import Generator.

Lemma fromkeys_elem l x : x ∈ fromkeys l <-> x ∈ l.
Proof.
  induction l as [|y l IH]; simpl; [reflexivity|].
  rewrite !elem_of_cons, list_elem_of_filter, IH.
  destruct (decide (x = y)); tauto.
Qed.

Lemma fromkeys_NoDup l : NoDup (fromkeys l).
Proof.
  induction l as [|y l IH]; simpl; [constructor|].
  constructor; [|now apply NoDup_filter].
  rewrite list_elem_of_filter. tauto.
Qed.

Lemma filter_ext_in (P Q : string -> Prop) `{forall x, Decision (P x)}
    `{forall x, Decision (Q x)} (l : list string) :
  (forall x, P x <-> Q x) -> filter P l = filter Q l.
Proof.
  intros E. induction l as [|x l IH]; [reflexivity|].
  rewrite !filter_cons, IH.
  destruct (decide (P x)) as [p|p], (decide (Q x)) as [q|q];
    try reflexivity; exfalso; apply E in p || apply E in q; tauto.
Qed.

Lemma fromkeys_app a b :
  fromkeys (a ++ b) =
  (fromkeys a ++ filter (fun t => t ∉ a) (fromkeys b))%list.
Proof.
  induction a as [|x a IH]; simpl.
  - symmetry. apply filter_all, Forall_forall. intros t _ H. inversion H.
  - f_equal. rewrite IH, filter_app. f_equal.
    rewrite list_filter_filter. apply filter_ext_in.
    intros t. rewrite not_elem_of_cons. tauto.
Qed.

Lemma string_app_nil_r (s : string) : s ++ "" = s.
Proof.
  induction s as [|a s IH]; [reflexivity|].
  change (String a (s ++ "") = String a s). now rewrite IH.
Qed.

(** X16. A post returned by [generate_article] has the model's non-empty
    title, the slug of that title, a non-empty excerpt of at most 300
    characters, the status ["published"], a content that begins with the
    model's non-empty content, and a metadata block whose canonical URL is the
    site's base URL, [/blog/] and the slug; producing it took exactly one
    request to the model. *)
Theorem generate_article_post_shape cfg now groq articles w post w' :
  generate_article cfg now groq articles w = (Some post, w') ->
  Post.title post <> "" /\
  Post.slug post = slugify (Post.title post) /\
  String.length (Post.slug post) <= 80 /\
  Post.excerpt post <> "" /\ String.length (Post.excerpt post) <= 300 /\
  Post.status post = "published" /\ Post.author post = "TechNews Bot" /\
  (exists body rest, body <> "" /\ Post.content post = body ++ rest) /\
  (exists meta,
     Post._meta post = Some meta /\
     Post.canonical_url meta =
       Some (site_base_url cfg ++ "/blog/" ++ Post.slug post) /\
     Post.date meta = Some (Clock.strftime_date now)) /\
  w' = send (PostGroq (build_prompt articles)) w.
Proof.
  intros G.
  apply generate_article_inv in G
    as (raw & data & _ & _ & _ & Tt & Tc & Te & -> & G).
  cbv zeta in G. subst post. simpl.
  apply truthy_Some in Tt as [t [Ht Htne]].
  apply truthy_Some in Tc as [c [Hc Hcne]].
  apply truthy_Some in Te as [e [He Hene]].
  rewrite Ht, Hc, He. simpl.
  split; [exact Htne|]. split; [reflexivity|].
  split; [unfold slugify; rewrite length_str, length_take; lia|].
  split; [now apply slice_to_nonempty|].
  split; [unfold Str.slice_to; rewrite length_str, length_take; lia|].
  split; [reflexivity|]. split; [reflexivity|].
  split.
  { exists c. unfold content_with_sources. destruct (_ && _).
    - eexists. split; [exact Hcne | reflexivity].
    - exists "". split; [exact Hcne | now rewrite string_app_nil_r]. }
  split; [|reflexivity].
  eexists. split; [reflexivity|]. now split.
Qed.

(** X17. The tags of a post returned by [generate_article] hold no tag
    twice, begin with the default tags in their order, and are exactly the
    default tags and the tags the model returned. *)
Theorem generate_article_merges_tags cfg now groq articles w post w' :
  generate_article cfg now groq articles w = (Some post, w') ->
  NoDup (Post.tags post) /\
  (exists others, Post.tags post = (fromkeys (default_tags cfg) ++ others)%list) /\
  exists raw data,
    groq_answer groq = Some raw /\
    json_loads groq (strip_fences raw) = Some data /\
    forall t, t ∈ Post.tags post <->
              t ∈ default_tags cfg \/
              t ∈ from_option id (default_tags cfg) (data_tags data).
Proof.
  intros G.
  apply generate_article_inv in G
    as (raw & data & _ & Hraw & Hdata & _ & _ & _ & _ & G).
  cbv zeta in G. subst post. simpl.
  split; [apply fromkeys_NoDup|].
  split; [eexists; apply fromkeys_app|].
  exists raw, data. split; [exact Hraw|]. split; [exact Hdata|].
  intros t. now rewrite fromkeys_elem, elem_of_app.
Qed.

End GeneratedPost.

Lemma generate_article_post_shape_witness :
  let cfg := RunExamples.cfg in
  let now := Examples.noon in
  let fetched :=
    Main.fetch_news (RunExamples.env RunExamples.accepting) Examples.fresh in
  let post := RunExamples.post_x in
  let w' :=
    (Generator.generate_article cfg now RunExamples.groq fetched.1 fetched.2).2 in
  Generator.generate_article cfg now RunExamples.groq fetched.1 fetched.2 =
    (Some post, w') /\
  Post.title post <> "" /\
  Post.slug post = slugify (Post.title post) /\
  String.length (Post.slug post) <= 80 /\
  Post.excerpt post <> "" /\ String.length (Post.excerpt post) <= 300 /\
  Post.status post = "published" /\ Post.author post = "TechNews Bot" /\
  (exists body rest, body <> "" /\ Post.content post = body ++ rest) /\
  (exists meta,
     Post._meta post = Some meta /\
     Post.canonical_url meta =
       Some (site_base_url cfg ++ "/blog/" ++ Post.slug post) /\
     Post.date meta = Some (Clock.strftime_date now)) /\
  w' = send (PostGroq (Generator.build_prompt fetched.1)) fetched.2.
Proof.
  intros cfg now fetched post w'.
  assert (H : Generator.generate_article cfg now RunExamples.groq
                fetched.1 fetched.2 = (Some post, w'))
    by (vm_compute; reflexivity).
  split; [exact H|].
  exact (generate_article_post_shape cfg now RunExamples.groq fetched.1
           fetched.2 post w' H).
Defined.

Lemma generate_article_merges_tags_witness :
  let cfg := RunExamples.cfg in
  let now := Examples.noon in
  let groq := RunExamples.groq in
  let fetched :=
    Main.fetch_news (RunExamples.env RunExamples.accepting) Examples.fresh in
  let post := RunExamples.post_x in
  let w' := (Generator.generate_article cfg now groq fetched.1 fetched.2).2 in
  Generator.generate_article cfg now groq fetched.1 fetched.2 =
    (Some post, w') /\
  NoDup (Post.tags post) /\
  (exists others,
     Post.tags post =
       (Generator.fromkeys (default_tags cfg) ++ others)%list) /\
  exists raw data,
    Generator.groq_answer groq = Some raw /\
    Generator.json_loads groq (Generator.strip_fences raw) = Some data /\
    forall t, t ∈ Post.tags post <->
              t ∈ default_tags cfg \/
              t ∈ from_option id (default_tags cfg) (Generator.data_tags data).
Proof.
  intros cfg now groq fetched post w'.
  assert (H : Generator.generate_article cfg now groq fetched.1 fetched.2 =
              (Some post, w'))
    by (vm_compute; reflexivity).
  split; [exact H|].
  exact (generate_article_merges_tags cfg now groq fetched.1 fetched.2 post
           w' H).
Defined.

(** ** generator.py: code fences around the model's answer *)

Section Fences.

Import Generator.

Lemma lstrip_blank_app ws x : blank ws -> Text.lstrip (ws ++ x) = Text.lstrip x.
Proof.
  induction 1 as [|c ws Hc Hws IH]; simpl; [reflexivity|]. now rewrite Hc.
Qed.

Lemma rstrip_app_blank x ws : blank ws -> Text.rstrip (x ++ ws) = Text.rstrip x.
Proof.
  intros H. unfold Text.rstrip. rewrite rev_app_distr.
  rewrite lstrip_blank_app; [reflexivity|].
  unfold blank in *. rewrite Forall_forall in *. intros c Hc. apply H.
  rewrite list_elem_of_In in *. now apply in_rev.
Qed.

Lemma rstrip_solid l c :
  Text.is_space c = false -> Text.rstrip (l ++ [c]) = (l ++ [c])%list.
Proof.
  intros H. unfold Text.rstrip. rewrite rev_app_distr. simpl. rewrite H.
  simpl. now rewrite rev_involutive.
Qed.

Lemma strip_padded ws1 c l d ws2 :
  blank ws1 -> blank ws2 ->
  Text.is_space c = false -> Text.is_space d = false ->
  Text.strip (ws1 ++ (c :: l ++ [d]) ++ ws2) = (c :: l ++ [d])%list.
Proof.
  intros H1 H2 Hc Hd. unfold Text.strip.
  rewrite lstrip_blank_app by exact H1.
  assert (L : Text.lstrip ((c :: l ++ [d]) ++ ws2) = ((c :: l ++ [d]) ++ ws2)%list)
    by (cbn [app Text.lstrip]; now rewrite Hc).
  rewrite L, (rstrip_app_blank (c :: l ++ [d]) ws2 H2).
  now apply (rstrip_solid (c :: l)).
Qed.

Lemma sub_trailing_fence_cut x d ws :
  blank ws -> Text.is_space d = false ->
  sub_trailing_fence ((x ++ [d]) ++ ws ++ chars "```") = (x ++ [d])%list.
Proof.
  intros Hws Hd. unfold sub_trailing_fence.
  rewrite !rev_app_distr, <- app_assoc.
  set (rest := (rev ws ++ rev [d] ++ rev x)%list).
  change (rev (chars "```") ++ rest)%list
    with ("`"%char :: "`"%char :: "`"%char :: rest).
  cbv beta iota.
  replace (Str.is_prefix (chars "```")
             ("`"%char :: "`"%char :: "`"%char :: rest))
    with true by reflexivity.
  change (drop 3 ("`"%char :: "`"%char :: "`"%char :: rest)) with rest.
  cbv beta iota. unfold rest. rewrite lstrip_blank_app.
  - simpl. rewrite Hd. simpl. now rewrite rev_involutive.
  - unfold blank in *. rewrite Forall_forall in *. intros c Hc. apply Hws.
    rewrite list_elem_of_In in *. now apply in_rev.
Qed.

Lemma is_prefix_app p x : Str.is_prefix p (p ++ x) = true.
Proof. apply is_prefix_spec. now exists x. Qed.

Lemma sub_leading_fence_cut fence ws c x :
  blank ws -> Text.is_space c = false ->
  sub_leading_fence fence (chars fence ++ ws ++ c :: x) = c :: x.
Proof.
  intros Hws Hc. unfold sub_leading_fence.
  rewrite is_prefix_app, drop_app_length, lstrip_blank_app by exact Hws.
  simpl. now rewrite Hc.
Qed.

Lemma sub_trailing_fence_none x d :
  Ascii.eqb d "`" = false -> Ascii.eqb d "010" = false ->
  sub_trailing_fence (x ++ [d]) = (x ++ [d])%list.
Proof.
  intros H1 H2. unfold sub_trailing_fence. rewrite rev_app_distr.
  simpl rev at 1. cbn [app]. cbv beta iota.
  replace (Str.is_prefix (chars "```") (d :: rev x)) with false.
  - now rewrite H2.
  - change (Str.is_prefix (chars "```") (d :: rev x))
      with (Ascii.eqb "`" d && Str.is_prefix (chars "``") (rev x)).
    rewrite Ascii.eqb_sym. now rewrite H1.
Qed.

Lemma json_object_strip inner : Text.strip (json_object inner) = json_object inner.
Proof.
  pose proof (strip_padded [] "{" inner "}" [] (Forall_nil_2 _) (Forall_nil_2 _)
                eq_refl eq_refl) as H.
  now rewrite app_nil_r in H.
Qed.

Lemma not_json_after_fence ws inner x :
  blank ws ->
  Str.is_prefix (chars "```json")
    (chars "```" ++ ws ++ json_object inner ++ x) = false.
Proof.
  intros Hws. destruct Hws as [|c ws Hc _].
  - reflexivity.
  - simpl. destruct c as [[] [] [] [] [] [] [] []]; try reflexivity;
      discriminate Hc.
Qed.

(** X18. [strip_fences] recovers a JSON object from the model's answer
    whether the answer is the object alone, or the object between a
    [```json] or a [```] fence and a closing [```] fence, with any whitespace
    around the object and around the fences. *)
Theorem strip_fences_unwraps inner ws1 ws2 ws3 ws4 :
  blank ws1 -> blank ws2 -> blank ws3 -> blank ws4 ->
  let body := json_object inner in
  strip_fences
    (str (ws1 ++ chars "```json" ++ ws2 ++ body ++ ws3 ++ chars "```" ++ ws4)) =
    str body /\
  strip_fences
    (str (ws1 ++ chars "```" ++ ws2 ++ body ++ ws3 ++ chars "```" ++ ws4)) =
    str body /\
  strip_fences (str (ws1 ++ body ++ ws4)) = str body.
Proof.
  intros H1 H2 H3 H4 body.
  assert (Hcut : sub_trailing_fence (body ++ ws3 ++ chars "```") = body).
  { apply (sub_trailing_fence_cut ("{"%char :: inner) "}" ws3 H3 eq_refl). }
  assert (Hnone : sub_leading_fence "```" (body ++ ws3 ++ chars "```") =
                  (body ++ ws3 ++ chars "```")%list) by reflexivity.
  assert (Hstrip : forall fence : list ascii,
            Text.strip
              (ws1 ++ ("`"%char :: fence) ++ ws2 ++ body ++ ws3 ++
               chars "```" ++ ws4) =
            (("`"%char :: fence) ++ ws2 ++ body ++ ws3 ++ chars "```")%list).
  { intros fence.
    pose proof (strip_padded ws1 "`"
                  (fence ++ ws2 ++ body ++ ws3 ++ chars "``") "`" ws4
                  H1 H4 eq_refl eq_refl) as E.
    etransitivity; [|etransitivity; [exact E|]]; [f_equal|];
      simpl; repeat (rewrite <- ?app_assoc; simpl); reflexivity. }
  split; [|split].
  - unfold strip_fences. rewrite chars_str.
    change (chars "```json") with ("`"%char :: chars "``json"). rewrite Hstrip.
    change ("`"%char :: chars "``json") with (chars "```json").
    unfold body at 1, json_object. cbn [app].
    rewrite (sub_leading_fence_cut "```json" ws2 "{" _ H2 eq_refl).
    change ("{"%char :: (inner ++ ["}"%char]) ++ ws3 ++ chars "```")%list
      with (body ++ ws3 ++ chars "```")%list.
    rewrite Hnone, Hcut. unfold body. now rewrite json_object_strip.
  - unfold strip_fences. rewrite chars_str.
    change (chars "```") with ("`"%char :: chars "``") at 1. rewrite Hstrip.
    change ("`"%char :: chars "``") with (chars "```").
    unfold sub_leading_fence at 2.
    rewrite (not_json_after_fence ws2 inner _ H2).
    unfold body at 1, json_object. cbn [app].
    rewrite (sub_leading_fence_cut "```" ws2 "{" _ H2 eq_refl).
    change ("{"%char :: (inner ++ ["}"%char]) ++ ws3 ++ chars "```")%list
      with (body ++ ws3 ++ chars "```")%list.
    rewrite Hcut. unfold body. now rewrite json_object_strip.
  - unfold strip_fences. rewrite chars_str. unfold body, json_object.
    rewrite (strip_padded ws1 "{" inner "}" ws4 H1 H4 eq_refl eq_refl).
    change (sub_leading_fence "```json" ("{"%char :: inner ++ ["}"%char]))
      with ("{"%char :: inner ++ ["}"%char]).
    change (sub_leading_fence "```" ("{"%char :: inner ++ ["}"%char]))
      with ("{"%char :: inner ++ ["}"%char]).
    pose proof (sub_trailing_fence_none ("{"%char :: inner) "}"
                  eq_refl eq_refl) as T.
    cbn [app] in T. rewrite T.
    pose proof (json_object_strip inner) as S. unfold json_object in S.
    cbn [app] in S. now rewrite S.
Qed.

End Fences.

Lemma strip_fences_unwraps_witness :
  let inner := chars "k" in
  let ws1 := [" "%char] in
  let ws2 := ["010"%char] in
  let ws3 := ["010"%char] in
  let ws4 := ["010"%char; " "%char] in
  blank ws1 /\ blank ws2 /\ blank ws3 /\ blank ws4 /\
  let body := json_object inner in
  Generator.strip_fences
    (str (ws1 ++ chars "```json" ++ ws2 ++ body ++ ws3 ++ chars "```" ++ ws4)) =
    str body /\
  Generator.strip_fences
    (str (ws1 ++ chars "```" ++ ws2 ++ body ++ ws3 ++ chars "```" ++ ws4)) =
    str body /\
  Generator.strip_fences (str (ws1 ++ body ++ ws4)) = str body.
Proof.
  intros inner ws1 ws2 ws3 ws4.
  assert (H1 : blank ws1) by (repeat constructor).
  assert (H2 : blank ws2) by (repeat constructor).
  assert (H3 : blank ws3) by (repeat constructor).
  assert (H4 : blank ws4) by (repeat constructor).
  split; [exact H1|]. split; [exact H2|]. split; [exact H3|].
  split; [exact H4|].
  exact (strip_fences_unwraps inner ws1 ws2 ws3 ws4 H1 H2 H3 H4).
Defined.

(** ** generator.py and main.py: the model is not configured *)

Section Unconfigured.

Import Generator.

Lemma generate_article_no_key cfg now groq articles w :
  Str.contains "YOUR_" (groq_api_key cfg) = true ->
  generate_article cfg now groq articles w = (None, w).
Proof. intros H. unfold generate_article, call_groq. now rewrite H. Qed.

(** X19. While the Groq key still holds the placeholder [YOUR_] of
    config.py, a run never gets past the generation step: it ends with no
    articles or with a failed generation, in the state the aggregator left,
    having sent the aggregator's requests only. *)
Theorem run_without_groq_key env w :
  Str.contains "YOUR_" (groq_api_key (Main.cfg env)) = true ->
  Main.run env w =
    (if bool_decide ((Main.fetch_news env w).1 = [])
     then Main.NoArticles else Main.GenerationFailed,
     (Main.fetch_news env w).2) /\
  only_sent is_fetch w (Main.run env w).2.
Proof.
  intros H.
  assert (E : Main.run env w =
              (if bool_decide ((Main.fetch_news env w).1 = [])
               then Main.NoArticles else Main.GenerationFailed,
               (Main.fetch_news env w).2)).
  { unfold Main.run. destruct (Main.fetch_news env w) as [articles w1].
    simpl. case_bool_decide; [reflexivity|].
    now rewrite (generate_article_no_key _ _ _ _ _ H). }
  split; [exact E|]. rewrite E. simpl. apply fetch_news_only_fetches.
Qed.

End Unconfigured.

Lemma run_without_groq_key_witness :
  Str.contains "YOUR_" (groq_api_key (Main.cfg unconfigured_env)) = true /\
  Main.run unconfigured_env Examples.fresh =
    (if bool_decide ((Main.fetch_news unconfigured_env Examples.fresh).1 = [])
     then Main.NoArticles else Main.GenerationFailed,
     (Main.fetch_news unconfigured_env Examples.fresh).2) /\
  only_sent is_fetch Examples.fresh
    (Main.run unconfigured_env Examples.fresh).2.
Proof.
  assert (H : Str.contains "YOUR_" (groq_api_key (Main.cfg unconfigured_env)) =
              true) by reflexivity.
  split; [exact H|].
  exact (run_without_groq_key unconfigured_env Examples.fresh H).
Defined.

(** ** sitemap.py: the pages of the listing *)

Section Listing.

Import Sitemap.

Lemma page_entries_updated now posts :
  Forall (fun e => String.length (updated e) <= 10) (page_entries now posts).1.
Proof.
  induction posts as [|post rest IH]; cbn [page_entries]; [constructor|].
  destruct (item_slug post); [|constructor].
  destruct (page_entries now rest) as [entries raised]. simpl in *.
  constructor; [|exact IH]. simpl.
  unfold Str.slice_to. rewrite length_str, length_take. lia.
Qed.

Lemma fetch_pages_requests now listing :
  forall page slugs w,
    exists n more,
      1 <= n <= S (length listing) /\
      sent (fetch_pages now listing page slugs w).2 =
        (sent w ++ map GetPosts (seq page n))%list /\
      (fetch_pages now listing page slugs w).1 = (slugs ++ more)%list /\
      Forall (fun e => String.length (updated e) <= 10) more.
Proof.
  assert (Stop : forall (k : nat) page slugs more w,
            Forall (fun e => String.length (updated e) <= 10) more ->
            exists n more',
              1 <= n <= S k /\
              sent (send (GetPosts page) w) =
                (sent w ++ map GetPosts (seq page n))%list /\
              (slugs ++ more)%list = (slugs ++ more')%list /\
              Forall (fun e => String.length (updated e) <= 10) more').
  { intros k page slugs more w Hm. exists 1, more. repeat split; [lia|lia|exact Hm]. }
  assert (Stop0 : forall (k : nat) page slugs w,
            exists n more',
              1 <= n <= S k /\
              sent (send (GetPosts page) w) =
                (sent w ++ map GetPosts (seq page n))%list /\
              slugs = (slugs ++ more')%list /\
              Forall (fun e => String.length (updated e) <= 10) more').
  { intros k page slugs w. exists 1, []. rewrite app_nil_r.
    repeat split; [lia|lia|constructor]. }
  induction listing as [|r later IH]; intros page slugs w;
    cbn [fetch_pages]; [apply Stop0|].
  destruct r as [| | |status_code [data|]]; try apply Stop0.
  - destruct (negb (status_code =? 200)%Z); [apply Stop0|].
    case_bool_decide; [apply Stop0|].
    pose proof (page_entries_updated now (posts data)) as Hu.
    destruct (page_entries now (posts data)) as [entries raised].
    simpl in Hu.
    destruct raised; [now apply Stop|].
    destruct (_ <=? _)%nat; [now apply Stop|].
    destruct (IH (page + 1) (slugs ++ entries)%list (send (GetPosts page) w))
      as (n & more & Hn & Hs & He & Hm).
    exists (S n), (entries ++ more)%list.
    split; [simpl; lia|]. split; [|split].
    + rewrite Hs. simpl. rewrite <- app_assoc. simpl.
      now rewrite Nat.add_1_r.
    + rewrite He. now rewrite app_assoc.
    + apply Forall_app. now split.
  - destruct (negb (status_code =? 200)%Z); apply Stop0.
Qed.

(** X20. [fetch_all_slugs] asks for the pages 1, 2, 3, ... in this order,
    without a gap and each once, at least for page 1; every entry it returns
    has a date of at most ten characters. *)
Theorem fetch_all_slugs_requests now listing w :
  (exists n, 1 <= n /\
     sent (fetch_all_slugs now listing w).2 =
       (sent w ++ map GetPosts (seq 1 n))%list) /\
  Forall (fun e => String.length (updated e) <= 10)
         (fetch_all_slugs now listing w).1.
Proof.
  unfold fetch_all_slugs.
  destruct (fetch_pages_requests now listing 1 [] w)
    as (n & more & Hn & Hs & He & Hm).
  split.
  - exists n. split; [lia | exact Hs].
  - now rewrite He.
Qed.

Lemma page_entries_full now posts :
  Forall (fun p => item_slug p <> None) posts ->
  (page_entries now posts).2 = false /\
  map slug (page_entries now posts).1 = omap item_slug posts.
Proof.
  induction 1 as [|post rest Hp Hr [IH1 IH2]]; cbn [page_entries];
    [now split|].
  csimpl. destruct (item_slug post) as [s|]; [|contradiction].
  destruct (page_entries now rest) as [entries raised]. simpl in *.
  split; [exact IH1 | now rewrite IH2].
Qed.

Lemma fetch_pages_complete now total pages :
  forall rest page slugs w,
    pages <> [] -> Forall full_page pages ->
    page + length pages = S total ->
    sent (fetch_pages now (map (listed_page total) pages ++ rest)
            page slugs w).2 =
      (sent w ++ map GetPosts (seq page (length pages)))%list /\
    map slug (fetch_pages now (map (listed_page total) pages ++ rest)
                page slugs w).1 =
      (map slug slugs ++ omap item_slug (concat pages))%list.
Proof.
  induction pages as [|ps pages IH]; intros rest page slugs w Hne Hfull Hlen;
    [contradiction|].
  apply Forall_cons in Hfull as [[Hps Hslugs] Hfull].
  cbn [map app fetch_pages listed_page].
  change (negb (200 =? 200)%Z) with false. cbv iota.
  cbn [posts totalPages from_option id].
  rewrite bool_decide_eq_false_2 by exact Hps.
  destruct (page_entries_full now ps Hslugs) as [Hraised Hentries].
  destruct (page_entries now ps) as [entries raised]. simpl in Hraised, Hentries.
  subst raised. cbn [concat]. rewrite omap_app, <- Hentries.
  destruct pages as [|ps2 pages].
  - simpl in Hlen.
    replace (total <=? page)%nat with true
      by (symmetry; apply Nat.leb_le; lia).
    simpl. rewrite map_app, app_nil_r. now split.
  - replace (total <=? page)%nat with false
      by (symmetry; apply Nat.leb_gt; simpl in Hlen; lia).
    destruct (IH rest (page + 1) (slugs ++ entries)%list
                (send (GetPosts page) w)) as [Hs He];
      [discriminate | exact Hfull | simpl in Hlen |- *; lia |].
    split.
    + rewrite Hs. simpl. rewrite <- app_assoc. simpl.
      now rewrite Nat.add_1_r.
    + rewrite He. rewrite map_app. now rewrite app_assoc.
Qed.

(** X21. When the backend answers each of its pages with HTTP 200, a
    non-empty list of posts that all have a slug, and the number of pages,
    [fetch_all_slugs] returns the slugs of all posts of all pages in the
    backend's order, having asked for each page once and for nothing after
    the last page. *)
Theorem fetch_all_slugs_reads_every_page now pages rest w :
  pages <> [] -> Forall full_page pages ->
  map slug
    (fetch_all_slugs now (map (listed_page (length pages)) pages ++ rest) w).1 =
    omap item_slug (concat pages) /\
  sent (fetch_all_slugs now
          (map (listed_page (length pages)) pages ++ rest) w).2 =
    (sent w ++ map GetPosts (seq 1 (length pages)))%list.
Proof.
  intros Hne Hfull. unfold fetch_all_slugs.
  destruct (fetch_pages_complete now (length pages) pages rest 1 [] w
              Hne Hfull eq_refl) as [Hs He].
  split; [exact He | exact Hs].
Qed.

End Listing.

Lemma fetch_all_slugs_reads_every_page_witness :
  let pages :=
    [[SitemapExamples.listed_post "a"; SitemapExamples.listed_post "b"];
     [SitemapExamples.listed_post "c"]] in
  let listing := (map (listed_page (length pages)) pages ++ [Timeout])%list in
  pages <> [] /\ Forall full_page pages /\
  map Sitemap.slug
    (Sitemap.fetch_all_slugs Examples.noon listing Examples.fresh).1 =
    omap Sitemap.item_slug (concat pages) /\
  sent (Sitemap.fetch_all_slugs Examples.noon listing Examples.fresh).2 =
    (sent Examples.fresh ++ map GetPosts (seq 1 (length pages)))%list.
Proof.
  intros pages listing.
  assert (H1 : pages <> []) by discriminate.
  assert (H2 : Forall full_page pages)
    by (repeat constructor; discriminate).
  split; [exact H1|]. split; [exact H2|].
  exact (fetch_all_slugs_reads_every_page Examples.noon pages [Timeout]
           Examples.fresh H1 H2).
Defined.

(** ** indexer.py: the IndexNow key *)

Section IndexNowKey.

Import Indexer.

Lemma is_hex_slug_char c : is_hex c = true -> slug_char c = true.
Proof.
  destruct c as [[] [] [] [] [] [] [] []]; intros H; try reflexivity;
    discriminate H.
Qed.

Lemma string_length_chars s : String.length s = length (chars s).
Proof. now rewrite <- (str_chars s) at 1; rewrite length_str. Qed.

(** X22. The IndexNow key is stable: whatever [get_or_create_indexnow_key]
    returns is not empty and is returned again by every later call, which
    then leaves the key file alone; a call either changes nothing or stores a
    new key of 40 characters. *)
Theorem indexnow_key_is_stable engines w :
  uuid_hex (uuid4_hex_1 engines) -> uuid_hex (uuid4_hex_2 engines) ->
  let r := get_or_create_indexnow_key engines w in
  r.1 <> "" /\
  (forall engines', get_or_create_indexnow_key engines' r.2 = r) /\
  (r.2 = w \/
   r.2 = set_indexnow_key_txt r.1 w /\ String.length r.1 = 40).
Proof.
  intros [L1 X1] [L2 X2]. unfold get_or_create_indexnow_key.
  destruct (Str.truthy _) eqn:T; simpl.
  - split; [|split; [|now left]].
    + destruct (indexnow_key_txt w) as [text|]; [|discriminate T].
      simpl in *. intros E. rewrite E in T. discriminate T.
    + intros engines'. now rewrite T.
  - set (key := (uuid4_hex_1 engines ++
                 Str.slice_to 8 (uuid4_hex_2 engines))%string).
    assert (Hchars : chars key =
                     (chars (uuid4_hex_1 engines) ++
                      take 8 (chars (uuid4_hex_2 engines)))%list).
    { unfold key, Str.slice_to. now rewrite chars_app, chars_str. }
    assert (Hlen : String.length key = 40).
    { rewrite string_length_chars, Hchars, length_app, length_take.
      rewrite <- !string_length_chars. lia. }
    assert (Hstrip : str (Text.strip (chars key)) = key).
    { rewrite strip_id; [apply str_chars|].
      rewrite Hchars. apply Forall_app. split.
      - eapply Forall_impl; [exact X1|]. apply is_hex_slug_char.
      - apply Forall_take. eapply Forall_impl; [exact X2|].
        apply is_hex_slug_char. }
    assert (Hne : key <> "") by (intros E; rewrite E in Hlen; discriminate).
    split; [exact Hne|]. split; [|right; now split].
    intros engines'. simpl. rewrite Hstrip.
    destruct key; [contradiction | reflexivity].
Qed.

End IndexNowKey.

Lemma indexnow_key_is_stable_witness :
  let engines := RunExamples.engines 200 in
  let r := Indexer.get_or_create_indexnow_key engines Examples.fresh in
  uuid_hex (Indexer.uuid4_hex_1 engines) /\
  uuid_hex (Indexer.uuid4_hex_2 engines) /\
  r.1 <> "" /\
  (forall engines', Indexer.get_or_create_indexnow_key engines' r.2 = r) /\
  (r.2 = Examples.fresh \/
   r.2 = set_indexnow_key_txt r.1 Examples.fresh /\ String.length r.1 = 40).
Proof.
  intros engines r.
  assert (H1 : uuid_hex (Indexer.uuid4_hex_1 engines))
    by (split; [reflexivity | repeat constructor]).
  assert (H2 : uuid_hex (Indexer.uuid4_hex_2 engines))
    by (split; [reflexivity | repeat constructor]).
  split; [exact H1|]. split; [exact H2|].
  exact (indexnow_key_is_stable engines Examples.fresh H1 H2).
Defined.

(** ** generator.py: the shape of a slug *)

Section SlugShape.

Lemma front_take n s :
  no_hyphen_in_front s = true -> no_hyphen_in_front (take n s) = true.
Proof. destruct n, s; simpl; auto. Qed.

Lemma char_follows_front s :
  char_follows s = true -> no_hyphen_in_front s = true.
Proof. destruct s; simpl; [discriminate | auto]. Qed.

Lemma sluggy_take_no_double n :
  forall s, sluggy s = true -> no_double_hyphen (take n s) = true.
Proof.
  induction n as [|n IH]; intros [|c r] H; try reflexivity.
  cbn [take no_double_hyphen]. cbn [sluggy] in H.
  apply andb_prop in H as [H Hr]. apply andb_prop in H as [_ Hc].
  rewrite (IH r Hr), andb_true_r.
  destruct (Text.is_hyphen c); [|reflexivity].
  now rewrite (front_take n r (char_follows_front r Hc)).
Qed.

Lemma sluggy_end s : sluggy s = true -> ends_with_hyphen s = false.
Proof.
  unfold ends_with_hyphen.
  induction s as [|c r IH]; [reflexivity|]. cbn [sluggy]. intros H.
  apply andb_prop in H as [H Hr]. apply andb_prop in H as [_ Hc].
  destruct r as [|d r].
  - simpl. destruct (Text.is_hyphen c); [discriminate Hc | reflexivity].
  - change (last (c :: d :: r)) with (last (d :: r)). exact (IH Hr).
Qed.

(** X23. For every title in ASCII, the slug has at most 80 characters, all
    of them lowercase letters, digits or hyphens, does not begin with a
    hyphen and has no two hyphens in a row; when the slug did not have to be
    cut it does not end with a hyphen either, and [slugify] maps it to
    itself.  (Outside ASCII, [\w] keeps letters such as an accented e, which
    are not among these characters.) *)
Theorem slugify_shape text :
  ascii_text text ->
  let s := chars (slugify text) in
  length s <= 80 /\
  Forall (fun c => slug_char c = true) s /\
  no_hyphen_in_front s = true /\
  no_double_hyphen s = true /\
  (length (slugify_uncut (chars text)) <= 80 ->
   ends_with_hyphen s = false /\ slugify (slugify text) = slugify text).
Proof.
  intros _.
  pose proof (slugify_uncut_is_slug (chars text)) as H.
  apply andb_prop in H as [Hf Hs].
  unfold slugify. rewrite chars_str. cbv zeta.
  split; [rewrite length_take; lia|].
  split; [apply Forall_take, slugify_uncut_chars|].
  split; [now apply front_take|].
  split; [now apply sluggy_take_no_double|].
  intros Hlen. split.
  - rewrite take_ge by exact Hlen. now apply sluggy_end.
  - pose proof (slugify_idempotent_below_cap text Hlen) as I.
    unfold slugify in I. now rewrite chars_str in I.
Qed.

End SlugShape.

Lemma slugify_shape_witness :
  let text := "  Hello, World -- AI_2024!  " in
  ascii_text text /\
  let s := chars (slugify text) in
  length s <= 80 /\
  Forall (fun c => slug_char c = true) s /\
  no_hyphen_in_front s = true /\
  no_double_hyphen s = true /\
  (length (slugify_uncut (chars text)) <= 80 ->
   ends_with_hyphen s = false /\ slugify (slugify text) = slugify text).
Proof.
  intros text.
  assert (H : ascii_text text)
    by (unfold ascii_text; simpl; repeat (constructor; [reflexivity|]);
        constructor).
  split; [exact H|].
  exact (slugify_shape text H).
Defined.

(** ** deduplicate: the normalized title key *)

Section NormalizedKey.

Import Fetcher.

Lemma is_space_not_word c : Text.is_space c = true -> Text.is_word c = false.
Proof.
  destruct c as [[] [] [] [] [] [] [] []]; intros H; try reflexivity;
    discriminate H.
Qed.

Lemma is_word_not_space c : Text.is_word c = true -> Text.is_space c = false.
Proof.
  intros H. destruct (Text.is_space c) eqn:E; [|reflexivity].
  apply is_space_not_word in E. congruence.
Qed.

Lemma lower_char_space c : Text.is_space c = true -> Text.lower_char c = c.
Proof.
  destruct c as [[] [] [] [] [] [] [] []]; intros H; try reflexivity;
    discriminate H.
Qed.

Lemma lower_char_word c :
  Text.is_word c = true -> Text.is_word (Text.lower_char c) = true.
Proof.
  destruct c as [[] [] [] [] [] [] [] []]; intros H; try reflexivity;
    discriminate H.
Qed.

Lemma lower_blank g : blank g -> Text.lower g = g.
Proof.
  induction 1 as [|c g Hc Hg IH]; simpl; [reflexivity|].
  now rewrite (lower_char_space c Hc), IH.
Qed.

Lemma lower_word w : word w -> word (Text.lower w).
Proof.
  intros [Hne Hw]. split.
  - destruct w; [contradiction | discriminate].
  - unfold Text.lower. apply Forall_map.
    eapply Forall_impl; [exact Hw|]. apply lower_char_word.
Qed.

Lemma lower_spell first more :
  Forall (fun gw => gap gw.1 /\ word gw.2) more ->
  Text.lower (spell first more) =
  spell (Text.lower first) (map (fun gw => (gw.1, Text.lower gw.2)) more).
Proof.
  intros H. unfold spell, Text.lower. rewrite map_app. f_equal.
  induction H as [|[g w] more [[_ Hg] _] Hmore IH]; [reflexivity|].
  cbn [map concat fst snd]. rewrite !map_app, IH.
  pose proof (lower_blank g Hg) as E. unfold Text.lower in E.
  now rewrite E.
Qed.

(** Words, gaps and the ends of what they spell. *)
Lemma word_last w :
  word w -> exists l d, w = (l ++ [d])%list /\ Text.is_word d = true.
Proof.
  intros [Hne Hw]. destruct (last w) as [d|] eqn:E.
  - pose proof (last_Some_elem_of _ _ E) as Hd.
    apply last_Some in E as [l ->]. exists l, d. split; [reflexivity|].
    rewrite Forall_forall in Hw. now apply Hw.
  - apply last_None in E. contradiction.
Qed.

Lemma word_head w :
  word w -> exists c r, w = c :: r /\ Text.is_word c = true.
Proof.
  intros [Hne Hw]. destruct w as [|c r]; [contradiction|].
  exists c, r. split; [reflexivity|]. now apply Forall_cons in Hw as [Hc _].
Qed.

Lemma gap_head g x :
  gap g -> Str.word_at (head (g ++ x)) = false.
Proof.
  intros [Hne Hg]. destruct g as [|c r]; [contradiction|]. simpl.
  apply Forall_cons in Hg as [Hc _]. now apply is_space_not_word.
Qed.

Lemma gap_prev_after p g : gap g -> Str.word_at (prev_after p g) = false.
Proof.
  intros [Hne Hg]. unfold prev_after. destruct (last g) as [c|] eqn:E.
  - apply last_Some_elem_of in E. rewrite Forall_forall in Hg. simpl.
    apply is_space_not_word. now apply Hg.
  - apply last_None in E. contradiction.
Qed.

Lemma prev_after_cons p c u : prev_after p (c :: u) = prev_after (Some c) u.
Proof. unfold prev_after. rewrite last_cons. now destruct (last u). Qed.

Lemma prev_after_word p w : word w -> Str.word_at (prev_after p w) = true.
Proof.
  intros H. destruct (word_last w H) as (l & d & -> & Hd).
  unfold prev_after. now rewrite last_snoc.
Qed.

(** [find] on a list in which only [w] can satisfy the test. *)
Lemma find_only {A} `{EqDecision A} (f : A -> bool) (l : list A) (w : A) :
  (forall x, x ∈ l -> f x = true <-> x = w) ->
  find f l = if bool_decide (w ∈ l) then Some w else None.
Proof.
  induction l as [|a l IH]; intros H; cbn [find].
  - rewrite bool_decide_eq_false_2; [reflexivity|]. intros Hin. inversion Hin.
  - destruct (f a) eqn:E.
    + apply (H a) in E; [|left]. subst a.
      rewrite bool_decide_eq_true_2; [reflexivity | left].
    + assert (Hne : a <> w).
      { intros ->. assert (f w = true) by (apply H; [left | reflexivity]).
        congruence. }
      rewrite IH by (intros x Hx; apply H; now right).
      destruct (bool_decide (w ∈ l)) eqn:D.
      * apply bool_decide_eq_true in D.
        rewrite bool_decide_eq_true_2; [reflexivity | now right].
      * apply bool_decide_eq_false in D.
        rewrite bool_decide_eq_false_2; [reflexivity|].
        intros Hin. apply elem_of_cons in Hin as [-> | Hin]; tauto.
Qed.

Lemma find_none {A} (f : A -> bool) (l : list A) :
  (forall x, x ∈ l -> f x = false) -> find f l = None.
Proof.
  induction l as [|a l IH]; intros H; simpl; [reflexivity|].
  rewrite (H a) by left. apply IH. intros x Hx. apply H. now right.
Qed.

Lemma stop_words_are_words : Forall word (map chars Str.stop_words).
Proof.
  repeat (constructor; [split; [discriminate | repeat constructor]|]).
  constructor.
Qed.

(** An alternative of the pattern matches at the start of a word exactly when
    it is the whole word. *)
Lemma stop_match sw w x :
  word sw -> word w -> Str.word_at (head x) = false ->
  Str.is_prefix sw (w ++ x) &&
  Str.boundary (last sw) (head (drop (length sw) (w ++ x))) = true <->
  sw = w.
Proof.
  intros Hsw Hw Hx. split.
  - intros H. apply andb_prop in H as [Hp Hb].
    apply is_prefix_spec in Hp as [post Hp]. rewrite Hp in Hb.
    rewrite drop_app_length in Hb.
    destruct (word_last sw Hsw) as (l & d & Hl & Hd).
    assert (Hpost : Str.word_at (head post) = false).
    { rewrite Hl, last_snoc in Hb. unfold Str.boundary in Hb. simpl in Hb.
      rewrite Hd in Hb. simpl in Hb. now apply negb_true_iff in Hb. }
    destruct Hsw as [_ Hsw]. destruct Hw as [_ Hw].
    apply app_eq_app in Hp as [m [[-> ->] | [-> ->]]].
    + destruct m as [|c m]; [now rewrite app_nil_r|]. exfalso.
      apply Forall_app in Hw as [_ Hw]. apply Forall_cons in Hw as [Hc _].
      simpl in Hpost. congruence.
    + destruct m as [|c m]; [now rewrite app_nil_r|]. exfalso.
      apply Forall_app in Hsw as [_ Hsw]. apply Forall_cons in Hsw as [Hc _].
      simpl in Hx. congruence.
  - intros ->. rewrite is_prefix_app, drop_app_length. simpl.
    destruct (word_last w Hw) as (l & d & -> & Hd). rewrite last_snoc.
    unfold Str.boundary. simpl. now rewrite Hd, Hx.
Qed.

Lemma stop_word_at_word p w x :
  word w -> Str.word_at p = false -> Str.word_at (head x) = false ->
  Str.stop_word_at p (w ++ x) =
  if is_stop_word w then Some (length w) else None.
Proof.
  intros Hw Hp Hx. unfold Str.stop_word_at, is_stop_word.
  destruct (word_head w Hw) as (c & r & Hc & Hword).
  assert (Hb : Str.boundary p (head (w ++ x)) = true).
  { rewrite Hc. unfold Str.boundary. simpl. now rewrite Hp, Hword. }
  rewrite Hb.
  rewrite (find_only _ _ w).
  - now destruct (bool_decide _).
  - intros sw Hin. apply stop_match; [|exact Hw | exact Hx].
    pose proof stop_words_are_words as Hall.
    rewrite Forall_forall in Hall. now apply Hall.
Qed.

Lemma stop_word_at_space p c r :
  Text.is_space c = true -> Str.stop_word_at p (c :: r) = None.
Proof.
  intros Hc. unfold Str.stop_word_at. destruct (Str.boundary _ _); [|reflexivity].
  rewrite find_none; [reflexivity|].
  intros sw Hin. pose proof stop_words_are_words as Hall.
  rewrite Forall_forall in Hall. apply Hall in Hin.
  destruct (word_head sw Hin) as (a & q & -> & Ha). simpl.
  destruct (Ascii.eqb a c) eqn:E; [|reflexivity].
  apply Ascii.eqb_eq in E. subst a.
  apply is_space_not_word in Hc. congruence.
Qed.

(** The substitution of the stop words, piece by piece. *)
Lemma sub_stop_words_skip u :
  forall p x,
    Str.sub_stop_words_from p (length u) (u ++ x) =
    Str.sub_stop_words_from (prev_after p u) 0 x.
Proof.
  induction u as [|c u IH]; intros p x; [reflexivity|].
  cbn [length app Str.sub_stop_words_from]. rewrite IH.
  now rewrite prev_after_cons.
Qed.

Lemma sub_stop_words_inside u :
  forall p x,
    Str.word_at p = true -> Forall (fun c => Text.is_word c = true) u ->
    Str.sub_stop_words_from p 0 (u ++ x) =
    (u ++ Str.sub_stop_words_from (prev_after p u) 0 x)%list.
Proof.
  induction u as [|c u IH]; intros p x Hp Hu; [reflexivity|].
  apply Forall_cons in Hu as [Hc Hu].
  cbn [app Str.sub_stop_words_from].
  assert (Hnone : Str.stop_word_at p (c :: u ++ x) = None).
  { unfold Str.stop_word_at, Str.boundary. simpl. now rewrite Hp, Hc. }
  rewrite Hnone, IH by (simpl; assumption).
  now rewrite prev_after_cons.
Qed.

Lemma sub_stop_words_word w p x :
  word w -> Str.word_at p = false -> Str.word_at (head x) = false ->
  Str.sub_stop_words_from p 0 (w ++ x) =
  (erase w ++ Str.sub_stop_words_from (prev_after p w) 0 x)%list.
Proof.
  intros Hw Hp Hx.
  pose proof (stop_word_at_word p w x Hw Hp Hx) as Hat.
  destruct (word_head w Hw) as (c & r & -> & Hc).
  destruct Hw as [_ Hw]. apply Forall_cons in Hw as [_ Hr].
  cbn [app Str.sub_stop_words_from]. cbn [app] in Hat. rewrite Hat.
  unfold erase. destruct (is_stop_word (c :: r)).
  - cbn [length pred app]. rewrite sub_stop_words_skip.
    now rewrite prev_after_cons.
  - rewrite sub_stop_words_inside by (simpl; assumption).
    now rewrite prev_after_cons.
Qed.

Lemma sub_stop_words_gap g :
  forall p x,
    blank g ->
    Str.sub_stop_words_from p 0 (g ++ x) =
    (g ++ Str.sub_stop_words_from (prev_after p g) 0 x)%list.
Proof.
  induction g as [|c g IH]; intros p x Hg; [reflexivity|].
  apply Forall_cons in Hg as [Hc Hg].
  cbn [app Str.sub_stop_words_from].
  rewrite (stop_word_at_space p c (g ++ x) Hc), IH by exact Hg.
  now rewrite prev_after_cons.
Qed.

Lemma sub_stop_words_spell more :
  forall first p,
    Str.word_at p = false -> word first ->
    Forall (fun gw => gap gw.1 /\ word gw.2) more ->
    Str.sub_stop_words_from p 0 (spell first more) =
    spell (erase first) (map (fun gw => (gw.1, erase gw.2)) more).
Proof.
  induction more as [|[g w] more IH]; intros first p Hp Hfirst Hmore.
  - unfold spell. simpl.
    rewrite sub_stop_words_word by (simpl; auto).
    now destruct (prev_after p first).
  - apply Forall_cons in Hmore as [[Hg Hw] Hmore]. simpl in Hg, Hw.
    assert (E : spell first ((g, w) :: more) =
                (first ++ g ++ spell w more)%list).
    { unfold spell. simpl. now rewrite <- !app_assoc. }
    rewrite E.
    rewrite sub_stop_words_word by (auto using gap_head).
    rewrite sub_stop_words_gap by apply Hg.
    rewrite IH by (auto using gap_prev_after).
    unfold spell. simpl. now rewrite <- !app_assoc.
Qed.

(** The collapse of the whitespace, piece by piece. *)
Lemma sub_spaces_solid w :
  forall b x,
    w <> [] -> Forall (fun c => Text.is_space c = false) w ->
    Str.sub_spaces_from b (w ++ x) = (w ++ Str.sub_spaces_from false x)%list.
Proof.
  induction w as [|c w IH]; intros b x Hne Hw; [contradiction|].
  apply Forall_cons in Hw as [Hc Hw].
  cbn [app Str.sub_spaces_from]. rewrite Hc. f_equal.
  destruct w as [|d w]; [reflexivity|]. now apply IH.
Qed.

Lemma sub_spaces_blank g x :
  blank g -> Str.sub_spaces_from true (g ++ x) = Str.sub_spaces_from true x.
Proof.
  induction 1 as [|c g Hc Hg IH]; [reflexivity|].
  cbn [app Str.sub_spaces_from]. now rewrite Hc.
Qed.

Lemma sub_spaces_gap g b x :
  gap g ->
  Str.sub_spaces_from b (g ++ x) =
  ((if b then [] else [" "%char]) ++ Str.sub_spaces_from true x)%list.
Proof.
  intros [Hne Hg]. destruct g as [|c g]; [contradiction|].
  apply Forall_cons in Hg as [Hc Hg].
  cbn [app Str.sub_spaces_from]. rewrite Hc, (sub_spaces_blank g x Hg).
  now destruct b.
Qed.

Lemma word_solid w :
  word w -> w <> [] /\ Forall (fun c => Text.is_space c = false) w.
Proof.
  intros [Hne Hw]. split; [exact Hne|].
  eapply Forall_impl; [exact Hw|]. apply is_word_not_space.
Qed.

(** Words joined by single spaces begin and end with a character of a
    word. *)
Lemma unwords_snoc ks w :
  ks <> [] -> unwords (ks ++ [w]) = (unwords ks ++ " "%char :: w)%list.
Proof.
  induction ks as [|k ks IH]; intros Hne; [contradiction|].
  destruct ks as [|k2 ks]; [reflexivity|].
  change (unwords ((k :: k2 :: ks) ++ [w]))
    with (k ++ " "%char :: unwords ((k2 :: ks) ++ [w]))%list.
  rewrite IH by discriminate.
  change (unwords (k :: k2 :: ks))
    with (k ++ " "%char :: unwords (k2 :: ks))%list.
  now rewrite <- app_assoc.
Qed.

Lemma unwords_ends ks :
  Forall word ks -> ks <> [] ->
  (exists c r, unwords ks = c :: r /\ Text.is_space c = false) /\
  (exists l d, unwords ks = (l ++ [d])%list /\ Text.is_space d = false).
Proof.
  intros Hks Hne. split.
  - destruct ks as [|k ks]; [contradiction|].
    apply Forall_cons in Hks as [Hk _].
    destruct (word_head k Hk) as (c & r & -> & Hc).
    apply is_word_not_space in Hc.
    destruct ks as [|k2 ks]; simpl; eauto.
  - induction Hks as [|k ks Hk Hks IH]; [contradiction|].
    destruct ks as [|k2 ks].
    + destruct (word_last k Hk) as (l & d & -> & Hd).
      exists l, d. split; [reflexivity | now apply is_word_not_space].
    + destruct IH as (l & d & E & Hd); [discriminate|].
      exists (k ++ " "%char :: l)%list, d. split; [|exact Hd].
      change (unwords (k :: k2 :: ks))
        with (k ++ " "%char :: unwords (k2 :: ks))%list.
      rewrite E. now rewrite <- app_assoc.
Qed.

Lemma strip_blank s : blank s -> Text.strip s = [].
Proof.
  intros H. unfold Text.strip.
  pose proof (lstrip_blank_app s [] H) as E. rewrite app_nil_r in E.
  now rewrite E.
Qed.

Lemma strip_between pre u post :
  blank pre -> blank post ->
  (forall c r, u = c :: r -> Text.is_space c = false) ->
  (forall l d, u = (l ++ [d])%list -> Text.is_space d = false) ->
  Text.strip (pre ++ u ++ post) = u.
Proof.
  intros Hpre Hpost Hhead Hlast.
  destruct u as [|c r].
  - apply strip_blank. apply Forall_app. now split.
  - unfold Text.strip. rewrite lstrip_blank_app by exact Hpre.
    assert (L : Text.lstrip ((c :: r) ++ post) = ((c :: r) ++ post)%list)
      by (cbn [app Text.lstrip]; now rewrite (Hhead c r eq_refl)).
    rewrite L, rstrip_app_blank by exact Hpost.
    destruct (last (c :: r)) as [d|] eqn:E.
    + apply last_Some in E as [l E]. rewrite E.
      apply rstrip_solid. now apply (Hlast l d).
    + apply last_None in E. discriminate E.
Qed.

Lemma strip_unwords pre ks post :
  blank pre -> blank post -> Forall word ks ->
  Text.strip (pre ++ unwords ks ++ post) = unwords ks.
Proof.
  intros Hpre Hpost Hks. apply strip_between; [assumption | assumption | |].
  - intros c r E. destruct ks as [|k ks]; [discriminate E|].
    destruct (unwords_ends (k :: ks) Hks) as [(c' & r' & E' & Hc) _];
      [discriminate|].
    rewrite E in E'. now injection E' as -> _.
  - intros l d E. destruct ks as [|k ks]; [now destruct l|].
    destruct (unwords_ends (k :: ks) Hks) as [_ (l' & d' & E' & Hd)];
      [discriminate|].
    rewrite E in E'. apply app_inj_tail in E' as [_ ->]. exact Hd.
Qed.

Lemma spell_ends first more :
  word first -> Forall (fun gw => gap gw.1 /\ word gw.2) more ->
  (exists c r, spell first more = c :: r /\ Text.is_space c = false) /\
  (exists l d, spell first more = (l ++ [d])%list /\ Text.is_space d = false).
Proof.
  intros Hfirst Hmore. split.
  - destruct (word_head first Hfirst) as (c & r & -> & Hc).
    unfold spell. simpl. eexists _, _. split; [reflexivity|].
    now apply is_word_not_space.
  - revert first Hfirst.
    induction Hmore as [|[g w] more [_ Hw] Hmore IH]; intros first Hfirst.
    + destruct (word_last first Hfirst) as (l & d & -> & Hd).
      exists l, d. unfold spell. simpl. rewrite app_nil_r.
      split; [reflexivity | now apply is_word_not_space].
    + destruct (IH w Hw) as (l & d & E & Hd).
      exists (first ++ g ++ l)%list, d. split; [|exact Hd].
      unfold spell in *. cbn [map concat fst snd].
      rewrite <- !app_assoc. now rewrite E.
Qed.

(** The collapse of the whitespace and the final [strip], after the words
    [ks] already copied as [P]; [b] says that [P] ends with the space of a
    gap. *)
Lemma collapse_words more :
  forall P (b : bool) ks pre,
    Forall word ks -> blank pre ->
    P = (pre ++ unwords ks ++ (if b then [" "%char] else []))%list ->
    Forall (fun gw => gap gw.1 /\ word gw.2) more ->
    Text.strip
      (P ++ Str.sub_spaces_from b
              (concat (map (fun gw => (gw.1 ++ erase gw.2)%list) more))) =
    unwords (ks ++ filter (fun w => is_stop_word w = false) (map snd more)).
Proof.
  induction more as [|[g w] more IH]; intros P b ks pre Hks Hpre HP Hmore.
  - simpl. rewrite !app_nil_r. subst P. apply strip_unwords; try assumption.
    destruct b; repeat constructor.
  - apply Forall_cons in Hmore as [[Hg Hw] Hmore]. simpl in Hg, Hw.
    cbn [map concat fst snd]. rewrite <- app_assoc.
    rewrite (sub_spaces_gap g b _ Hg).
    assert (HP' : (P ++ (if b then [] else [" "%char]))%list =
                  (pre ++ unwords ks ++ [" "%char])%list).
    { subst P. destruct b; now rewrite <- ?app_assoc, ?app_nil_r. }
    unfold erase. rewrite filter_cons.
    destruct (is_stop_word w) eqn:Hstop.
    + rewrite decide_False by discriminate.
      cbn [app]. rewrite app_assoc.
      apply (IH _ true ks pre); try assumption.
    + rewrite decide_True by reflexivity.
      destruct (word_solid w Hw) as [Hne Hsolid].
      rewrite (sub_spaces_solid w true _ Hne Hsolid).
      rewrite !app_assoc, HP', <- !app_assoc.
      replace (ks ++ w :: filter (fun w0 => is_stop_word w0 = false)
                               (map snd more))%list
        with ((ks ++ [w]) ++ filter (fun w0 => is_stop_word w0 = false)
                               (map snd more))%list
        by now rewrite <- app_assoc.
      destruct ks as [|k ks].
      * rewrite !app_assoc.
        apply (IH _ false [w] (pre ++ [" "%char])%list).
        -- constructor; [exact Hw | constructor].
        -- apply Forall_app. split; [exact Hpre | repeat constructor].
        -- simpl. now rewrite !app_nil_r, <- !app_assoc.
        -- exact Hmore.
      * rewrite !app_assoc.
        apply (IH _ false ((k :: ks) ++ [w])%list pre).
        -- apply Forall_app. split; [exact Hks|].
           constructor; [exact Hw | constructor].
        -- exact Hpre.
        -- rewrite unwords_snoc by discriminate.
           now rewrite app_nil_r, <- !app_assoc.
        -- exact Hmore.
Qed.

(** The key of a title spelled with words and gaps. *)
Lemma dedup_key_spelled art lead first more trail :
  chars (title art) = (lead ++ spell first more ++ trail)%list ->
  blank lead -> blank trail -> word first ->
  Forall (fun gw => gap gw.1 /\ word gw.2) more ->
  length (spell first more) <= 60 ->
  dedup_key art =
  str (unwords (filter (fun w => is_stop_word w = false)
                       (map Text.lower (first :: map snd more)))).
Proof.
  intros Htitle Hlead Htrail Hfirst Hmore Hlen.
  set (more' := map (fun gw => (gw.1, Text.lower gw.2)) more).
  assert (Hmore' : Forall (fun gw => gap gw.1 /\ word gw.2) more').
  { unfold more'. apply Forall_map. eapply Forall_impl; [exact Hmore|].
    intros [g w] [Hg Hw]. split; [exact Hg | now apply lower_word]. }
  pose proof (lower_word first Hfirst) as Hfirst'.
  assert (Hlower : Text.lower (chars (title art)) =
                   (lead ++ spell (Text.lower first) more' ++ trail)%list).
  { rewrite Htitle. unfold Text.lower at 1. rewrite !map_app.
    change (map Text.lower_char lead) with (Text.lower lead).
    change (map Text.lower_char trail) with (Text.lower trail).
    change (map Text.lower_char (spell first more))
      with (Text.lower (spell first more)).
    now rewrite (lower_blank lead Hlead), (lower_blank trail Htrail),
      (lower_spell first more Hmore). }
  assert (Hstrip : Text.strip (Text.lower (chars (title art))) =
                   spell (Text.lower first) more').
  { rewrite Hlower.
    destruct (spell_ends _ _ Hfirst' Hmore')
      as [(c & r & Ec & Hc) (l & d & El & Hd)].
    apply strip_between; [assumption | assumption | |].
    - intros c0 r0 E. rewrite E in Ec. now injection Ec as -> _.
    - intros l0 d0 E. rewrite E in El.
      apply app_inj_tail in El as [_ ->]. exact Hd. }
  assert (Hlen' : length (spell (Text.lower first) more') <= 60).
  { unfold more'. rewrite <- (lower_spell first more Hmore).
    unfold Text.lower. now rewrite length_map. }
  unfold dedup_key. cbv zeta. rewrite Hstrip, take_ge by exact Hlen'.
  unfold Str.sub_stop_words.
  rewrite sub_stop_words_spell by (auto; reflexivity).
  f_equal. unfold spell, Str.sub_spaces. rewrite map_map. cbn [fst snd].
  assert (Hwords : map snd more' = map Text.lower (map snd more))
    by (unfold more'; now rewrite !map_map).
  cbn [map]. rewrite <- Hwords, filter_cons.
  unfold erase at 1. destruct (is_stop_word (Text.lower first)) eqn:Hstop.
  - rewrite decide_False by discriminate. cbn [app].
    apply (collapse_words more' [] false [] []); auto; constructor.
  - rewrite decide_True by reflexivity.
    destruct (word_solid _ Hfirst') as [Hne Hsolid].
    rewrite (sub_spaces_solid _ false _ Hne Hsolid).
    apply (collapse_words more' _ false [Text.lower first] []);
      auto; try (now repeat constructor).
    simpl. now rewrite app_nil_r.
Qed.

(** A title with a leading blank, a double space, capitals and three stop
    words. *)
Example dedup_key_spelled_example :
  dedup_key {| title := " The  Cat and the Dog "; summary := ""; url := "";
               source := ""; published := ""; content := "";
               from := "rss" |} = "cat dog".
Proof.
  assert (W : forall w, w <> [] ->
                forallb Text.is_word w = true -> word w).
  { intros w Hne Hw. split; [exact Hne|].
    apply Forall_forall. intros c Hc. rewrite forallb_forall in Hw.
    apply Hw. now apply list_elem_of_In. }
  assert (B : forall g, forallb Text.is_space g = true -> blank g).
  { intros g Hg. apply Forall_forall. intros c Hc.
    rewrite forallb_forall in Hg. apply Hg. now apply list_elem_of_In. }
  assert (G : forall g, g <> [] -> forallb Text.is_space g = true -> gap g).
  { intros g Hne Hg. split; [exact Hne | now apply B]. }
  rewrite (dedup_key_spelled _ (chars " ") (chars "The")
             [(chars "  ", chars "Cat"); (chars " ", chars "and");
              (chars " ", chars "the"); (chars " ", chars "Dog")]
             (chars " ")).
  - reflexivity.
  - reflexivity.
  - now apply B.
  - now apply B.
  - now apply W.
  - repeat (constructor; [split; [now apply G | now apply W]|]).
    constructor.
  - simpl. lia.
Qed.


End NormalizedKey.
